(** * BaseTxSender: the transaction sender of sdk/src/tx/baseTxSender.ts

    A shallow embedding of the class [BaseTxSender] and the properties of
    its confirmation race, its endpoint registry and its timeout counter.

    Conventions of the embedding.
    - The sender instance ([this]) is a record threaded through a small
      state-and-error monad [M]; a thrown exception or a rejected promise
      of an [async] method is the [Err] result.
    - Every call made on a collaborator (a [Connection], the wallet, a
      timer, the console, a field write on the transaction object) is
      appended to the trace of the method that made it, so that "is not
      invoked" and "is removed exactly once" are statements about traces.
    - A [Connection] and the wallet are objects of other packages: they
      are records whose function fields script what their methods answer.
    - JavaScript numbers that hold counters, handles and clock readings
      are integers in the exactly representable range; they are in [Z].
    - What happens while a method is suspended at an [await] is an
      argument of its model: the turns of the event loop that run
      meanwhile, each a list of callback invocations and of microtask
      checkpoints, and the order in which dispatched promises settle. *)

From Stdlib Require Import ZArith List String Ascii Bool Lia.
From Stdlib.Strings Require Import Byte.
From stdpp Require Import base list.
Import ListNotations.
Local Open Scope string_scope.
Local Open Scope list_scope.
Local Open Scope Z_scope.

(** ** Data of the collaborating packages *)

Definition PublicKey := string.
Definition Blockhash := string.
Definition TransactionSignature := string.
Definition Buffer := list byte.

(** [Commitment] of @solana/web3.js. *)
Inductive Commitment :=
| processed | confirmed | finalized | recent | single | singleGossip
| root | max.

Record ConfirmOptions := {
  skipPreflight : option bool;
  commitment : option Commitment;
  preflightCommitment : option Commitment;
  maxRetries : option Z;
  minContextSlot : option Z
}.

Record Signer := { signerPublicKey : PublicKey; secretKey : Buffer }.

Record Context := { slot : Z }.

(** [SignatureResult]: [err] is null on success and the on-chain error
    otherwise. *)
Record SignatureResult := { err : option string }.

(** [RpcResponseAndContext<SignatureResult>]. *)
Record RpcResponseAndContext := { context : Context; value : SignatureResult }.

Record TxSigAndSlot := { txSig : TransactionSignature; txSlot : Z }.

Definition TransactionInstruction := string.
Definition AddressLookupTableAccount := string.

(** The legacy transaction object, with the fields the sender writes.
    The methods pass it by value; a write of [prepareTx] on the object of
    the caller shows as an event of the trace. *)
Record Transaction := {
  feePayer : option PublicKey;
  recentBlockhash : option Blockhash;
  instructions : list TransactionInstruction;
  signatures : list PublicKey
}.

Record MessageV0 := {
  payerKey : PublicKey;
  messageBlockhash : Blockhash;
  messageInstructions : list TransactionInstruction;
  lookupTables : list AddressLookupTableAccount
}.

Record VersionedTransaction := {
  message : MessageV0;
  versionedSignatures : list PublicKey
}.

(** ** Errors and results *)

Inductive Error :=
| SignatureNotBase58 (signature : TransactionSignature)
    (* Error('signature must be base58 encoded: ' + signature) *)
| AssertionError (msg : string)
    (* assert(cond, msg) *)
| NotConfirmed (elapsedMs : Z) (signature : TransactionSignature)
    (* Error(`Transaction was not confirmed in ${duration} seconds ...
       signature ${signature} ...`), with duration = (Date.now() - start)
       / 1000; the error carries the elapsed milliseconds *)
| MustBeImplementedBySubclass
    (* Error('Must be implemented by subclass') *)
| TypeError (msg : string)
    (* a method call on undefined *)
| Thrown (what : string).
    (* an error value raised by a collaborator; it is passed on unchanged *)

Inductive Result (A : Type) :=
| Ok (a : A)
| Err (e : Error).
Arguments Ok {A} a.
Arguments Err {A} e.

(** What a method of a collaborator answers: a value, or an error value of
    its own (thrown, or the reason of a rejected promise). *)
Inductive Answer (A : Type) :=
| Returns (a : A)
| Throws (what : string).
Arguments Returns {A} a.
Arguments Throws {A} what.

(** ** Collaborator objects *)

Module Connection.
(** A [Connection] of @solana/web3.js.  [getLatestBlockhash] and
    [sendRawTransaction] are [async]: their [Throws] is a rejected
    promise.  [onSignature] is synchronous: it returns the client
    subscription id or throws.  [removeSignatureListener] answers
    nothing the sender looks at, so it only shows in traces. *)
Record t := {
  rpcEndpoint : string;
  getLatestBlockhash : option Commitment -> Answer Blockhash;
  sendRawTransaction : Buffer -> ConfirmOptions -> Answer TransactionSignature;
  onSignature : TransactionSignature -> option Commitment -> Answer Z
}.
End Connection.

Module Wallet.
(** [IWallet]: [payer] is the optional local keypair. *)
Record t := {
  publicKey : PublicKey;
  signTransaction : Transaction -> Answer Transaction;
  signVersionedTransaction : VersionedTransaction -> Answer VersionedTransaction;
  payer : option Signer
}.
End Wallet.

(** ** The sender *)

Definition DEFAULT_TIMEOUT : Z := 35000.

(** [AnchorProvider.defaultOptions()]. *)
Definition AnchorProvider_defaultOptions : ConfirmOptions :=
  {| skipPreflight := None;
     commitment := Some processed;
     preflightCommitment := Some processed;
     maxRetries := None;
     minContextSlot := None |}.

Record BaseTxSender := {
  connection : Connection.t;
  wallet : Wallet.t;
  opts : ConfirmOptions;
  timeout : Z;
  additionalConnections : list Connection.t;
  timeoutCount : Z
}.

(** The constructor, with its three defaulted arguments. *)
Definition new_BaseTxSender (connection : Connection.t) (wallet : Wallet.t)
    (opts : option ConfirmOptions) (timeout : option Z)
    (additionalConnections : option (list Connection.t)) : BaseTxSender :=
  {| connection := connection;
     wallet := wallet;
     opts := default AnchorProvider_defaultOptions opts;
     timeout := default DEFAULT_TIMEOUT timeout;
     additionalConnections := default [] additionalConnections;
     timeoutCount := 0 |}.

(** Writes of the two fields that the methods assign. *)
Definition withAdditionalConnections (this : BaseTxSender)
    (l : list Connection.t) : BaseTxSender :=
  {| connection := connection this;
     wallet := wallet this;
     opts := opts this;
     timeout := timeout this;
     additionalConnections := l;
     timeoutCount := timeoutCount this |}.

Definition withTimeoutCount (this : BaseTxSender) (n : Z) : BaseTxSender :=
  {| connection := connection this;
     wallet := wallet this;
     opts := opts this;
     timeout := timeout this;
     additionalConnections := additionalConnections this;
     timeoutCount := n |}.

(** ** Traces *)

Inductive Event :=
| GetLatestBlockhash (endpoint : string) (c : option Commitment)
| WriteFeePayer (k : PublicKey)
| WriteRecentBlockhash (h : Blockhash)
| PartialSign (kp : Signer)
| Sign (kps : list (option Signer))
| WalletSignTransaction
| OnSignature (i : nat) (endpoint : string)
    (signature : TransactionSignature) (c : option Commitment)
| RemoveSignatureListener (i : nat) (endpoint : string) (id : Z)
| SetTimeout (ms : Z)
| TimerFired
| ClearTimeout
| SendRawTransaction (endpoint : string) (raw : Buffer) (o : ConfirmOptions)
| ConsoleError (msg : string).

(** ** The monad of the methods: sender state, errors, trace *)

Definition M (A : Type) : Type :=
  BaseTxSender -> Result A * BaseTxSender * list Event.

Definition ret {A} (a : A) : M A := fun this => (Ok a, this, []).

Definition throw {A} (e : Error) : M A := fun this => (Err e, this, []).

Definition bind {A B} (m : M A) (k : A -> M B) : M B :=
  fun this =>
    match m this with
    | (Ok a, this1, t1) =>
        match k a this1 with
        | (r, this2, t2) => (r, this2, t1 ++ t2)
        end
    | (Err e, this1, t1) => (Err e, this1, t1)
    end.

Notation "'let*' x ':=' m 'in' k" := (bind m (fun x => k))
  (at level 10, x name, m at level 100, k at level 200).
Notation "m ';;' k" := (bind m (fun _ => k))
  (at level 100, k at level 200, right associativity).

Definition getThis : M BaseTxSender := fun this => (Ok this, this, []).
Definition setThis (s : BaseTxSender) : M unit := fun _ => (Ok tt, s, []).
Definition emit (e : Event) : M unit := fun this => (Ok tt, this, [e]).

(** A collaborator's answer, awaited or called: its error is rethrown. *)
Definition liftR {A} (r : Answer A) : M A :=
  match r with Returns a => ret a | Throws what => throw (Thrown what) end.

Definition resultOf {A} (o : Result A * BaseTxSender * list Event) : Result A :=
  o.1.1.
Definition thisOf {A} (o : Result A * BaseTxSender * list Event) : BaseTxSender :=
  o.1.2.
Definition traceOf {A} (o : Result A * BaseTxSender * list Event) : list Event :=
  o.2.

(** ** addAdditionalConnection, getTimeoutCount *)

(** [connection._rpcEndpoint === newConnection.rpcEndpoint]: the getter
    [rpcEndpoint] reads the field [_rpcEndpoint]. *)
Definition sameEndpoint (newConnection connection : Connection.t) : bool :=
  String.eqb (Connection.rpcEndpoint connection)
             (Connection.rpcEndpoint newConnection).

Definition addAdditionalConnection (newConnection : Connection.t) : M unit :=
  let* this := getThis in
  let alreadyUsingConnection :=
    (0 <? length (filter (fun c => sameEndpoint newConnection c = true)
                         (additionalConnections this)))%nat in
  if negb alreadyUsingConnection then
    setThis (withAdditionalConnections this
               (additionalConnections this ++ [newConnection]))
  else ret tt.

Definition getTimeoutCount : M Z :=
  let* this := getThis in ret (timeoutCount this).

(** ** confirmTransaction: the confirmation race *)

(** The state of one of the promises handed to [Promise.race]. *)
Inductive Promise :=
| Pending
| Fulfilled
| Rejected (e : Error).

(** The variables of one call that its callbacks close over. *)
Record Frame := {
  subscriptionIds : list (option Z);
  response : option RpcResponseAndContext;
  promises : list Promise
}.

(** [a[i] = v] on a JavaScript array: past the end the array grows and the
    holes read as undefined. *)
Definition array_set {A} (a : list (option A)) (i : nat) (v : option A)
    : list (option A) :=
  if (i <? length a)%nat then <[i:=v]> a
  else a ++ replicate (i - length a) None ++ [v].

(** [if (subscriptionId)]: undefined and 0 are falsy. *)
Definition truthy (subscriptionId : option Z) : bool :=
  match subscriptionId with
  | Some id => negb (id =? 0)
  | None => false
  end.

(** The executor of [confirmPromise] on one connection: the id that
    [subscriptionIds.push] records, and the promise. *)
Definition confirmPromise (signature : TransactionSignature)
    (subscriptionCommitment : option Commitment)
    (connection : Connection.t) : option Z * Promise :=
  match Connection.onSignature connection signature subscriptionCommitment with
  | Returns subscriptionId => (Some subscriptionId, Pending)
  | Throws what => (None, Rejected (Thrown what))
  end.

(** [resolve(null)] of promise [i]; settling a settled promise does
    nothing. *)
Definition resolve (i : nat) (ps : list Promise) : list Promise :=
  match ps !! i with
  | Some Pending => <[i:=Fulfilled]> ps
  | _ => ps
  end.

(** The callback given to [connection.onSignature] for endpoint [i]. *)
Definition callback (i : nat) (result : SignatureResult) (ctx : Context)
    (fr : Frame) : Frame :=
  {| subscriptionIds := array_set (subscriptionIds fr) i None;
     response := Some {| context := ctx; value := result |};
     promises := resolve i (promises fr) |}.

(** What the endpoints do while the call is suspended at its [await].
    A [Connection] invokes a callback when a notification reaches it on
    its web socket, that is in a later turn of the event loop than the
    one in which the method was called: [jobs] are the turns that follow
    that one, up to the turn of the timer, in order.  A turn is a list of
    steps.  At [Invoke] an endpoint invokes the callback it holds, with a
    result and a context.  At [Microtask] the microtask queue comes to
    the promise reaction of the call that is queued, when there is one.
    The callbacks between two [Microtask] steps run back to back, and
    when a turn ends the microtask queue is emptied, so that the
    reactions still queued run before the next turn.  [startTime] and
    [endTime] are the two readings of [Date.now()]. *)
Record Notification := {
  endpoint : nat;
  result : SignatureResult;
  notifiedContext : Context
}.

Inductive Step :=
| Invoke (n : Notification)
| Microtask.

Record Schedule := {
  jobs : list (list Step);
  startTime : Z;
  endTime : Z
}.

(** An endpoint holds the callback exactly when its [onSignature]
    returned, that is when its promise was not rejected by the executor;
    callbacks are invoked from the turns of [jobs], never from inside
    [onSignature] nor in the rest of the turn that called the method. *)
Definition notify (fr : Frame) (n : Notification) : Frame :=
  match promises fr !! endpoint n with
  | Some (Rejected _) | None => fr
  | Some _ => callback (endpoint n) (result n) (notifiedContext n) fr
  end.

(** [Promise.race]: the first settled promise, in array order among those
    settled when the reactions run. *)
Fixpoint race (ps : list Promise) : Promise :=
  match ps with
  | [] => Pending
  | Pending :: rest => race rest
  | p :: _ => p
  end.

(** The promise reactions between the settling of a promise of the race
    and the resumption of the call: the reaction of [Promise.race]
    settles the race, the [then] handler of [promiseTimeout] clears the
    timer and settles the promise that is awaited, and the reaction of
    the [await] resumes the call. *)
Definition reactionsToResume : nat := 3.

(** The rest of a turn once a promise of the race has settled, with
    [reactions] reactions of the call still to run: [resolve(null)] only
    queues the first of them, so the callbacks invoked until the last
    one has run still assign the response and clear their slots.  The
    result is the frame that the call finds when it resumes. *)
Fixpoint resuming (reactions : nat) (steps : list Step) (fr : Frame)
    : Frame :=
  match reactions, steps with
  | O, _ => fr
  | _, [] => fr
  | _, Invoke n :: rest => resuming reactions rest (notify fr n)
  | S k, Microtask :: rest => resuming k rest fr
  end.

(** A turn that starts with every promise of the race pending: the frame
    when the call resumes or the turn ends, and [true] when the call
    resumed.  No reaction of the call is queued before a callback
    settles a promise. *)
Fixpoint runTurn (steps : list Step) (fr : Frame) : Frame * bool :=
  match steps with
  | [] => (fr, false)
  | Microtask :: rest => runTurn rest fr
  | Invoke n :: rest =>
      let fr' := notify fr n in
      match race (promises fr') with
      | Pending => runTurn rest fr'
      | _ => (resuming reactionsToResume rest fr', true)
      end
  end.

(** The turns run until the call resumes in one of them; [true] when
    they all ran and the timer's turn resolved [timeoutPromise]. *)
Fixpoint eventLoop (jobs : list (list Step)) (fr : Frame)
    : Frame * bool :=
  match jobs with
  | [] => (fr, true)
  | turn :: rest =>
      let '(fr', resumed) := runTurn turn fr in
      if resumed : bool then (fr', false) else eventLoop rest fr'
  end.

(** [promiseTimeout(promises, timeoutMs)], awaited: the frame when the
    call resumes and how the returned promise settled.  The [then] handler
    that clears the timer runs on fulfilment only.  When a promise is
    settled already, its reaction is queued by [Promise.race] itself and
    the call resumes as the calling turn ends, before any of [jobs]. *)
Definition promiseTimeout (jobs : list (list Step)) (fr : Frame)
    (timeoutMs : Z) : M (Frame * Promise) :=
  emit (SetTimeout timeoutMs) ;;
  match race (promises fr) with
  | Rejected e => ret (fr, Rejected e)
  | Fulfilled => emit ClearTimeout ;; ret (fr, Fulfilled)
  | Pending =>
      let '(fr', timer) := eventLoop jobs fr in
      (if timer : bool then emit TimerFired else ret tt) ;;
      emit ClearTimeout ;;
      ret (fr', Fulfilled)
  end.

(** The [finally] block: [for (const [i, subscriptionId] of
    subscriptionIds.entries())]. *)
Fixpoint removeListeners (connections : list Connection.t) (i : nat)
    (ids : list (option Z)) : M unit :=
  match ids with
  | [] => ret tt
  | subscriptionId :: rest =>
      (if truthy subscriptionId then
         match connections !! i with
         | Some c =>
             emit (RemoveSignatureListener i (Connection.rpcEndpoint c)
                     (default 0 subscriptionId))
         | None => throw (TypeError "connections[i] is undefined")
         end
       else ret tt) ;;
      removeListeners connections (S i) rest
  end.

Definition incrementTimeoutCount : M unit :=
  let* this := getThis in
  setThis (withTimeoutCount this (timeoutCount this + 1)).

Definition emitAll (es : list Event) : M unit := fun this => (Ok tt, this, es).

Section Sender.

(** [bs58.decode] of the bs58 package: [None] when it throws. *)
Variable bs58_decode : string -> option Buffer.

(** [sched] is what the endpoints and the clock do during the call.  The
    [connections.map] runs the executor of every promise at once: one
    call of [onSignature] for each connection, in order, whose id or
    undefined is pushed on [subscriptionIds].  The [try]/[finally] around
    the [await] is the teardown between the race and the rethrow. *)
Definition confirmTransaction (sched : Schedule)
    (signature : TransactionSignature) (commitment' : option Commitment)
    : M RpcResponseAndContext :=
  let* decodedSignature :=
    match bs58_decode signature with
    | Some b => ret b
    | None => throw (SignatureNotBase58 signature)
    end in
  (if (length decodedSignature =? 64)%nat then ret tt
   else throw (AssertionError "signature has invalid length")) ;;
  let start := startTime sched in
  let* this := getThis in
  let subscriptionCommitment :=
    match commitment' with
    | Some c => Some c
    | None => commitment (opts this)
    end in
  let connections := connection this :: additionalConnections this in
  emitAll (imap (fun i c => OnSignature i (Connection.rpcEndpoint c)
                              signature subscriptionCommitment)
             connections) ;;
  let registered :=
    map (confirmPromise signature subscriptionCommitment) connections in
  let fr := {| subscriptionIds := registered.*1;
               response := None;
               promises := registered.*2 |} in
  let* awaited := promiseTimeout (jobs sched) fr (timeout this) in
  let '(fr', settled) := awaited in
  removeListeners connections 0 (subscriptionIds fr') ;;
  match settled with
  | Rejected e => throw e
  | _ =>
      match response fr' with
      | None =>
          incrementTimeoutCount ;;
          let duration := endTime sched - start in
          throw (NotConfirmed duration signature)
      | Some r => ret r
      end
  end.

(** ** prepareTx, send, and the versioned variants *)

(** Methods of [Transaction] and [VersionedTransaction], and
    [new TransactionMessage(...).compileToV0Message(...)], of
    @solana/web3.js. *)
Variable partialSign : Signer -> Transaction -> Answer Transaction.
Variable serialize : Transaction -> Answer Buffer.
Variable sign :
  list (option Signer) -> VersionedTransaction -> Answer VersionedTransaction.
Variable serializeVersioned : VersionedTransaction -> Answer Buffer.
Variable compileToV0Message :
  PublicKey -> Blockhash -> list TransactionInstruction ->
  list AddressLookupTableAccount -> Answer MessageV0.

(** [this.sendRawTransaction] as the instance dispatches it: the method
    of the concrete subclass. *)
Variable sendRawTransaction : Buffer -> ConfirmOptions -> M TxSigAndSlot.

(** [if (preSigned)] on an optional boolean. *)
Definition isSet (preSigned : option bool) : bool := default false preSigned.

(** [kps.forEach((kp) => { tx.partialSign(kp); })] *)
Fixpoint partialSignEach (kps : list Signer) (tx : Transaction)
    : M Transaction :=
  match kps with
  | [] => ret tx
  | kp :: rest =>
      emit (PartialSign kp) ;;
      let* tx' := liftR (partialSign kp tx) in
      partialSignEach rest tx'
  end.

Definition prepareTx (tx : Transaction)
    (additionalSigners : list (option Signer)) (opts' : ConfirmOptions)
    : M Transaction :=
  let* this := getThis in
  emit (WriteFeePayer (Wallet.publicKey (wallet this))) ;;
  let tx1 := {| feePayer := Some (Wallet.publicKey (wallet this));
                recentBlockhash := recentBlockhash tx;
                instructions := instructions tx;
                signatures := signatures tx |} in
  emit (GetLatestBlockhash (Connection.rpcEndpoint (connection this))
          (preflightCommitment opts')) ;;
  let* blockhash :=
    liftR (Connection.getLatestBlockhash (connection this)
             (preflightCommitment opts')) in
  emit (WriteRecentBlockhash blockhash) ;;
  let tx2 := {| feePayer := feePayer tx1;
                recentBlockhash := Some blockhash;
                instructions := instructions tx1;
                signatures := signatures tx1 |} in
  let* tx3 := partialSignEach (omap id additionalSigners) tx2 in
  emit WalletSignTransaction ;;
  let* signedTx := liftR (Wallet.signTransaction (wallet this) tx3) in
  ret signedTx.

Definition send (tx : Transaction)
    (additionalSigners : option (list (option Signer)))
    (opts' : option ConfirmOptions) (preSigned : option bool)
    : M TxSigAndSlot :=
  let additionalSigners := default [] additionalSigners in
  let* this := getThis in
  let opts' := default (opts this) opts' in
  let* signedTx :=
    if isSet preSigned then ret tx
    else prepareTx tx additionalSigners opts' in
  let* raw := liftR (serialize signedTx) in
  sendRawTransaction raw opts'.

Definition getVersionedTransaction (ixs : list TransactionInstruction)
    (lookupTableAccounts : list AddressLookupTableAccount)
    (additionalSigners : option (list (option Signer)))
    (opts' : option ConfirmOptions) : M VersionedTransaction :=
  let* this := getThis in
  let opts' := default (opts this) opts' in
  emit (GetLatestBlockhash (Connection.rpcEndpoint (connection this))
          (preflightCommitment opts')) ;;
  let* blockhash :=
    liftR (Connection.getLatestBlockhash (connection this)
             (preflightCommitment opts')) in
  let* message :=
    liftR (compileToV0Message (Wallet.publicKey (wallet this)) blockhash
             ixs lookupTableAccounts) in
  ret {| message := message; versionedSignatures := [] |}.

(** [kps.forEach((kp) => { tx.sign([kp]); })] *)
Fixpoint signEach (kps : list Signer) (tx : VersionedTransaction)
    : M VersionedTransaction :=
  match kps with
  | [] => ret tx
  | kp :: rest =>
      emit (Sign [Some kp]) ;;
      let* tx' := liftR (sign [Some kp] tx) in
      signEach rest tx'
  end.

Definition sendVersionedTransaction (tx : VersionedTransaction)
    (additionalSigners : option (list (option Signer)))
    (opts' : option ConfirmOptions) (preSigned : option bool)
    : M TxSigAndSlot :=
  let* this := getThis in
  let* signedTx :=
    if isSet preSigned then ret tx
    else
      match Wallet.payer (wallet this) with
      | Some payer =>
          let signers := default [] additionalSigners ++ [Some payer] in
          emit (Sign signers) ;;
          liftR (sign signers tx)
      | None =>
          let* tx' :=
            match additionalSigners with
            | Some kps => signEach (omap id kps) tx
            | None => ret tx
            end in
          emit WalletSignTransaction ;;
          liftR (Wallet.signVersionedTransaction (wallet this) tx')
      end in
  let opts' := default (opts this) opts' in
  let* raw := liftR (serializeVersioned signedTx) in
  sendRawTransaction raw opts'.

End Sender.

(** [sendRawTransaction] as [BaseTxSender] itself defines it. *)
Definition BaseTxSender_sendRawTransaction (rawTransaction : Buffer)
    (opts' : ConfirmOptions) : M TxSigAndSlot :=
  throw MustBeImplementedBySubclass.

(** [getTimestamp()]: [now] is the reading of the clock. *)
Definition getTimestamp (now : Z) : M Z := ret now.

(** ** sendToAdditionalConnections *)

(** The handler given to [.catch] for one additional connection. *)
Definition logSendError (connection : Connection.t) (e : string) : M unit :=
  emit (ConsoleError ("error sending tx to additional connection "
                        ++ Connection.rpcEndpoint connection)%string) ;;
  emit (ConsoleError e).

(** [p.catch(handler)], once [p] has settled: the handler runs on
    rejection, and the derived promise settles as the handler ends. *)
Definition catch {A} (p : Answer A) (handler : string -> M unit) : M unit :=
  match p with
  | Returns _ => ret tt
  | Throws e => handler e
  end.

(** The synchronous part: one dispatch per additional connection; the
    promises are dropped and the method returns. *)
Definition sendToAdditionalConnections (rawTx : Buffer)
    (opts' : ConfirmOptions) : M unit :=
  let* this := getThis in
  emitAll (map (fun connection =>
                  SendRawTransaction (Connection.rpcEndpoint connection)
                    rawTx opts')
             (additionalConnections this)).

(** The reactions that run later, as the dispatched sends settle, each at
    its own time: [settled] lists the sends that settle, by the position
    of their connection in [connections] (the additional connections at
    the time of the dispatch), in the order in which they settle.  The
    handler of a send runs when that send is rejected. *)
Fixpoint dispatchReactions (rawTx : Buffer) (opts' : ConfirmOptions)
    (connections : list Connection.t) (settled : list nat) : M unit :=
  match settled with
  | [] => ret tt
  | i :: rest =>
      match connections !! i with
      | Some connection =>
          catch (Connection.sendRawTransaction connection rawTx opts')
                (logSendError connection)
      | None => ret tt
      end ;;
      dispatchReactions rawTx opts' connections rest
  end.

(** ** The operations of a sender, as a caller invokes them *)

Section Calls.

Variable bs58_decode : string -> option Buffer.
Variable partialSign : Signer -> Transaction -> Answer Transaction.
Variable serialize : Transaction -> Answer Buffer.
Variable sign :
  list (option Signer) -> VersionedTransaction -> Answer VersionedTransaction.
Variable serializeVersioned : VersionedTransaction -> Answer Buffer.
Variable compileToV0Message :
  PublicKey -> Blockhash -> list TransactionInstruction ->
  list AddressLookupTableAccount -> Answer MessageV0.
Variable sendRawTransaction : Buffer -> ConfirmOptions -> M TxSigAndSlot.

Inductive Call :=
| CallSend (tx : Transaction) (signers : option (list (option Signer)))
    (o : option ConfirmOptions) (preSigned : option bool)
| CallPrepareTx (tx : Transaction) (signers : list (option Signer))
    (o : ConfirmOptions)
| CallGetVersionedTransaction (ixs : list TransactionInstruction)
    (tables : list AddressLookupTableAccount)
    (signers : option (list (option Signer))) (o : option ConfirmOptions)
| CallSendVersionedTransaction (tx : VersionedTransaction)
    (signers : option (list (option Signer)))
    (o : option ConfirmOptions) (preSigned : option bool)
| CallSendRawTransaction (raw : Buffer) (o : ConfirmOptions)
| CallConfirmTransaction (sched : Schedule)
    (signature : TransactionSignature) (c : option Commitment)
| CallGetTimestamp (now : Z)
| CallPromiseTimeout (js : list (list Step)) (fr : Frame) (ms : Z)
| CallSendToAdditionalConnections (raw : Buffer) (o : ConfirmOptions)
| CallAddAdditionalConnection (c : Connection.t)
| CallGetTimeoutCount.

(** The sender after the call. *)
Definition perform (s : BaseTxSender) (call : Call) : BaseTxSender :=
  match call with
  | CallSend tx signers o preSigned =>
      thisOf (send partialSign serialize sendRawTransaction
                tx signers o preSigned s)
  | CallPrepareTx tx signers o =>
      thisOf (prepareTx partialSign tx signers o s)
  | CallGetVersionedTransaction ixs tables signers o =>
      thisOf (getVersionedTransaction compileToV0Message
                ixs tables signers o s)
  | CallSendVersionedTransaction tx signers o preSigned =>
      thisOf (sendVersionedTransaction sign serializeVersioned
                sendRawTransaction tx signers o preSigned s)
  | CallSendRawTransaction raw o => thisOf (sendRawTransaction raw o s)
  | CallConfirmTransaction sched signature c =>
      thisOf (confirmTransaction bs58_decode sched signature c s)
  | CallGetTimestamp now => thisOf (getTimestamp now s)
  | CallPromiseTimeout js fr ms => thisOf (promiseTimeout js fr ms s)
  | CallSendToAdditionalConnections raw o =>
      thisOf (sendToAdditionalConnections raw o s)
  | CallAddAdditionalConnection c => thisOf (addAdditionalConnection c s)
  | CallGetTimeoutCount => thisOf (getTimeoutCount s)
  end.

(** The sender after the calls, made one after the other. *)
Definition performAll (s : BaseTxSender) (calls : list Call) : BaseTxSender :=
  foldl perform s calls.

(** A method that leaves the sender as it found it. *)
Definition keepsThis {A} (m : M A) : Prop := forall s, thisOf (m s) = s.

(** A method that does not decrease the timeout counter. *)
Definition nondecreasing {A} (m : M A) : Prop :=
  forall s, timeoutCount s <= timeoutCount (thisOf (m s)).

(** The call is a [confirmTransaction] that fails with the
    not-confirmed error. *)
Definition timesOut (s : BaseTxSender) (call : Call) : bool :=
  match call with
  | CallConfirmTransaction sched signature c =>
      match resultOf (confirmTransaction bs58_decode sched signature c s) with
      | Err (NotConfirmed _ _) => true
      | _ => false
      end
  | _ => false
  end.

(** The call ends in the [sendRawTransaction] of the subclass. *)
Definition reachesSubclass (call : Call) : bool :=
  match call with
  | CallSend _ _ _ _
  | CallSendVersionedTransaction _ _ _ _
  | CallSendRawTransaction _ _ => true
  | _ => false
  end.

(** The number of calls that fail with the not-confirmed error, among
    calls made one after the other: each one finds the sender that the
    calls before it left. *)
Fixpoint timeouts (s : BaseTxSender) (calls : list Call) : nat :=
  match calls with
  | [] => O
  | call :: rest =>
      ((if timesOut s call then 1 else 0) + timeouts (perform s call) rest)%nat
  end.

End Calls.

(** ** Notions of the statements *)

(** [[this.connection, ...this.additionalConnections]] *)
Definition connectionsOf (s : BaseTxSender) : list Connection.t :=
  connection s :: additionalConnections s.

(** [commitment || this.opts.commitment] *)
Definition subscriptionCommitmentOf (s : BaseTxSender)
    (c : option Commitment) : option Commitment :=
  match c with
  | Some c => Some c
  | None => commitment (opts s)
  end.

(** The signature decodes from base58 to exactly 64 bytes. *)
Definition decodesTo64 (bs58_decode : string -> option Buffer)
    (signature : TransactionSignature) : bool :=
  match bs58_decode signature with
  | Some b => (length b =? 64)%nat
  | None => false
  end.

(** The errors that a malformed signature raises. *)
Definition invalidSignature (e : Error) : bool :=
  match e with
  | SignatureNotBase58 _ => true
  | AssertionError msg => String.eqb msg "signature has invalid length"
  | _ => false
  end.

(** The handle that [onSignature] returns on a connection, if it does. *)
Definition handleOn (signature : TransactionSignature)
    (c : option Commitment) (conn : Connection.t) : option Z :=
  match Connection.onSignature conn signature c with
  | Returns id => Some id
  | Throws _ => None
  end.

(** The subscriptions opened on reachable endpoints: position in
    [connections] and handle; [i] is the position of the first of
    [conns]. *)
Fixpoint registrationsFrom (i : nat) (signature : TransactionSignature)
    (c : option Commitment) (conns : list Connection.t) : list (nat * Z) :=
  match conns with
  | [] => []
  | conn :: rest =>
      match handleOn signature c conn with
      | Some id => [(i, id)]
      | None => []
      end ++ registrationsFrom (S i) signature c rest
  end.

Definition registrations := registrationsFrom 0.

(** No endpoint hands out the id 0. *)
Definition nonzeroHandles (signature : TransactionSignature)
    (c : option Commitment) (conns : list Connection.t) : bool :=
  forallb (fun conn => match handleOn signature c conn with
                       | Some id => negb (id =? 0)
                       | None => true
                       end) conns.

(** The error of the first endpoint whose registration throws. *)
Fixpoint firstFailure (signature : TransactionSignature)
    (c : option Commitment) (conns : list Connection.t) : option string :=
  match conns with
  | [] => None
  | conn :: rest =>
      match Connection.onSignature conn signature c with
      | Throws what => Some what
      | Returns _ => firstFailure signature c rest
      end
  end.

(** The teardowns and the registrations that a trace shows. *)
Definition removals (t : list Event) : list (nat * Z) :=
  omap (fun e => match e with
                 | RemoveSignatureListener i _ id => Some (i, id)
                 | _ => None
                 end) t.

(** A teardown is addressed to the connection at its position. *)
Definition onOwnConnection (conns : list Connection.t) (e : Event) : bool :=
  match e with
  | RemoveSignatureListener i url _ =>
      match conns !! i with
      | Some conn => String.eqb url (Connection.rpcEndpoint conn)
      | None => false
      end
  | _ => true
  end.

Definition subscribed (t : list Event) : list nat :=
  omap (fun e => match e with
                 | OnSignature i _ _ _ => Some i
                 | _ => None
                 end) t.

(** The callbacks that the steps invoke before the [reactions]-th of
    their microtasks. *)
Fixpoint invokedBefore (reactions : nat) (steps : list Step)
    : list Notification :=
  match reactions, steps with
  | O, _ => []
  | _, [] => []
  | _, Invoke x :: rest => x :: invokedBefore reactions rest
  | S k, Microtask :: rest => invokedBefore k rest
  end.

(** The notifications delivered in a turn to the [n] endpoints of the
    call, from the first that reaches one of them to the resumption of
    the call; none when the turn reaches no endpoint of the call. *)
Fixpoint settlingTurn (n : nat) (steps : list Step) : list Notification :=
  match steps with
  | [] => []
  | Microtask :: rest => settlingTurn n rest
  | Invoke x :: rest =>
      if decide (endpoint x < n)%nat
      then x :: filter (fun y => (endpoint y < n)%nat)
                  (invokedBefore reactionsToResume rest)
      else settlingTurn n rest
  end.

(** The notifications delivered before the call resumes: those of the
    first turn that reaches one of the [n] endpoints of the call. *)
Fixpoint settlingJob (n : nat) (js : list (list Step))
    : list Notification :=
  match js with
  | [] => []
  | turn :: rest =>
      match settlingTurn n turn with
      | [] => settlingJob n rest
      | delivered => delivered
      end
  end.

Definition payload (x : Notification) : RpcResponseAndContext :=
  {| context := notifiedContext x; value := result x |}.

(** The endpoints whose callback ran before the call resumed. *)
Definition notified (signature : TransactionSignature)
    (c : option Commitment) (conns : list Connection.t)
    (js : list (list Step)) : list nat :=
  match firstFailure signature c conns with
  | Some _ => []
  | None => endpoint <$> settlingJob (length conns) js
  end.

(** [subscriptionIds] once the callbacks of the endpoints [fired] have
    run: their slots are undefined; [i] is the position of the first
    slot of [ids]. *)
Fixpoint clearedFrom (i : nat) (fired : list nat) (ids : list (option Z))
    : list (option Z) :=
  match ids with
  | [] => []
  | o :: rest =>
      (if bool_decide (i ∈ fired) then None else o)
      :: clearedFrom (S i) fired rest
  end.

Definition cleared := clearedFrom 0.

(** The calls of [removeSignatureListener] for the slots [ids], the first
    of which is slot [i]: one for each slot that holds a truthy id. *)
Fixpoint teardown (conns : list Connection.t) (i : nat)
    (ids : list (option Z)) : list Event :=
  match ids with
  | [] => []
  | o :: rest =>
      match o, conns !! i with
      | Some id, Some c =>
          if id =? 0 then []
          else [RemoveSignatureListener i (Connection.rpcEndpoint c) id]
      | _, _ => []
      end ++ teardown conns (S i) rest
  end.

(** The frame that registration leaves. *)
Definition registeredFrame (signature : TransactionSignature)
    (cmt : option Commitment) (conns : list Connection.t) : Frame :=
  {| subscriptionIds := (map (confirmPromise signature cmt) conns).*1;
     response := None;
     promises := (map (confirmPromise signature cmt) conns).*2 |}.

(** A frame during the race of [n] endpoints that all registered. *)
Definition racing (n : nat) (fr : Frame) : Prop :=
  length (subscriptionIds fr) = n
  /\ length (promises fr) = n
  /\ Forall (fun p => p = Pending \/ p = Fulfilled) (promises fr).

(** The calls of [onSignature], one for each connection in turn. *)
Definition registering (signature : TransactionSignature)
    (c : option Commitment) (conns : list Connection.t) : list Event :=
  imap (fun i conn => OnSignature i (Connection.rpcEndpoint conn) signature c)
       conns.

(** An event of signing: a partial signature, or the wallet. *)
Definition signing (e : Event) : bool :=
  match e with
  | PartialSign _ | Sign _ | WalletSignTransaction => true
  | _ => false
  end.

(** The number of registered additional connections at an address. *)
Definition registeredAt (url : string) (s : BaseTxSender) : nat :=
  length (filter (fun c => String.eqb (Connection.rpcEndpoint c) url = true)
                 (additionalConnections s)).

(** The schedule with other turns. *)
Definition withJobs (sched : Schedule) (js : list (list Step)) : Schedule :=
  {| jobs := js;
     startTime := startTime sched;
     endTime := endTime sched |}.

(** The schedule with further turns after its own. *)
Definition withLaterJobs (sched : Schedule)
    (later : list (list Step)) : Schedule :=
  withJobs sched (jobs sched ++ later).

(** The number of microtasks among the steps. *)
Fixpoint microtasks (steps : list Step) : nat :=
  match steps with
  | [] => O
  | Microtask :: rest => S (microtasks rest)
  | Invoke _ :: rest => microtasks rest
  end.

(** The call resumes within the turn, before its last step has run: a
    notification reaches one of the [n] endpoints and the three reactions
    run among the steps that follow it. *)
Fixpoint resumedWithin (n : nat) (steps : list Step) : bool :=
  match steps with
  | [] => false
  | Microtask :: rest => resumedWithin n rest
  | Invoke x :: rest =>
      if decide (endpoint x < n)%nat
      then (reactionsToResume <=? microtasks rest)%nat
      else resumedWithin n rest
  end.

(** No endpoint invokes a callback before the timer's turn. *)
Definition quiet (sched : Schedule) : Prop :=
  Forall (Forall (fun step => step = Microtask)) (jobs sched).

(** Calls of [confirmTransaction] one after the other, each with what
    the endpoints do during it, its signature and its commitment. *)
Definition confirmEach (bs58_decode : string -> option Buffer)
    (s : BaseTxSender)
    (calls : list (Schedule * TransactionSignature * option Commitment))
    : BaseTxSender :=
  foldl (fun s call =>
           thisOf (confirmTransaction bs58_decode call.1.1 call.1.2 call.2 s))
        s calls.

(** A call of [confirmTransaction] on the sender [s] that no endpoint
    answers: the signature is well formed, [onSignature] returns on every
    connection, and no callback is invoked before the timer. *)
Definition unanswered (bs58_decode : string -> option Buffer)
    (s : BaseTxSender)
    (call : Schedule * TransactionSignature * option Commitment) : Prop :=
  decodesTo64 bs58_decode call.1.2 = true
  /\ firstFailure call.1.2 (subscriptionCommitmentOf s call.2)
       (connectionsOf s) = None
  /\ quiet call.1.1.

(** ** A base58 decoder

    The decoding of the Bitcoin alphabet that the bs58 package implements:
    a leading '1' is a zero byte, the rest is a big-endian number in base
    58, and a character outside the alphabet is an error. *)
Module Base58.

Definition alphabet : string :=
  "123456789ABCDEFGHJKLMNPQRSTUVWXYZabcdefghijkmnopqrstuvwxyz".

Fixpoint indexOf (c : ascii) (s : string) (i : N) : option N :=
  match s with
  | EmptyString => None
  | String d rest => if Ascii.eqb c d then Some i else indexOf c rest (i + 1)%N
  end.

Fixpoint digits (s : string) : option (list N) :=
  match s with
  | EmptyString => Some []
  | String c rest =>
      match indexOf c alphabet 0, digits rest with
      | Some d, Some ds => Some (d :: ds)
      | _, _ => None
      end
  end.

Fixpoint leadingZeros (ds : list N) : list byte :=
  match ds with
  | 0%N :: rest => x00 :: leadingZeros rest
  | _ => []
  end.

Definition number (ds : list N) : N :=
  fold_left (fun acc d => (acc * 58 + d)%N) ds 0%N.

Fixpoint bigEndian (n : nat) (v : N) (acc : list byte) : list byte :=
  match n with
  | O => acc
  | S n' =>
      if (v =? 0)%N then acc
      else bigEndian n' (v / 256)%N
             (default x00 (Byte.of_N (v mod 256)%N) :: acc)
  end.

Definition decode (s : string) : option Buffer :=
  match digits s with
  | Some ds =>
      Some (leadingZeros ds ++ bigEndian (List.length ds) (number ds) [])
  | None => None
  end.

End Base58.

(** ** Concrete collaborators, for evaluating the methods *)
Module Fixtures.

(** A signature in its base58 text form; it decodes to 64 bytes. *)
Definition signature : TransactionSignature :=
  "5VERv8NMvzbJMEkV8xnrLkEaWRtSz9CosKDYjCJjBRnbJLgp8uirBgmQpjKhoR4tjF3ZpRzrFmBV6UjKdiSZkQUW".

(** An endpoint at [url] whose [onSignature] answers [subscription]. *)
Definition endpointAt (url : string) (subscription : Answer Z)
    : Connection.t :=
  {| Connection.rpcEndpoint := url;
     Connection.getLatestBlockhash := fun _ =>
       Returns "EkSnNWid2cvwEVnVx9aBqawnmiCNiDgp3gUdkDPTKN1N";
     Connection.sendRawTransaction := fun _ _ => Returns signature;
     Connection.onSignature := fun _ _ => subscription |}.

(** An endpoint that is down: every request fails. *)
Definition unreachableAt (url : string) : Connection.t :=
  {| Connection.rpcEndpoint := url;
     Connection.getLatestBlockhash := fun _ => Throws "fetch failed";
     Connection.sendRawTransaction := fun _ _ => Throws "fetch failed";
     Connection.onSignature := fun _ _ => Throws "socket closed" |}.

Definition walletKey : PublicKey := "7xKXtg2CW87d97TXJSDpbD5jBkheTqA83TZRuJosgAsU".

Definition keypair : Signer :=
  {| signerPublicKey := "4Nd1mBQtrMJVYVfKf2PJy9NZUZdTAsp7D4xWLs4gDB4T";
     secretKey := [x01; x02; x03] |}.

Definition wallet : Wallet.t :=
  {| Wallet.publicKey := walletKey;
     Wallet.signTransaction := fun tx =>
       Returns {| feePayer := feePayer tx;
             recentBlockhash := recentBlockhash tx;
             instructions := instructions tx;
             signatures := signatures tx ++ [walletKey] |};
     Wallet.signVersionedTransaction := fun tx =>
       Returns {| message := message tx;
             versionedSignatures := versionedSignatures tx ++ [walletKey] |};
     Wallet.payer := None |}.

Definition partialSign (kp : Signer) (tx : Transaction) : Answer Transaction :=
  Returns {| feePayer := feePayer tx;
        recentBlockhash := recentBlockhash tx;
        instructions := instructions tx;
        signatures := signatures tx ++ [signerPublicKey kp] |}.

Definition serialize (tx : Transaction) : Answer Buffer :=
  match signatures tx with
  | [] => Throws "Signature verification failed"
  | _ => Returns [x01; x00; x2a]
  end.

Definition primary : Connection.t := endpointAt "https://rpc.one" (Returns 1).
Definition second : Connection.t := endpointAt "https://rpc.two" (Returns 2).
Definition third : Connection.t := endpointAt "https://rpc.three" (Returns 3).

Definition sender (additional : list Connection.t) : BaseTxSender :=
  new_BaseTxSender primary wallet None None (Some additional).

Definition transaction : Transaction :=
  {| feePayer := None;
     recentBlockhash := None;
     instructions := ["transfer"];
     signatures := [] |}.

Definition success (atSlot : Z) (i : nat) : Notification :=
  {| endpoint := i;
     result := {| err := None |};
     notifiedContext := {| slot := atSlot |} |}.

Definition schedule (js : list (list Step)) : Schedule :=
  {| jobs := js; startTime := 1000; endTime := 36000 |}.

Definition sign (kps : list (option Signer)) (tx : VersionedTransaction)
    : Answer VersionedTransaction :=
  Returns {| message := message tx;
             versionedSignatures :=
               versionedSignatures tx ++ omap (fmap signerPublicKey) kps |}.

Definition serializeVersioned (tx : VersionedTransaction) : Answer Buffer :=
  Returns [x80; x01; x00].

Definition compileToV0Message (payer : PublicKey) (h : Blockhash)
    (ixs : list TransactionInstruction)
    (tables : list AddressLookupTableAccount) : Answer MessageV0 :=
  Returns {| payerKey := payer;
             messageBlockhash := h;
             messageInstructions := ixs;
             lookupTables := tables |}.

(** A sender with one additional endpoint, and one with two. *)
Definition twoEndpoints : BaseTxSender := sender [second].
Definition threeEndpoints : BaseTxSender := sender [second; third].

(** A sender whose first additional endpoint is down. *)
Definition oneDown : BaseTxSender :=
  sender [unreachableAt "https://rpc.down"; second].

(** A sender whose primary endpoint is down. *)
Definition primaryDown : BaseTxSender :=
  new_BaseTxSender (unreachableAt "https://rpc.down") wallet None None None.

(** A sender whose only endpoint hands out the id 0. *)
Definition firstId : BaseTxSender :=
  new_BaseTxSender (endpointAt "https://rpc.fresh" (Returns 0)) wallet
    None None None.

(** The second endpoint notifies, alone in its turn, and the first one
    in the turn after. *)
Definition secondFires : Schedule :=
  schedule [[]; [Invoke (success 42 1)]; [Invoke (success 43 0)]].

(** Both endpoints notify in one turn, the second one first, with no
    microtask in between. *)
Definition bothFire : Schedule :=
  schedule [[Invoke (success 42 1); Invoke (success 43 0)]].

(** Both endpoints notify in one turn, the second one first, and the
    first one two microtasks later. *)
Definition twoReactionsApart : Schedule :=
  schedule [[Invoke (success 42 1); Microtask; Microtask;
             Invoke (success 43 0)]].

(** Both endpoints notify in one turn, the second one first, and the
    first one three microtasks later. *)
Definition threeReactionsApart : Schedule :=
  schedule [[Invoke (success 42 1); Microtask; Microtask; Microtask;
             Invoke (success 43 0)]].

(** The last endpoint notifies; nothing else happens. *)
Definition lastFires : Schedule := schedule [[Invoke (success 42 2)]].

(** No endpoint notifies before the timer. *)
Definition silence : Schedule := schedule [[]; [Microtask]].

(** The signature of 64 zero bytes, in base58. *)
Definition zeroSignature : TransactionSignature :=
  "1111111111111111111111111111111111111111111111111111111111111111".

(** Three calls of [confirmTransaction] that no endpoint answers, with
    different signatures and commitments. *)
Definition unansweredCalls
    : list (Schedule * TransactionSignature * option Commitment) :=
  [(silence, signature, None);
   (schedule [], zeroSignature, Some finalized);
   (silence, signature, Some confirmed)].

(** Calls on one sender, one after the other. *)
Definition session : list Call :=
  [CallConfirmTransaction silence signature None;
   CallAddAdditionalConnection third;
   CallSend transaction None None None;
   CallConfirmTransaction secondFires signature (Some finalized);
   CallConfirmTransaction silence signature None;
   CallGetTimeoutCount].

End Fixtures.

(** ** Further notions of the statements *)

(** The transaction as [prepareTx] hands it to the signers: the fee payer
    is the wallet and the blockhash is the fetched one. *)
Definition stamped (s : BaseTxSender) (h : Blockhash) (tx : Transaction)
    : Transaction :=
  {| feePayer := Some (Wallet.publicKey (wallet s));
     recentBlockhash := Some h;
     instructions := instructions tx;
     signatures := signatures tx |}.

(** [tx.partialSign] by each signer in turn, up to the first that throws. *)
Fixpoint partialSignAll
    (partialSign : Signer -> Transaction -> Answer Transaction)
    (kps : list Signer) (tx : Transaction) : Answer Transaction :=
  match kps with
  | [] => Returns tx
  | kp :: rest =>
      match partialSign kp tx with
      | Returns tx' => partialSignAll partialSign rest tx'
      | Throws what => Throws what
      end
  end.

(** [tx.sign([kp])] by each signer in turn, up to the first that throws. *)
Fixpoint signAll
    (sign : list (option Signer) -> VersionedTransaction ->
            Answer VersionedTransaction)
    (kps : list Signer) (tx : VersionedTransaction)
    : Answer VersionedTransaction :=
  match kps with
  | [] => Returns tx
  | kp :: rest =>
      match sign [Some kp] tx with
      | Returns tx' => signAll sign rest tx'
      | Throws what => Throws what
      end
  end.

(** The first three events of [prepareTx] when the fetch answers [h]. *)
Definition stamping (s : BaseTxSender) (o : ConfirmOptions) (h : Blockhash)
    : list Event :=
  [WriteFeePayer (Wallet.publicKey (wallet s));
   GetLatestBlockhash (Connection.rpcEndpoint (connection s))
     (preflightCommitment o);
   WriteRecentBlockhash h].

(** The phases of a [confirmTransaction] trace. *)
Definition isOnSignature (e : Event) : bool :=
  match e with OnSignature _ _ _ _ => true | _ => false end.

Definition isTimer (e : Event) : bool :=
  match e with
  | SetTimeout _ | TimerFired | ClearTimeout => true
  | _ => false
  end.

Definition isRemoval (e : Event) : bool :=
  match e with RemoveSignatureListener _ _ _ => true | _ => false end.

(** The addresses of the endpoints on which a trace opens a subscription,
    and of those to which it dispatches raw bytes. *)
Definition subscribedAt (t : list Event) : list string :=
  omap (fun e => match e with
                 | OnSignature _ url _ _ => Some url
                 | _ => None
                 end) t.

Definition dispatchedTo (t : list Event) : list string :=
  omap (fun e => match e with
                 | SendRawTransaction url _ _ => Some url
                 | _ => None
                 end) t.

(** The addresses of the additional connections, in registration order. *)
Definition additionalEndpoints (s : BaseTxSender) : list string :=
  Connection.rpcEndpoint <$> additionalConnections s.

(** The send of the bytes on the connection is rejected. *)
Definition sendIsRejected (rawTx : Buffer) (o : ConfirmOptions)
    (conn : Connection.t) : bool :=
  match Connection.sendRawTransaction conn rawTx o with
  | Returns _ => false
  | Throws _ => true
  end.

(** What the [catch] handlers print for the connections whose send is
    rejected. *)
Definition sendErrors (rawTx : Buffer) (o : ConfirmOptions)
    (conns : list Connection.t) : list Event :=
  conns ≫= fun conn =>
    match Connection.sendRawTransaction conn rawTx o with
    | Returns _ => []
    | Throws what =>
        [ConsoleError ("error sending tx to additional connection "
                         ++ Connection.rpcEndpoint conn)%string;
         ConsoleError what]
    end.

(** The connections whose send has settled, in the order of settlement:
    [settled] holds their positions in [conns]. *)
Definition settledConnections (conns : list Connection.t)
    (settled : list nat) : list Connection.t :=
  omap (fun i => conns !! i) settled.

(** Two senders that differ in nothing but the additional connections and
    the timeout counter. *)
Definition sameConfiguration (s s' : BaseTxSender) : Prop :=
  connection s' = connection s
  /\ wallet s' = wallet s
  /\ opts s' = opts s
  /\ timeout s' = timeout s.

(** Further concrete collaborators. *)
Module Scenarios.

(** A signer whose key the transaction does not know: [partialSign]
    throws for it. *)
Definition stranger : Signer :=
  {| signerPublicKey := "9xQeWvG816bUx9EPjHmaT23yvVM2ZWbrrpZb9PusVFin";
     secretKey := [x07] |}.

Definition partialSign (kp : Signer) (tx : Transaction) : Answer Transaction :=
  if String.eqb (signerPublicKey kp) (signerPublicKey stranger)
  then Throws "unknown signer"
  else Fixtures.partialSign kp tx.

Definition other : Signer :=
  {| signerPublicKey := "6sbzC1eH4FTujJXWj51eQe25cYvr4xfXbJ1vAj7j2k5J";
     secretKey := [x09] |}.

(** A wallet that holds its own keypair. *)
Definition localWallet : Wallet.t :=
  {| Wallet.publicKey := Fixtures.walletKey;
     Wallet.signTransaction := Wallet.signTransaction Fixtures.wallet;
     Wallet.signVersionedTransaction := fun _ => Throws "not reached";
     Wallet.payer := Some Fixtures.keypair |}.

Definition localSender : BaseTxSender :=
  new_BaseTxSender Fixtures.primary localWallet None None None.

Definition versioned : VersionedTransaction :=
  {| message := {| payerKey := Fixtures.walletKey;
                   messageBlockhash := "EkSnNWid2cvwEVnVx9aBqawnmiCNiDgp3gUdkDPTKN1N";
                   messageInstructions := ["transfer"];
                   lookupTables := [] |};
     versionedSignatures := [] |}.

(** A subclass whose [sendRawTransaction] sends on the primary connection
    and reports slot 7. *)
Definition sendOnPrimary (raw : Buffer) (o : ConfirmOptions)
    : M TxSigAndSlot :=
  let* this := getThis in
  emit (SendRawTransaction (Connection.rpcEndpoint (connection this)) raw o) ;;
  let* sig := liftR (Connection.sendRawTransaction (connection this) raw o) in
  ret {| txSig := sig; txSlot := 7 |}.

(** A sender with one reachable and one unreachable additional endpoint. *)
Definition mixed : BaseTxSender :=
  Fixtures.sender [Fixtures.second; Fixtures.unreachableAt "https://rpc.down"].

(** [tx.sign] refuses a key that is not a signer of the transaction. *)
Definition sign (kps : list (option Signer)) (tx : VersionedTransaction)
    : Answer VersionedTransaction :=
  if existsb (fun kp => match kp with
                        | Some k => String.eqb (signerPublicKey k)
                                      (signerPublicKey stranger)
                        | None => false
                        end) kps
  then Throws "Cannot sign with non signer key"
  else Fixtures.sign kps tx.

(** A frame with one pending and one rejected promise. *)
Definition halfRejected : Frame :=
  {| subscriptionIds := [Some 1; None];
     response := None;
     promises := [Pending; Rejected (Thrown "socket closed")] |}.

(** A frame with a fulfilled promise before a rejected one. *)
Definition fulfilledFirst : Frame :=
  {| subscriptionIds := [None; None];
     response := None;
     promises := [Fulfilled; Rejected (Thrown "socket closed")] |}.

(** Calls of [confirmTransaction] with every outcome: a timeout, a
    malformed signature, a result, a second timeout and, once an endpoint
    that is down has been added, a registration error. *)
Definition outcomes : list Call :=
  [CallConfirmTransaction Fixtures.silence Fixtures.signature None;
   CallConfirmTransaction Fixtures.silence "3yZe7d" None;
   CallConfirmTransaction Fixtures.secondFires Fixtures.signature
     (Some finalized);
   CallConfirmTransaction Fixtures.silence Fixtures.signature (Some confirmed);
   CallAddAdditionalConnection (Fixtures.unreachableAt "https://rpc.down");
   CallConfirmTransaction Fixtures.silence Fixtures.signature None;
   CallGetTimeoutCount].

Definition noPromises : Frame :=
  {| subscriptionIds := []; response := None; promises := [] |}.

(** A notification of a transaction that failed on chain. *)
Definition failure (atSlot : Z) (i : nat) : Notification :=
  {| endpoint := i;
     result := {| err := Some "InstructionError" |};
     notifiedContext := {| slot := atSlot |} |}.

Definition failsOnChain : Schedule :=
  Fixtures.schedule [[Invoke (failure 50 0)]].

(** No endpoint notifies, and the clock shows 100 ms more when the call
    resumes. *)
Definition shortSilence : Schedule :=
  {| jobs := [[]]; startTime := 1000; endTime := 1100 |}.

End Scenarios.

(** * Properties *)

(** ** Running the monad *)

Lemma bind_ok {A B} (m : M A) (k : A -> M B) (s s1 : BaseTxSender)
    (a : A) (t1 : list Event) :
  m s = (Ok a, s1, t1) ->
  bind m k s = (resultOf (k a s1), thisOf (k a s1), t1 ++ traceOf (k a s1)).
Proof.
  intros H. unfold bind. rewrite H. now destruct (k a s1) as [[r s2] t2].
Qed.

Lemma bind_err {A B} (m : M A) (k : A -> M B) (s s1 : BaseTxSender)
    (e : Error) (t1 : list Event) :
  m s = (Err e, s1, t1) -> bind m k s = (Err e, s1, t1).
Proof. intros H. unfold bind. now rewrite H. Qed.

(** ** The endpoint registry *)

Lemma registeredAt_sameEndpoint (c : Connection.t) (s : BaseTxSender) :
  registeredAt (Connection.rpcEndpoint c) s
  = length (filter (fun c0 => sameEndpoint c c0 = true) (additionalConnections s)).
Proof. reflexivity. Qed.

Lemma addAdditionalConnection_known (c : Connection.t) (s : BaseTxSender) :
  (0 < registeredAt (Connection.rpcEndpoint c) s)%nat ->
  addAdditionalConnection c s = (Ok tt, s, []).
Proof.
  intros H. rewrite registeredAt_sameEndpoint in H.
  unfold addAdditionalConnection, bind, getThis, ret.
  apply Nat.ltb_lt in H. now rewrite H.
Qed.

Lemma addAdditionalConnection_fresh (c : Connection.t) (s : BaseTxSender) :
  registeredAt (Connection.rpcEndpoint c) s = 0%nat ->
  additionalConnections (thisOf (addAdditionalConnection c s))
  = additionalConnections s ++ [c].
Proof.
  intros H. rewrite registeredAt_sameEndpoint in H.
  unfold addAdditionalConnection, bind, getThis, setThis.
  now rewrite H.
Qed.

Lemma registeredAt_after_add (c : Connection.t) (s : BaseTxSender) :
  registeredAt (Connection.rpcEndpoint c) (thisOf (addAdditionalConnection c s))
  = Nat.max 1 (registeredAt (Connection.rpcEndpoint c) s).
Proof.
  destruct (registeredAt (Connection.rpcEndpoint c) s) as [|k] eqn:E.
  - unfold registeredAt in *. rewrite addAdditionalConnection_fresh by exact E.
    rewrite filter_app, length_app, E. simpl.
    rewrite filter_cons_True by apply String.eqb_refl. reflexivity.
  - rewrite addAdditionalConnection_known by lia. unfold thisOf; simpl. lia.
Qed.

(** C8: a second [addAdditionalConnection] with the address of a
    registered additional connection changes nothing and is silent, so
    that two calls with one address register it once. *)
Theorem addAdditionalConnection_idempotent
    (s : BaseTxSender) (c1 c2 : Connection.t) :
  Connection.rpcEndpoint c2 = Connection.rpcEndpoint c1 ->
  let s1 := thisOf (addAdditionalConnection c1 s) in
  addAdditionalConnection c2 s1 = (Ok tt, s1, [])
  /\ ((0 < registeredAt (Connection.rpcEndpoint c1) s)%nat ->
      addAdditionalConnection c2 s = (Ok tt, s, []))
  /\ (registeredAt (Connection.rpcEndpoint c1) s = 0%nat ->
      registeredAt (Connection.rpcEndpoint c1)
        (thisOf (addAdditionalConnection c2 s1)) = 1%nat).
Proof.
  intros E s1.
  assert (H1 : (0 < registeredAt (Connection.rpcEndpoint c2) s1)%nat).
  { rewrite E. unfold s1. rewrite registeredAt_after_add. lia. }
  split; [now apply addAdditionalConnection_known |].
  split.
  - intros H. apply addAdditionalConnection_known. now rewrite E.
  - intros H. rewrite addAdditionalConnection_known by exact H1.
    unfold s1, thisOf at 1; simpl. rewrite registeredAt_after_add, H.
    reflexivity.
Qed.

Lemma addAdditionalConnection_idempotent_witness :
  addAdditionalConnection (Fixtures.endpointAt "https://rpc.three" (Returns 9))
    (thisOf (addAdditionalConnection Fixtures.third Fixtures.twoEndpoints))
  = (Ok tt,
     thisOf (addAdditionalConnection Fixtures.third Fixtures.twoEndpoints), [])
  /\ ((0 < registeredAt "https://rpc.three" Fixtures.twoEndpoints)%nat ->
      addAdditionalConnection
        (Fixtures.endpointAt "https://rpc.three" (Returns 9))
        Fixtures.twoEndpoints
      = (Ok tt, Fixtures.twoEndpoints, []))
  /\ (registeredAt "https://rpc.three" Fixtures.twoEndpoints = 0%nat ->
      registeredAt "https://rpc.three"
        (thisOf (addAdditionalConnection
                   (Fixtures.endpointAt "https://rpc.three" (Returns 9))
                   (thisOf (addAdditionalConnection Fixtures.third
                              Fixtures.twoEndpoints))))
      = 1%nat).
Proof.
  exact (addAdditionalConnection_idempotent Fixtures.twoEndpoints
           Fixtures.third
           (Fixtures.endpointAt "https://rpc.three" (Returns 9)) eq_refl).
Defined.

(** ** Fan-out to the additional endpoints *)

Lemma dispatchReactions_returns (raw : Buffer) (o : ConfirmOptions)
    (conns : list Connection.t) (settled : list nat) (s : BaseTxSender) :
  resultOf (dispatchReactions raw o conns settled s) = Ok tt
  /\ thisOf (dispatchReactions raw o conns settled s) = s.
Proof.
  induction settled as [|i rest IH]; [now split |].
  cbn [dispatchReactions].
  assert (Hc : exists t,
    match conns !! i with
    | Some c => catch (Connection.sendRawTransaction c raw o) (logSendError c)
    | None => ret tt
    end s = (Ok tt, s, t)).
  { destruct (conns !! i) as [c|]; [| eexists; reflexivity].
    unfold catch.
    destruct (Connection.sendRawTransaction c raw o); eexists; reflexivity. }
  destruct Hc as [t Hc]. rewrite (bind_ok _ _ _ _ _ _ Hc). exact IH.
Qed.

(** C7: [sendToAdditionalConnections] returns normally whatever the
    additional endpoints answer; a rejected send ends in its [catch]
    handler, in whatever order the sends settle and whatever the sender
    is by then; and a primary send sequenced before or after the
    dispatch has the outcome it has alone. *)
Theorem sendToAdditionalConnections_absorbs_failures
    (raw : Buffer) (o : ConfirmOptions) (s : BaseTxSender) :
  sendToAdditionalConnections raw o s
  = (Ok tt, s,
     map (fun c => SendRawTransaction (Connection.rpcEndpoint c) raw o)
         (additionalConnections s))
  /\ (forall (settled : list nat) (s' : BaseTxSender),
        resultOf (dispatchReactions raw o (additionalConnections s) settled s')
        = Ok tt
        /\ thisOf (dispatchReactions raw o (additionalConnections s) settled s')
           = s')
  /\ (forall (A : Type) (primary : M A),
        resultOf ((sendToAdditionalConnections raw o ;; primary) s)
        = resultOf (primary s)
        /\ thisOf ((sendToAdditionalConnections raw o ;; primary) s)
           = thisOf (primary s))
  /\ (forall (A : Type) (primary : M A),
        resultOf ((let* r := primary in
                   sendToAdditionalConnections raw o ;; ret r) s)
        = resultOf (primary s)
        /\ thisOf ((let* r := primary in
                    sendToAdditionalConnections raw o ;; ret r) s)
           = thisOf (primary s)).
Proof.
  split; [reflexivity |].
  split; [intros settled s'; apply dispatchReactions_returns |].
  split.
  - intros A primary. unfold bind, sendToAdditionalConnections, getThis, emitAll.
    cbn. destruct (primary s) as [[r s'] t]. now split.
  - intros A primary. unfold bind, sendToAdditionalConnections, getThis, emitAll, ret.
    destruct (primary s) as [[[a|e] s'] t]; now split.
Qed.

(** With both additional endpoints down, the call still returns and the
    handlers print the two failures, here with the second send settling
    first. *)
Example sendToAdditionalConnections_unreachable
    (s := Fixtures.sender [Fixtures.unreachableAt "https://rpc.a";
                           Fixtures.unreachableAt "https://rpc.b"]) :
  resultOf (sendToAdditionalConnections [x01] (opts s) s) = Ok tt
  /\ dispatchReactions [x01] (opts s) (additionalConnections s) [1; 0]%nat s
     = (Ok tt, s,
        [ConsoleError "error sending tx to additional connection https://rpc.b";
         ConsoleError "fetch failed";
         ConsoleError "error sending tx to additional connection https://rpc.a";
         ConsoleError "fetch failed"]).
Proof. split; reflexivity. Qed.

(** ** Preparing and sending *)

Section Sending.

Variable partialSign : Signer -> Transaction -> Answer Transaction.
Variable serialize : Transaction -> Answer Buffer.
Variable sign :
  list (option Signer) -> VersionedTransaction -> Answer VersionedTransaction.
Variable serializeVersioned : VersionedTransaction -> Answer Buffer.
Variable sendRawTransaction : Buffer -> ConfirmOptions -> M TxSigAndSlot.

(** C6: when the fetch of the latest blockhash fails, [prepareTx] fails
    with the reason of that failure, after the write of the fee payer and
    the fetch only: no [partialSign] and no [signTransaction] of the
    wallet; [send] of a transaction that is not pre-signed fails the same
    way and hands nothing to [sendRawTransaction]. *)
Theorem prepareTx_blockhash_failure (tx : Transaction)
    (signers : list (option Signer)) (o : ConfirmOptions)
    (s : BaseTxSender) (what : string) :
  Connection.getLatestBlockhash (connection s) (preflightCommitment o)
  = Throws what ->
  prepareTx partialSign tx signers o s
  = (Err (Thrown what), s,
     [WriteFeePayer (Wallet.publicKey (wallet s));
      GetLatestBlockhash (Connection.rpcEndpoint (connection s))
        (preflightCommitment o)])
  /\ Forall (fun e => signing e = false)
       (traceOf (prepareTx partialSign tx signers o s))
  /\ send partialSign serialize sendRawTransaction tx (Some signers) (Some o)
       None s
     = (Err (Thrown what), s,
        traceOf (prepareTx partialSign tx signers o s)).
Proof.
  intros H.
  assert (E : prepareTx partialSign tx signers o s
              = (Err (Thrown what), s,
                 [WriteFeePayer (Wallet.publicKey (wallet s));
                  GetLatestBlockhash (Connection.rpcEndpoint (connection s))
                    (preflightCommitment o)])).
  { unfold prepareTx, bind, getThis, emit, liftR. rewrite H. reflexivity. }
  split; [exact E |].
  split.
  - rewrite E. unfold traceOf; simpl. repeat constructor.
  - unfold send. rewrite (bind_ok getThis _ s s s []) by reflexivity.
    cbn [default isSet id].
    rewrite (bind_err _ _ _ _ _ _ E). rewrite E. reflexivity.
Qed.

(** C10: [send] and [sendVersionedTransaction] with [preSigned] true run
    [serialize] on the transaction they were given and hand the bytes to
    [sendRawTransaction]: nothing is fetched, written or signed on the
    way. *)
Theorem send_preSigned (tx : Transaction) (vtx : VersionedTransaction)
    (signers : option (list (option Signer))) (o : option ConfirmOptions)
    (s : BaseTxSender) :
  send partialSign serialize sendRawTransaction tx signers o (Some true) s
  = match serialize tx with
    | Returns raw => sendRawTransaction raw (default (opts s) o) s
    | Throws what => (Err (Thrown what), s, [])
    end
  /\ sendVersionedTransaction sign serializeVersioned sendRawTransaction
       vtx signers o (Some true) s
     = match serializeVersioned vtx with
       | Returns raw => sendRawTransaction raw (default (opts s) o) s
       | Throws what => (Err (Thrown what), s, [])
       end.
Proof.
  split.
  - unfold send, isSet, bind, getThis, liftR; simpl.
    destruct (serialize tx) as [raw|what]; [| reflexivity].
    unfold ret. destruct (sendRawTransaction raw _ s) as [[r s'] t]. reflexivity.
  - unfold sendVersionedTransaction, isSet, bind, getThis, liftR; simpl.
    destruct (serializeVersioned vtx) as [raw|what]; [| reflexivity].
    unfold ret. destruct (sendRawTransaction raw _ s) as [[r s'] t]. reflexivity.
Qed.

End Sending.

Lemma prepareTx_blockhash_failure_witness :
  prepareTx Fixtures.partialSign Fixtures.transaction [Some Fixtures.keypair]
    AnchorProvider_defaultOptions Fixtures.primaryDown
  = (Err (Thrown "fetch failed"), Fixtures.primaryDown,
     [WriteFeePayer Fixtures.walletKey;
      GetLatestBlockhash "https://rpc.down" (Some processed)])
  /\ Forall (fun e => signing e = false)
       (traceOf (prepareTx Fixtures.partialSign Fixtures.transaction
                   [Some Fixtures.keypair] AnchorProvider_defaultOptions
                   Fixtures.primaryDown))
  /\ send Fixtures.partialSign Fixtures.serialize BaseTxSender_sendRawTransaction
       Fixtures.transaction (Some [Some Fixtures.keypair])
       (Some AnchorProvider_defaultOptions) None Fixtures.primaryDown
     = (Err (Thrown "fetch failed"), Fixtures.primaryDown,
        traceOf (prepareTx Fixtures.partialSign Fixtures.transaction
                   [Some Fixtures.keypair] AnchorProvider_defaultOptions
                   Fixtures.primaryDown)).
Proof.
  exact (prepareTx_blockhash_failure Fixtures.partialSign Fixtures.serialize
           BaseTxSender_sendRawTransaction Fixtures.transaction
           [Some Fixtures.keypair] AnchorProvider_defaultOptions
           Fixtures.primaryDown "fetch failed" eq_refl).
Defined.

(** ** Malformed signatures *)

Lemma confirmTransaction_malformed
    (bs58_decode : string -> option Buffer) (sched : Schedule)
    (signature : TransactionSignature) (c : option Commitment)
    (s : BaseTxSender) :
  decodesTo64 bs58_decode signature = false ->
  confirmTransaction bs58_decode sched signature c s
  = (Err match bs58_decode signature with
         | None => SignatureNotBase58 signature
         | Some _ => AssertionError "signature has invalid length"
         end, s, []).
Proof.
  intros H. unfold decodesTo64 in H.
  unfold confirmTransaction, bind at 1.
  destruct (bs58_decode signature) as [b|]; [| reflexivity].
  unfold ret at 1, bind at 1. rewrite H. reflexivity.
Qed.

(** C4: a signature that does not decode from base58 to exactly 64 bytes
    makes [confirmTransaction] fail at once with the error of the
    malformed signature; the trace is empty, so no [onSignature] was
    called, and the sender is as before. *)
Theorem confirmTransaction_invalid_signature
    (bs58_decode : string -> option Buffer) (sched : Schedule)
    (signature : TransactionSignature) (c : option Commitment)
    (s : BaseTxSender) :
  decodesTo64 bs58_decode signature = false ->
  let e := match bs58_decode signature with
           | None => SignatureNotBase58 signature
           | Some _ => AssertionError "signature has invalid length"
           end in
  confirmTransaction bs58_decode sched signature c s = (Err e, s, [])
  /\ invalidSignature e = true
  /\ subscribed (traceOf (confirmTransaction bs58_decode sched signature c s)) = [].
Proof.
  intros H e.
  pose proof (confirmTransaction_malformed bs58_decode sched signature c s H) as E.
  fold e in E. split; [exact E |]. split.
  - unfold e. now destruct (bs58_decode signature).
  - now rewrite E.
Qed.

Lemma confirmTransaction_invalid_signature_witness :
  confirmTransaction Base58.decode Fixtures.secondFires "3yZe7d" None
    Fixtures.twoEndpoints
  = (Err (AssertionError "signature has invalid length"),
     Fixtures.twoEndpoints, [])
  /\ invalidSignature (AssertionError "signature has invalid length") = true
  /\ subscribed (traceOf (confirmTransaction Base58.decode Fixtures.secondFires
                            "3yZe7d" None Fixtures.twoEndpoints)) = [].
Proof.
  exact (confirmTransaction_invalid_signature Base58.decode
           Fixtures.secondFires "3yZe7d" None Fixtures.twoEndpoints eq_refl).
Defined.

(** A text with a character outside the alphabet is refused by the
    decoder itself. *)
Example confirmTransaction_not_base58 :
  confirmTransaction Base58.decode Fixtures.secondFires "0OIl" None
    Fixtures.twoEndpoints
  = (Err (SignatureNotBase58 "0OIl"), Fixtures.twoEndpoints, []).
Proof. reflexivity. Qed.

(** ** The confirmation race *)

Section Race.

Variable signature : TransactionSignature.
Variable cmt : option Commitment.

(** *** Registration *)

Lemma registered_ids (conns : list Connection.t) :
  (map (confirmPromise signature cmt) conns).*1 = handleOn signature cmt <$> conns.
Proof.
  induction conns as [|c rest IH]; [reflexivity |].
  cbn. rewrite <- IH. f_equal.
  unfold confirmPromise, handleOn.
  now destruct (Connection.onSignature c signature cmt).
Qed.

Lemma registered_race (conns : list Connection.t) :
  race ((map (confirmPromise signature cmt) conns).*2)
  = match firstFailure signature cmt conns with
    | Some what => Rejected (Thrown what)
    | None => Pending
    end.
Proof.
  induction conns as [|c rest IH]; [reflexivity |].
  cbn. unfold confirmPromise.
  destruct (Connection.onSignature c signature cmt); [exact IH | reflexivity].
Qed.

Lemma registered_promises (conns : list Connection.t) :
  firstFailure signature cmt conns = None ->
  (map (confirmPromise signature cmt) conns).*2 = replicate (length conns) Pending.
Proof.
  induction conns as [|c rest IH]; [reflexivity |].
  cbn. intros H.
  assert (E : confirmPromise signature cmt c
              = (handleOn signature cmt c, Pending)).
  { unfold confirmPromise, handleOn.
    now destruct (Connection.onSignature c signature cmt). }
  rewrite E. cbn. f_equal. apply IH.
  now destruct (Connection.onSignature c signature cmt).
Qed.

Lemma subscribed_registering (conns : list Connection.t) :
  subscribed (registering signature cmt conns) = seq 0 (length conns).
Proof.
  unfold registering.
  enough (G : forall i0,
    subscribed (imap (fun i conn =>
                  OnSignature (i0 + i) (Connection.rpcEndpoint conn) signature cmt)
                  conns)
    = seq i0 (length conns)) by exact (G 0%nat).
  induction conns as [|c rest IH]; intros i0; [reflexivity |].
  cbn. rewrite Nat.add_0_r. f_equal.
  rewrite <- IH. f_equal. apply imap_ext. intros i x _. cbn.
  f_equal. lia.
Qed.

End Race.

(** *** Callbacks *)

Lemma clearedFrom_lookup (fired : list nat) (ids : list (option Z)) (i j : nat) :
  clearedFrom i fired ids !! j
  = (fun o => if bool_decide (i + j ∈ fired)%nat then None else o) <$> ids !! j.
Proof.
  revert i j. induction ids as [|o rest IH]; intros i j; [reflexivity |].
  destruct j as [|j]; cbn.
  - now rewrite Nat.add_0_r.
  - rewrite IH. now replace (S i + j)%nat with (i + S j)%nat by lia.
Qed.

Lemma clearedFrom_length (fired : list nat) (ids : list (option Z)) (i : nat) :
  length (clearedFrom i fired ids) = length ids.
Proof. revert i. induction ids; intros; cbn; [reflexivity | now f_equal]. Qed.

Lemma cleared_nil (ids : list (option Z)) : cleared [] ids = ids.
Proof.
  unfold cleared. generalize 0%nat.
  induction ids as [|o rest IH]; intros i; cbn; [reflexivity |].
  now rewrite IH.
Qed.

Lemma cleared_snoc (fired : list nat) (i : nat) (ids : list (option Z)) :
  <[i:=None]> (cleared fired ids) = cleared (fired ++ [i]) ids.
Proof.
  apply list_eq. intros j. unfold cleared.
  rewrite list_lookup_insert, !clearedFrom_lookup, clearedFrom_length.
  cbn [Nat.add].
  destruct (ids !! j) as [o|] eqn:E; cbn.
  - apply lookup_lt_Some in E.
    destruct (decide (i = j)) as [->|Hne].
    + rewrite decide_True by (split; [reflexivity | exact E]).
      rewrite (bool_decide_eq_true_2 (j ∈ fired ++ [j])); [reflexivity |].
      apply elem_of_app. right. now apply list_elem_of_singleton.
    + rewrite decide_False by (intros [? _]; contradiction).
      rewrite (bool_decide_ext (j ∈ fired ++ [i]) (j ∈ fired)); [reflexivity |].
      rewrite elem_of_app, list_elem_of_singleton.
      split; [intros [?|?]; [assumption | congruence] | tauto].
  - rewrite decide_False; [reflexivity |].
    intros [-> H]. apply lookup_ge_None in E. lia.
Qed.

Lemma race_settled (ps : list Promise) :
  Forall (fun p => p = Pending \/ p = Fulfilled) ps ->
  Fulfilled ∈ ps -> race ps = Fulfilled.
Proof.
  induction 1 as [|p ps [-> | ->] _ IH]; intros Hin.
  - now apply elem_of_nil in Hin.
  - cbn. apply IH. apply elem_of_cons in Hin as [Hin | Hin]; [discriminate | exact Hin].
  - reflexivity.
Qed.

Lemma resolve_racing (i : nat) (ps : list Promise) :
  Forall (fun p => p = Pending \/ p = Fulfilled) ps ->
  (i < length ps)%nat ->
  length (resolve i ps) = length ps
  /\ Forall (fun p => p = Pending \/ p = Fulfilled) (resolve i ps)
  /\ Fulfilled ∈ resolve i ps.
Proof.
  intros Hall Hi. unfold resolve.
  destruct (lookup_lt_is_Some_2 ps i Hi) as [p Hp]. rewrite Hp.
  assert (Hcase : p = Pending \/ p = Fulfilled).
  { rewrite Forall_forall in Hall. apply Hall. eapply list_elem_of_lookup_2, Hp. }
  destruct Hcase as [-> | ->].
  - split; [apply length_insert |]. split.
    + apply Forall_insert; [exact Hall | now right].
    + eapply list_elem_of_lookup_2. now apply list_lookup_insert_eq.
  - split; [reflexivity |]. split; [exact Hall |].
    eapply list_elem_of_lookup_2, Hp.
Qed.

Lemma callback_racing (n i : nat) (r : SignatureResult) (ctx : Context)
    (fr : Frame) :
  racing n fr -> (i < n)%nat ->
  racing n (callback i r ctx fr)
  /\ subscriptionIds (callback i r ctx fr) = <[i:=None]> (subscriptionIds fr)
  /\ Fulfilled ∈ promises (callback i r ctx fr).
Proof.
  intros (Hids & Hps & Hall) Hi.
  destruct (resolve_racing i (promises fr) Hall) as (Hlen & Hall' & Hin); [lia |].
  assert (E : subscriptionIds (callback i r ctx fr) = <[i:=None]> (subscriptionIds fr)).
  { cbn. unfold array_set.
    destruct (Nat.ltb_spec i (length (subscriptionIds fr))); [reflexivity | lia]. }
  split; [| split; [exact E | exact Hin]].
  split; [rewrite E, length_insert; exact Hids |].
  split; [cbn; lia | exact Hall'].
Qed.

Lemma notify_addressed (n : nat) (fr : Frame) (x : Notification) :
  racing n fr -> (endpoint x < n)%nat ->
  notify fr x = callback (endpoint x) (result x) (notifiedContext x) fr.
Proof.
  intros (_ & Hps & Hall) Hx. unfold notify.
  destruct (lookup_lt_is_Some_2 (promises fr) (endpoint x)) as [p Hp]; [lia |].
  rewrite Hp.
  assert (Hcase : p = Pending \/ p = Fulfilled).
  { rewrite Forall_forall in Hall. apply Hall. eapply list_elem_of_lookup_2, Hp. }
  now destruct Hcase as [-> | ->].
Qed.

Lemma notify_elsewhere (n : nat) (fr : Frame) (x : Notification) :
  racing n fr -> ~ (endpoint x < n)%nat -> notify fr x = fr.
Proof.
  intros (_ & Hps & _) Hx. unfold notify.
  rewrite (lookup_ge_None_2 (promises fr) (endpoint x)); [reflexivity | lia].
Qed.

(** The frame after the callbacks of the notifications [d], in turn. *)
Lemma deliver (n : nat) (d : list Notification) :
  Forall (fun x => (endpoint x < n)%nat) d ->
  forall (fr : Frame) (fired : list nat) (ids : list (option Z)),
  racing n fr ->
  subscriptionIds fr = cleared fired ids ->
  let fr' := foldl notify fr d in
  racing n fr'
  /\ subscriptionIds fr' = cleared (fired ++ (endpoint <$> d)) ids
  /\ response fr' = match last d with
                    | Some x => Some (payload x)
                    | None => response fr
                    end
  /\ (Fulfilled ∈ promises fr \/ d <> [] -> Fulfilled ∈ promises fr').
Proof.
  induction 1 as [|x d Hx _ IH]; intros fr fired ids Hr Hids; cbn.
  - rewrite app_nil_r. repeat split; try assumption; try apply Hr.
    intros [H | H]; [exact H | contradiction].
  - rewrite (notify_addressed n fr x Hr Hx).
    destruct (callback_racing n (endpoint x) (result x) (notifiedContext x) fr Hr Hx)
      as (Hr1 & Hids1 & Hin1).
    destruct (IH (callback (endpoint x) (result x) (notifiedContext x) fr)
                 (fired ++ [endpoint x]) ids Hr1) as (Hr' & Hids' & Hresp' & Hin').
    { rewrite Hids1, Hids. apply cleared_snoc. }
    split; [exact Hr' |].
    split; [rewrite Hids', <- app_assoc; reflexivity |].
    split; [| intros _; apply Hin'; now left].
    rewrite Hresp', last_cons. now destruct (last d).
Qed.

Lemma deliver_addressed (n : nat) (d : list Notification) (fr : Frame) :
  racing n fr ->
  foldl notify fr d = foldl notify fr (filter (fun x => (endpoint x < n)%nat) d).
Proof.
  revert fr.
  induction d as [|x d IH]; intros fr Hr; [reflexivity |].
  cbn [foldl]. destruct (decide (endpoint x < n)%nat) as [Hx | Hx].
  - rewrite filter_cons_True by exact Hx. cbn [foldl]. apply IH.
    rewrite (notify_addressed n fr x Hr Hx).
    now apply callback_racing.
  - rewrite filter_cons_False by exact Hx.
    rewrite (notify_elsewhere n fr x Hr Hx). now apply IH.
Qed.

(** The frame that the call finds when it resumes: the callbacks invoked
    before the last of its reactions have run. *)
Lemma resuming_invoked (reactions : nat) (steps : list Step) (fr : Frame) :
  resuming reactions steps fr
  = foldl notify fr (invokedBefore reactions steps).
Proof.
  revert reactions fr.
  induction steps as [|[x|] rest IH]; intros [|k] fr; try reflexivity.
  - cbn [resuming invokedBefore foldl]. apply IH.
  - cbn [resuming invokedBefore]. apply IH.
Qed.

Lemma settlingTurn_addressed (n : nat) (steps : list Step) :
  Forall (fun x => (endpoint x < n)%nat) (settlingTurn n steps).
Proof.
  induction steps as [|[x|] rest IH]; [constructor | | exact IH].
  cbn [settlingTurn]. destruct (decide (endpoint x < n)%nat) as [Hx|Hx];
    [| exact IH].
  constructor; [exact Hx |].
  apply Forall_forall. intros y Hy. now apply list_elem_of_filter in Hy.
Qed.

Lemma settlingJob_addressed (n : nat) (js : list (list Step)) :
  Forall (fun x => (endpoint x < n)%nat) (settlingJob n js).
Proof.
  induction js as [|turn js IH]; [constructor |].
  cbn. pose proof (settlingTurn_addressed n turn) as Ht.
  now destruct (settlingTurn n turn).
Qed.

(** A turn of the race among endpoints that all registered: the steps
    that reach no endpoint of the call change nothing; the first
    notification that reaches one settles its promise, and the call
    resumes three reactions later or when the turn ends. *)
Lemma runTurn_settling (n : nat) (steps : list Step) (fr : Frame) :
  racing n fr -> race (promises fr) = Pending ->
  runTurn steps fr
  = match settlingTurn n steps with
    | [] => (fr, false)
    | d => (foldl notify fr d, true)
    end.
Proof.
  intros Hr Hp. induction steps as [|[x|] rest IH]; [reflexivity | | exact IH].
  cbn [runTurn settlingTurn].
  destruct (decide (endpoint x < n)%nat) as [Hx | Hx].
  - rewrite (notify_addressed n fr x Hr Hx).
    destruct (callback_racing n (endpoint x) (result x) (notifiedContext x)
                fr Hr Hx) as (Hr' & _ & Hin).
    rewrite (race_settled _ (proj2 (proj2 Hr')) Hin).
    rewrite resuming_invoked, (deliver_addressed n _ _ Hr').
    cbn [foldl]. now rewrite (notify_addressed n fr x Hr Hx).
  - rewrite (notify_elsewhere n fr x Hr Hx), Hp. exact IH.
Qed.

(** The race among endpoints that all registered: the turns that reach no
    endpoint of the call change nothing, and the call resumes in the
    first turn that reaches one, or after the timer. *)
Lemma eventLoop_settling (n : nat) (js : list (list Step)) (fr : Frame) :
  racing n fr -> race (promises fr) = Pending ->
  eventLoop js fr
  = match settlingJob n js with
    | [] => (fr, true)
    | d => (foldl notify fr d, false)
    end.
Proof.
  intros Hr Hp. induction js as [|turn js IH]; [reflexivity |].
  cbn [eventLoop settlingJob]. rewrite (runTurn_settling n turn fr Hr Hp).
  now destruct (settlingTurn n turn).
Qed.

(** *** Teardown *)

Lemma removeListeners_teardown (conns : list Connection.t)
    (ids : list (option Z)) (i : nat) (s : BaseTxSender) :
  (i + length ids <= length conns)%nat ->
  removeListeners conns i ids s = (Ok tt, s, teardown conns i ids).
Proof.
  revert i. induction ids as [|o ids IH]; intros i Hlen; [reflexivity |].
  cbn [removeListeners teardown]. cbn [length] in Hlen.
  destruct (lookup_lt_is_Some_2 conns i) as [c Hc]; [lia |].
  rewrite Hc.
  assert (E : (if truthy o
               then emit (RemoveSignatureListener i (Connection.rpcEndpoint c)
                            (default 0 o))
               else ret tt) s
              = (Ok tt, s,
                 match o with
                 | Some id =>
                     if id =? 0 then []
                     else [RemoveSignatureListener i (Connection.rpcEndpoint c) id]
                 | None => []
                 end)).
  { destruct o as [id|]; cbn; [| reflexivity]. now destruct (id =? 0). }
  rewrite (bind_ok _ _ _ _ _ _ E), IH by lia.
  unfold resultOf, thisOf, traceOf; cbn. now destruct o.
Qed.

(** *** The whole call, for a well-formed signature *)

Section Confirm.

Variable bs58_decode : string -> option Buffer.

Lemma registeredFrame_racing (signature : TransactionSignature)
    (cmt : option Commitment) (conns : list Connection.t) :
  firstFailure signature cmt conns = None ->
  racing (length conns) (registeredFrame signature cmt conns).
Proof.
  intros H. unfold racing, registeredFrame; cbn.
  rewrite registered_promises by exact H.
  rewrite length_fmap, length_map, length_replicate.
  repeat split. apply Forall_replicate. now left.
Qed.

Lemma promiseTimeout_registered (signature : TransactionSignature)
    (cmt : option Commitment) (conns : list Connection.t)
    (js : list (list Step)) (ms : Z) (s : BaseTxSender) :
  let fr := registeredFrame signature cmt conns in
  promiseTimeout js fr ms s
  = match firstFailure signature cmt conns with
    | Some what => (Ok (fr, Rejected (Thrown what)), s, [SetTimeout ms])
    | None =>
        let d := settlingJob (length conns) js in
        (Ok (foldl notify fr d, Fulfilled), s,
         [SetTimeout ms]
         ++ match d with [] => [TimerFired] | _ => [] end ++ [ClearTimeout])
    end.
Proof.
  intros fr. unfold promiseTimeout.
  rewrite (bind_ok _ _ s s tt [SetTimeout ms]) by reflexivity.
  pose proof (registered_race signature cmt conns) as Hrace.
  change (map (confirmPromise signature cmt) conns).*2 with (promises fr) in Hrace.
  rewrite Hrace.
  destruct (firstFailure signature cmt conns) as [what|] eqn:Hf; [reflexivity |].
  rewrite (eventLoop_settling (length conns) js fr
             (registeredFrame_racing _ _ _ Hf) Hrace).
  cbv zeta. now destruct (settlingJob (length conns) js).
Qed.

Lemma settled_frame (signature : TransactionSignature)
    (cmt : option Commitment) (conns : list Connection.t)
    (js : list (list Step)) :
  firstFailure signature cmt conns = None ->
  let d := settlingJob (length conns) js in
  let fr' := foldl notify (registeredFrame signature cmt conns) d in
  subscriptionIds fr' = cleared (endpoint <$> d) (handleOn signature cmt <$> conns)
  /\ response fr' = payload <$> last d.
Proof.
  intros Hf d fr'.
  destruct (deliver (length conns) d (settlingJob_addressed _ _)
              (registeredFrame signature cmt conns) []
              (handleOn signature cmt <$> conns)
              (registeredFrame_racing _ _ _ Hf))
    as (_ & Hids & Hresp & _).
  { rewrite cleared_nil. apply registered_ids. }
  split; [exact Hids |]. fold fr' in Hresp. rewrite Hresp.
  now destruct (last d).
Qed.

Lemma confirmTransaction_valid (sched : Schedule)
    (signature : TransactionSignature) (c : option Commitment)
    (s : BaseTxSender) :
  decodesTo64 bs58_decode signature = true ->
  let conns := connectionsOf s in
  let cmt := subscriptionCommitmentOf s c in
  let ids := handleOn signature cmt <$> conns in
  confirmTransaction bs58_decode sched signature c s
  = match firstFailure signature cmt conns with
    | Some what =>
        (Err (Thrown what), s,
         registering signature cmt conns ++ [SetTimeout (timeout s)]
         ++ teardown conns 0 ids)
    | None =>
        let d := settlingJob (length conns) (jobs sched) in
        let t := registering signature cmt conns ++ [SetTimeout (timeout s)]
                 ++ match d with [] => [TimerFired] | _ => [] end
                 ++ [ClearTimeout]
                 ++ teardown conns 0 (cleared (endpoint <$> d) ids) in
        match last d with
        | Some x => (Ok (payload x), s, t)
        | None =>
            (Err (NotConfirmed (endTime sched - startTime sched) signature),
             withTimeoutCount s (timeoutCount s + 1), t)
        end
    end.
Proof.
  intros Hv conns cmt ids. unfold decodesTo64 in Hv.
  unfold confirmTransaction.
  destruct (bs58_decode signature) as [b|]; [| discriminate].
  rewrite (bind_ok _ _ s s b []) by reflexivity. rewrite Hv.
  rewrite (bind_ok _ _ s s tt []) by reflexivity.
  rewrite (bind_ok getThis _ s s s []) by reflexivity.
  fold conns. fold cmt. fold (registering signature cmt conns).
  rewrite (bind_ok _ _ s s tt (registering signature cmt conns)) by reflexivity.
  fold (registeredFrame signature cmt conns).
  pose proof (promiseTimeout_registered signature cmt conns (jobs sched)
                (timeout s) s) as Hpt.
  cbv zeta in Hpt.
  destruct (firstFailure signature cmt conns) as [what|] eqn:Hf.
  - rewrite (bind_ok _ _ _ _ _ _ Hpt).
    change (subscriptionIds (registeredFrame signature cmt conns))
      with (map (confirmPromise signature cmt) conns).*1.
    rewrite registered_ids. fold ids.
    rewrite (bind_ok _ _ s s tt (teardown conns 0 ids)).
    + unfold resultOf, thisOf, traceOf, throw; cbn.
      now rewrite app_nil_r.
    + apply removeListeners_teardown. unfold ids. rewrite length_fmap. lia.
  - rewrite (bind_ok _ _ _ _ _ _ Hpt).
    destruct (settled_frame signature cmt conns (jobs sched) Hf) as (Hids & Hresp).
    cbv zeta in Hids, Hresp. fold ids in Hids.
    set (d := settlingJob (length conns) (jobs sched)) in *.
    set (fr' := foldl notify (registeredFrame signature cmt conns) d) in *.
    rewrite (bind_ok _ _ s s tt (teardown conns 0 (cleared (endpoint <$> d) ids))).
    + rewrite Hresp. cbv zeta.
      destruct (last d) as [x|]; cbn [fmap option_fmap option_map].
      * unfold resultOf, thisOf, traceOf, ret; cbn.
        now rewrite app_nil_r, <- !app_assoc.
      * unfold resultOf, thisOf, traceOf, incrementTimeoutCount, bind, getThis,
          setThis, throw; cbn.
        now rewrite app_nil_r, <- !app_assoc.
    + rewrite Hids. apply removeListeners_teardown.
      unfold cleared. rewrite clearedFrom_length. unfold ids.
      rewrite length_fmap. lia.
Qed.

End Confirm.

(** *** What the traces show *)

Lemma removals_app (t1 t2 : list Event) :
  removals (t1 ++ t2) = removals t1 ++ removals t2.
Proof. apply omap_app. Qed.

Lemma removals_registering (signature : TransactionSignature)
    (cmt : option Commitment) (conns : list Connection.t) :
  removals (registering signature cmt conns) = [].
Proof.
  unfold registering. generalize 0%nat.
  enough (G : forall (f : nat -> nat),
    removals (imap (fun i conn =>
                OnSignature (f i) (Connection.rpcEndpoint conn) signature cmt)
                conns) = []) by (intros _; exact (G (fun i => i))).
  induction conns as [|c rest IH]; intros f; [reflexivity |].
  cbn. exact (IH (fun i => f (S i))).
Qed.

Lemma subscribed_app (t1 t2 : list Event) :
  subscribed (t1 ++ t2) = subscribed t1 ++ subscribed t2.
Proof. apply omap_app. Qed.

Lemma subscribed_teardown (conns : list Connection.t) (ids : list (option Z))
    (i : nat) :
  subscribed (teardown conns i ids) = [].
Proof.
  revert i. induction ids as [|o ids IH]; intros i; [reflexivity |].
  cbn [teardown]. rewrite subscribed_app, IH, app_nil_r.
  destruct o as [id|]; [| reflexivity].
  destruct (conns !! i); [| reflexivity]. now destruct (id =? 0).
Qed.

(** The teardowns are the registrations whose callback has not run and
    whose id is truthy. *)
Lemma removals_teardown (signature : TransactionSignature)
    (cmt : option Commitment) (all : list Connection.t) (fired : list nat)
    (conns : list Connection.t) (i : nat) :
  (forall j, conns !! j = all !! (i + j)%nat) ->
  removals (teardown all i
              (clearedFrom i fired (handleOn signature cmt <$> conns)))
  = filter (fun p => (p.1 ∉ fired) /\ (p.2 <> 0))
           (registrationsFrom i signature cmt conns).
Proof.
  revert i. induction conns as [|c rest IH]; intros i Hsuffix; [reflexivity |].
  cbn [fmap list_fmap clearedFrom teardown registrationsFrom].
  rewrite removals_app, filter_app.
  rewrite IH
    by (intros j; pose proof (Hsuffix (S j)) as Hj;
        rewrite lookup_cons in Hj; rewrite Hj; f_equal; lia).
  f_equal.
  pose proof (Hsuffix 0%nat) as H0. rewrite Nat.add_0_r in H0. cbn in H0.
  rewrite <- H0.
  destruct (handleOn signature cmt c) as [id|];
    [| now destruct (bool_decide (i ∈ fired))].
  destruct (decide (i ∈ fired)) as [Hin | Hnin].
  - rewrite bool_decide_eq_true_2 by exact Hin.
    rewrite filter_cons_False; [reflexivity |]. cbn. tauto.
  - rewrite bool_decide_eq_false_2 by exact Hnin.
    destruct (Z.eqb_spec id 0) as [-> | Hid].
    + rewrite filter_cons_False; [reflexivity |]. cbn. tauto.
    + rewrite filter_cons_True; [reflexivity |]. cbn. tauto.
Qed.

Lemma removals_teardown_all (signature : TransactionSignature)
    (cmt : option Commitment) (conns : list Connection.t) (fired : list nat) :
  removals (teardown conns 0
              (cleared fired (handleOn signature cmt <$> conns)))
  = filter (fun p => (p.1 ∉ fired) /\ (p.2 <> 0))
           (registrations signature cmt conns).
Proof. now apply removals_teardown. Qed.

Lemma registrationsFrom_handle (signature : TransactionSignature)
    (cmt : option Commitment) (conns : list Connection.t) (i j : nat) (id : Z) :
  (j, id) ∈ registrationsFrom i signature cmt conns ->
  exists conn, conn ∈ conns /\ handleOn signature cmt conn = Some id.
Proof.
  revert i. induction conns as [|c rest IH]; intros i Hin.
  - now apply elem_of_nil in Hin.
  - cbn in Hin. apply elem_of_app in Hin as [Hin | Hin].
    + destruct (handleOn signature cmt c) as [id'|] eqn:E;
        [| now apply elem_of_nil in Hin].
      apply list_elem_of_singleton in Hin. injection Hin as -> ->.
      exists c. split; [apply elem_of_cons; now left | exact E].
    + destruct (IH _ Hin) as (conn & Hc & Hh).
      exists conn. split; [apply elem_of_cons; now right | exact Hh].
Qed.

Lemma settlingTurn_quiet (n : nat) (steps : list Step) :
  Forall (fun step => step = Microtask) steps -> settlingTurn n steps = [].
Proof. induction 1 as [|step steps -> _ IH]; [reflexivity | exact IH]. Qed.

Lemma settlingJob_quiet (n : nat) (js : list (list Step)) :
  Forall (Forall (fun step => step = Microtask)) js -> settlingJob n js = [].
Proof.
  induction 1 as [|turn js Ht _ IH]; [reflexivity |].
  cbn. now rewrite (settlingTurn_quiet n turn Ht).
Qed.

Lemma settlingJob_later (n : nat) (js later : list (list Step)) :
  settlingJob n js <> [] -> settlingJob n (js ++ later) = settlingJob n js.
Proof.
  induction js as [|turn js IH]; intros H; [contradiction |].
  cbn in *. destruct (settlingTurn n turn); [now apply IH | reflexivity].
Qed.

Lemma invokedBefore_resumed (reactions : nat) (steps rest : list Step) :
  (reactions <= microtasks steps)%nat ->
  invokedBefore reactions (steps ++ rest) = invokedBefore reactions steps.
Proof.
  revert reactions.
  induction steps as [|[x|] steps IH]; intros [|k] Hk; try reflexivity.
  - now destruct rest.
  - cbn in Hk. lia.
  - cbn [app invokedBefore]. f_equal. now apply IH.
  - cbn [app invokedBefore]. apply IH. cbn in Hk. lia.
Qed.

(** Steps that follow the resumption of the call are not delivered to
    it. *)
Lemma settlingTurn_resumed (n : nat) (steps rest : list Step) :
  resumedWithin n steps = true ->
  settlingTurn n (steps ++ rest) = settlingTurn n steps
  /\ settlingTurn n steps <> [].
Proof.
  induction steps as [|[x|] steps IH]; intros H; [discriminate | | now apply IH].
  cbn [app settlingTurn resumedWithin] in *.
  destruct (decide (endpoint x < n)%nat); [| now apply IH].
  apply Nat.leb_le in H. now rewrite invokedBefore_resumed.
Qed.

Lemma settlingJob_resumed (n : nat) (before : list (list Step))
    (turn rest : list Step) (after later : list (list Step)) :
  resumedWithin n turn = true ->
  settlingJob n (before ++ (turn ++ rest) :: later)
  = settlingJob n (before ++ turn :: after).
Proof.
  intros H. destruct (settlingTurn_resumed n turn rest H) as (E & Hne).
  induction before as [|b before IH]; cbn.
  - rewrite E. now destruct (settlingTurn n turn).
  - now destruct (settlingTurn n b).
Qed.

Lemma firstFailure_Some (signature : TransactionSignature)
    (cmt : option Commitment) (conns : list Connection.t)
    (conn : Connection.t) (w : string) :
  conn ∈ conns ->
  Connection.onSignature conn signature cmt = Throws w ->
  exists what, firstFailure signature cmt conns = Some what.
Proof.
  intros Hin Hw. induction conns as [|c rest IH].
  - now apply elem_of_nil in Hin.
  - cbn. destruct (Connection.onSignature c signature cmt) as [id|what] eqn:E;
      [| now exists what].
    apply elem_of_cons in Hin as [-> | Hin]; [congruence | now apply IH].
Qed.

Lemma firstFailure_None (signature : TransactionSignature)
    (cmt : option Commitment) (conns : list Connection.t) :
  Forall (fun conn => is_Some (handleOn signature cmt conn)) conns ->
  firstFailure signature cmt conns = None.
Proof.
  induction 1 as [|c rest [id Hc] _ IH]; [reflexivity |].
  cbn. unfold handleOn in Hc.
  now destruct (Connection.onSignature c signature cmt).
Qed.

Lemma filter_all {A} (P : A -> Prop) `{forall x, Decision (P x)} (l : list A) :
  (forall x, x ∈ l -> P x) -> filter P l = l.
Proof.
  induction l as [|x l IH]; intros Hall; [reflexivity |].
  rewrite filter_cons_True by (apply Hall, elem_of_cons; now left).
  f_equal. apply IH. intros y Hy. apply Hall, elem_of_cons. now right.
Qed.

Lemma filter_agree {A} (P Q : A -> Prop) `{forall x, Decision (P x)}
    `{forall x, Decision (Q x)} (l : list A) :
  (forall x, x ∈ l -> (P x <-> Q x)) -> filter P l = filter Q l.
Proof.
  induction l as [|x l IH]; intros Hall; [reflexivity |].
  assert (Hx : P x <-> Q x) by (apply Hall, elem_of_cons; now left).
  assert (Hl : filter P l = filter Q l)
    by (apply IH; intros y Hy; apply Hall, elem_of_cons; now right).
  destruct (decide (P x)) as [HP | HP].
  - rewrite !filter_cons_True by tauto. now f_equal.
  - rewrite !filter_cons_False by tauto. exact Hl.
Qed.

Lemma nonzeroHandles_spec (signature : TransactionSignature)
    (cmt : option Commitment) (conns : list Connection.t) :
  nonzeroHandles signature cmt conns = true ->
  forall p, p ∈ registrations signature cmt conns -> p.2 <> 0.
Proof.
  intros H [j id] Hin.
  destruct (registrationsFrom_handle _ _ _ _ _ _ Hin) as (conn & Hc & Hh).
  unfold nonzeroHandles in H. rewrite forallb_forall in H.
  apply list_elem_of_In in Hc. specialize (H conn Hc). rewrite Hh in H.
  cbn. intros ->. discriminate.
Qed.

(** The timer events between registration and teardown show no
    subscription and no removal. *)
Lemma trace_projections (signature : TransactionSignature)
    (cmt : option Commitment) (conns : list Connection.t)
    (mid : list Event) (ids : list (option Z)) :
  subscribed mid = [] -> removals mid = [] ->
  subscribed (registering signature cmt conns ++ mid ++ teardown conns 0 ids)
  = seq 0 (length conns)
  /\ removals (registering signature cmt conns ++ mid ++ teardown conns 0 ids)
     = removals (teardown conns 0 ids).
Proof.
  intros Hs Hr.
  rewrite !subscribed_app, !removals_app, Hs, Hr, subscribed_registering,
    removals_registering, subscribed_teardown.
  now rewrite !app_nil_r.
Qed.

Lemma teardown_onOwnConnection (conns : list Connection.t)
    (ids : list (option Z)) (i : nat) :
  Forall (fun e => onOwnConnection conns e = true) (teardown conns i ids).
Proof.
  revert i. induction ids as [|o ids IH]; intros i; [constructor |].
  cbn [teardown]. apply Forall_app. split; [| apply IH].
  destruct o as [id|]; [| constructor].
  destruct (conns !! i) as [conn|] eqn:E; [| constructor].
  destruct (id =? 0); constructor; [| constructor].
  cbn. rewrite E. apply String.eqb_refl.
Qed.

Lemma trace_onOwnConnection (signature : TransactionSignature)
    (cmt : option Commitment) (conns : list Connection.t)
    (mid : list Event) (ids : list (option Z)) :
  Forall (fun e => onOwnConnection conns e = true) mid ->
  Forall (fun e => onOwnConnection conns e = true)
    (registering signature cmt conns ++ mid ++ teardown conns 0 ids).
Proof.
  intros Hmid. apply Forall_app. split; [| apply Forall_app; split].
  - apply Forall_forall. intros e He. unfold registering in He.
    apply elem_of_lookup_imap in He as (i & conn & -> & _). reflexivity.
  - exact Hmid.
  - apply teardown_onOwnConnection.
Qed.

Section ConfirmProperties.

Variable bs58_decode : string -> option Buffer.

(** C1 (amended): for a well-formed signature, and endpoints that hand out
    nonzero ids, [onSignature] is called once on every connection, and
    before the call returns [removeSignatureListener] is called, once and
    on its own connection, for exactly the subscriptions whose callback
    has not run: for all of them when the call fails, by the timeout or
    by a registration error; for all but those of the notified endpoints
    when it returns a result. *)
Theorem confirmTransaction_teardown (sched : Schedule)
    (signature : TransactionSignature) (c : option Commitment)
    (s : BaseTxSender) :
  decodesTo64 bs58_decode signature = true ->
  nonzeroHandles signature (subscriptionCommitmentOf s c) (connectionsOf s)
  = true ->
  let conns := connectionsOf s in
  let cmt := subscriptionCommitmentOf s c in
  let out := confirmTransaction bs58_decode sched signature c s in
  let fired := notified signature cmt conns (jobs sched) in
  subscribed (traceOf out) = seq 0 (length conns)
  /\ removals (traceOf out)
     = filter (fun p => p.1 ∉ fired) (registrations signature cmt conns)
  /\ (forall e, resultOf out = Err e ->
      removals (traceOf out) = registrations signature cmt conns)
  /\ Forall (fun e => onOwnConnection conns e = true) (traceOf out).
Proof.
  intros Hv Hnz conns cmt out fired.
  pose proof (confirmTransaction_valid bs58_decode sched signature c s Hv) as E.
  cbv zeta in E. fold conns cmt out in E.
  pose proof (nonzeroHandles_spec signature cmt conns Hnz) as Hid.
  assert (Hrem : forall f,
    removals (teardown conns 0 (cleared f (handleOn signature cmt <$> conns)))
    = filter (fun p => p.1 ∉ f) (registrations signature cmt conns)).
  { intros f. rewrite removals_teardown_all. apply filter_agree.
    intros p Hp. specialize (Hid p Hp). tauto. }
  assert (Hnone : filter (fun p : nat * Z => p.1 ∉ [])
                    (registrations signature cmt conns)
                  = registrations signature cmt conns).
  { apply filter_all. intros p _. apply not_elem_of_nil. }
  unfold fired, notified.
  destruct (firstFailure signature cmt conns) as [what|] eqn:Hf.
  - rewrite E. unfold traceOf, resultOf; cbn [fst snd].
    destruct (trace_projections signature cmt conns [SetTimeout (timeout s)]
                (handleOn signature cmt <$> conns) eq_refl eq_refl) as (Hs & Hr).
    rewrite Hs, Hr.
    rewrite <- (cleared_nil (handleOn signature cmt <$> conns)), Hrem.
    split; [reflexivity |]. split; [reflexivity |].
    split; [intros _ _; exact Hnone |].
    rewrite cleared_nil. apply trace_onOwnConnection. repeat constructor.
  - set (d := settlingJob (length conns) (jobs sched)) in *.
    assert (Ht : subscribed (traceOf out) = seq 0 (length conns)
                 /\ removals (traceOf out)
                    = filter (fun p => p.1 ∉ endpoint <$> d)
                        (registrations signature cmt conns)).
    { rewrite <- Hrem.
      assert (Hmid : forall tail,
        [SetTimeout (timeout s)]
        ++ match d with [] => [TimerFired] | _ => [] end ++ [ClearTimeout] ++ tail
        = ([SetTimeout (timeout s)]
           ++ match d with [] => [TimerFired] | _ => [] end ++ [ClearTimeout])
          ++ tail).
      { intros tail. now rewrite <- !app_assoc. }
      rewrite E. destruct (last d); unfold traceOf; cbn [fst snd];
        rewrite Hmid; apply trace_projections; now destruct d. }
    destruct Ht as (Hs & Hr). split; [exact Hs |]. split; [exact Hr |].
    split.
    + intros e He. rewrite Hr.
      destruct (last d) as [x|] eqn:Hl.
      * rewrite E in He. discriminate.
      * apply last_None in Hl. rewrite Hl. exact Hnone.
    + assert (Hmid : forall tail,
        [SetTimeout (timeout s)]
        ++ match d with [] => [TimerFired] | _ => [] end ++ [ClearTimeout] ++ tail
        = ([SetTimeout (timeout s)]
           ++ match d with [] => [TimerFired] | _ => [] end ++ [ClearTimeout])
          ++ tail).
      { intros tail. now rewrite <- !app_assoc. }
      rewrite E. destruct (last d); unfold traceOf; cbn [fst snd];
        rewrite Hmid; apply trace_onOwnConnection;
        destruct d; repeat constructor.
Qed.

(** C2 (amended): when [onSignature] throws on some endpoint, it is still
    called on every connection, but the rejected promise settles the race
    at once: the call fails with the error of the first endpoint whose
    registration threw, whatever the endpoints notify in the turns that
    follow and without a timeout; every subscription that was opened
    under a nonzero id is removed, and nothing but opened subscriptions,
    so that with endpoints that hand out nonzero ids the removals are the
    registrations; the timeout counter is as before. *)
Theorem confirmTransaction_registration_failure (sched : Schedule)
    (signature : TransactionSignature) (c : option Commitment)
    (s : BaseTxSender) (what : string) :
  decodesTo64 bs58_decode signature = true ->
  firstFailure signature (subscriptionCommitmentOf s c) (connectionsOf s)
  = Some what ->
  let conns := connectionsOf s in
  let cmt := subscriptionCommitmentOf s c in
  let out := confirmTransaction bs58_decode sched signature c s in
  resultOf out = Err (Thrown what)
  /\ thisOf out = s
  /\ subscribed (traceOf out) = seq 0 (length conns)
  /\ (forall p, p ∈ removals (traceOf out) ->
      p ∈ registrations signature cmt conns)
  /\ (forall p, p ∈ registrations signature cmt conns -> (p.2 <> 0) ->
      p ∈ removals (traceOf out))
  /\ (nonzeroHandles signature cmt conns = true ->
      removals (traceOf out) = registrations signature cmt conns)
  /\ (TimerFired ∉ traceOf out)
  /\ (forall sched', confirmTransaction bs58_decode sched' signature c s = out).
Proof.
  intros Hv Hf conns cmt out.
  pose proof (confirmTransaction_valid bs58_decode sched signature c s Hv) as E.
  cbv zeta in E. fold conns cmt out in E. fold conns cmt in Hf.
  rewrite Hf in E.
  assert (Hrem : removals (traceOf out)
                 = filter (fun p => (p.1 ∉ []) /\ (p.2 <> 0))
                     (registrations signature cmt conns)).
  { rewrite E. unfold traceOf; cbn [fst snd].
    destruct (trace_projections signature cmt conns [SetTimeout (timeout s)]
                (handleOn signature cmt <$> conns) eq_refl eq_refl) as (_ & Hr).
    rewrite Hr.
    rewrite <- (cleared_nil (handleOn signature cmt <$> conns)).
    now rewrite removals_teardown_all. }
  split; [now rewrite E |]. split; [now rewrite E |]. split.
  { rewrite E. unfold traceOf; cbn [fst snd].
    now destruct (trace_projections signature cmt conns
                    [SetTimeout (timeout s)]
                    (handleOn signature cmt <$> conns) eq_refl eq_refl). }
  split.
  { intros p Hp. rewrite Hrem in Hp. now apply list_elem_of_filter in Hp. }
  split.
  { intros p Hp Hid. rewrite Hrem. apply list_elem_of_filter.
    split; [split; [apply not_elem_of_nil | exact Hid] | exact Hp]. }
  split.
  { intros Hnz. rewrite Hrem. apply filter_all. intros p Hp.
    split; [apply not_elem_of_nil |].
    exact (nonzeroHandles_spec signature cmt conns Hnz p Hp). }
  split.
  { rewrite E. unfold traceOf; cbn [fst snd]. intros Hin.
    apply elem_of_app in Hin as [Hin | Hin].
    - unfold registering in Hin. apply elem_of_lookup_imap in Hin
        as (i & conn & Heq & _). discriminate.
    - apply elem_of_cons in Hin as [Hin | Hin]; [discriminate |].
      assert (G : forall i ids, TimerFired ∉ teardown conns i ids).
      { intros i ids. revert i. induction ids as [|o ids IH]; intros i H.
        - now apply elem_of_nil in H.
        - cbn in H. apply elem_of_app in H as [H | H]; [| exact (IH _ H)].
          destruct o as [id|]; [| now apply elem_of_nil in H].
          destruct (conns !! i); [| now apply elem_of_nil in H].
          destruct (id =? 0); [now apply elem_of_nil in H |].
          apply list_elem_of_singleton in H. discriminate. }
      exact (G _ _ Hin). }
  intros sched'.
  pose proof (confirmTransaction_valid bs58_decode sched' signature c s Hv) as E'.
  cbv zeta in E'. fold conns cmt in E'. rewrite Hf in E'.
  now rewrite E, E'.
Qed.

(** C3 (amended): when every endpoint registered, every callback invoked
    before the call resumes assigns the response, and the call returns
    the payload of the last of them, whatever the position of its
    endpoint; the call resumes when the third promise reaction after the
    first callback has run, or when that turn of the event loop ends.
    So the payload of the first callback is returned when no other
    callback is invoked before the call resumes; and the steps and the
    turns that come after the call has resumed change nothing of the
    outcome. *)
Theorem confirmTransaction_result (sched : Schedule)
    (signature : TransactionSignature) (c : option Commitment)
    (s : BaseTxSender) (x : Notification) :
  decodesTo64 bs58_decode signature = true ->
  firstFailure signature (subscriptionCommitmentOf s c) (connectionsOf s)
  = None ->
  last (settlingJob (length (connectionsOf s)) (jobs sched)) = Some x ->
  let out := confirmTransaction bs58_decode sched signature c s in
  resultOf out = Ok (payload x)
  /\ thisOf out = s
  /\ (forall later,
        confirmTransaction bs58_decode (withLaterJobs sched later) signature c s
        = out)
  /\ (forall before turn rest after later,
        jobs sched = before ++ turn :: after ->
        resumedWithin (length (connectionsOf s)) turn = true ->
        confirmTransaction bs58_decode
          (withJobs sched (before ++ (turn ++ rest) :: later)) signature c s
        = out).
Proof.
  intros Hv Hf Hl out.
  pose proof (confirmTransaction_valid bs58_decode sched signature c s Hv) as E.
  cbv zeta in E. fold out in E. rewrite Hf, Hl in E.
  split; [now rewrite E |]. split; [now rewrite E |].
  split.
  - intros later.
    pose proof (confirmTransaction_valid bs58_decode (withLaterJobs sched later)
                  signature c s Hv) as E'.
    cbv zeta in E'. rewrite Hf in E'. cbn [jobs withLaterJobs withJobs] in E'.
    rewrite settlingJob_later in E'.
    + rewrite Hl in E'. now rewrite E, E'.
    + intros Hnil. rewrite Hnil in Hl. discriminate.
  - intros before turn rest after later Hjobs Hres.
    pose proof (confirmTransaction_valid bs58_decode
                  (withJobs sched (before ++ (turn ++ rest) :: later))
                  signature c s Hv) as E'.
    cbv zeta in E'. rewrite Hf in E'. cbn [jobs withJobs] in E'.
    rewrite (settlingJob_resumed _ before turn rest after later Hres),
      <- Hjobs, Hl in E'.
    now rewrite E, E'.
Qed.

End ConfirmProperties.

(** ** The timeout counter *)

Lemma confirmTransaction_this (bs58_decode : string -> option Buffer)
    (sched : Schedule) (signature : TransactionSignature)
    (c : option Commitment) (s : BaseTxSender) :
  let out := confirmTransaction bs58_decode sched signature c s in
  thisOf out
  = match resultOf out with
    | Err (NotConfirmed _ _) => withTimeoutCount s (timeoutCount s + 1)
    | _ => s
    end.
Proof.
  intros out. destruct (decodesTo64 bs58_decode signature) eqn:Hv.
  - pose proof (confirmTransaction_valid bs58_decode sched signature c s Hv) as E.
    cbv zeta in E. fold out in E. rewrite E.
    destruct (firstFailure _ _ _); [reflexivity |].
    now destruct (last _).
  - pose proof (confirmTransaction_malformed bs58_decode sched signature c s Hv)
      as E.
    fold out in E. rewrite E. cbn.
    now destruct (bs58_decode signature).
Qed.

Section Timeouts.

Variable bs58_decode : string -> option Buffer.

(** C5 (amended): a call with a well-formed signature in which
    [onSignature] returns on every connection and no endpoint invokes its
    callback before the timer fails with the not-confirmed error that
    carries the elapsed time and the signature, and the timeout counter
    grows by one; so many such calls in a row, whatever their signatures
    and commitments, grow it by their number; and a call that returns a
    result leaves the sender as it was. *)
Theorem confirmTransaction_timeout (s : BaseTxSender) :
  (forall sched signature c,
     unanswered bs58_decode s (sched, signature, c) ->
     resultOf (confirmTransaction bs58_decode sched signature c s)
     = Err (NotConfirmed (endTime sched - startTime sched) signature)
     /\ thisOf (confirmTransaction bs58_decode sched signature c s)
        = withTimeoutCount s (timeoutCount s + 1)
     /\ timeoutCount (thisOf (confirmTransaction bs58_decode sched signature c s))
        = timeoutCount s + 1)
  /\ (forall calls, Forall (unanswered bs58_decode s) calls ->
        timeoutCount (confirmEach bs58_decode s calls)
        = timeoutCount s + Z.of_nat (length calls))
  /\ (forall sched signature c r,
        resultOf (confirmTransaction bs58_decode sched signature c s) = Ok r ->
        thisOf (confirmTransaction bs58_decode sched signature c s) = s).
Proof.
  assert (One : forall s0 sched signature c,
    unanswered bs58_decode s0 (sched, signature, c) ->
    resultOf (confirmTransaction bs58_decode sched signature c s0)
    = Err (NotConfirmed (endTime sched - startTime sched) signature)
    /\ thisOf (confirmTransaction bs58_decode sched signature c s0)
       = withTimeoutCount s0 (timeoutCount s0 + 1)).
  { intros s0 sched signature c (Hv & Hf & Hq). cbn [fst snd] in Hv, Hf, Hq.
    pose proof (confirmTransaction_valid bs58_decode sched signature c s0 Hv) as E.
    cbv zeta in E. rewrite Hf in E.
    rewrite (settlingJob_quiet _ _ Hq) in E. cbn in E. now rewrite E. }
  split; [| split].
  - intros sched signature c Hu. destruct (One s sched signature c Hu) as (Hr & Ht).
    split; [exact Hr |]. split; [exact Ht |]. now rewrite Ht.
  - intros calls Hall. revert s Hall.
    induction calls as [|[[sched signature] c] calls IH]; intros s Hall;
      [cbn; lia |].
    apply Forall_cons in Hall as (Hu & Hall).
    cbn [confirmEach foldl length fst snd].
    destruct (One s sched signature c Hu) as (_ & Ht).
    fold (confirmEach bs58_decode
            (thisOf (confirmTransaction bs58_decode sched signature c s)) calls).
    rewrite Ht, IH by exact Hall. cbn [timeoutCount withTimeoutCount]. lia.
  - intros sched signature c r Hr.
    pose proof (confirmTransaction_this bs58_decode sched signature c s) as Ht.
    cbv zeta in Ht. now rewrite Hr in Ht.
Qed.

End Timeouts.

Lemma keepsThis_ret {A} (a : A) : keepsThis (ret a).
Proof. now intros s. Qed.

Lemma keepsThis_throw {A} (e : Error) : keepsThis (@throw A e).
Proof. now intros s. Qed.

Lemma keepsThis_emit (e : Event) : keepsThis (emit e).
Proof. now intros s. Qed.

Lemma keepsThis_emitAll (es : list Event) : keepsThis (emitAll es).
Proof. now intros s. Qed.

Lemma keepsThis_getThis : keepsThis getThis.
Proof. now intros s. Qed.

Lemma keepsThis_liftR {A} (r : Answer A) : keepsThis (liftR r).
Proof. now destruct r; intros s. Qed.

Lemma keepsThis_bind {A B} (m : M A) (k : A -> M B) :
  keepsThis m -> (forall a, keepsThis (k a)) -> keepsThis (bind m k).
Proof.
  intros Hm Hk s. specialize (Hm s). unfold bind.
  destruct (m s) as [[[a|e] s1] t1]; cbn in Hm; subst s1; [| reflexivity].
  specialize (Hk a s). now destruct (k a s) as [[r s2] t2].
Qed.

Lemma keepsThis_if {A} (b : bool) (m1 m2 : M A) :
  keepsThis m1 -> keepsThis m2 -> keepsThis (if b then m1 else m2).
Proof. now destruct b. Qed.

Create HintDb sender.
#[local] Hint Resolve keepsThis_ret keepsThis_throw keepsThis_emit
  keepsThis_emitAll keepsThis_getThis keepsThis_liftR keepsThis_if : sender.
#[local] Hint Extern 2 (keepsThis (bind _ _)) =>
  apply keepsThis_bind; [| intros ?] : sender.

Lemma keepsThis_nondecreasing {A} (m : M A) : keepsThis m -> nondecreasing m.
Proof. intros H s. rewrite H. lia. Qed.

Lemma nondecreasing_bind {A B} (m : M A) (k : A -> M B) :
  nondecreasing m -> (forall a, nondecreasing (k a)) -> nondecreasing (bind m k).
Proof.
  intros Hm Hk s. specialize (Hm s). unfold bind.
  destruct (m s) as [[[a|e] s1] t1]; cbn in Hm; [| exact Hm].
  specialize (Hk a s1). destruct (k a s1) as [[r s2] t2]. cbn in *. lia.
Qed.

Section Counter.

Variable bs58_decode : string -> option Buffer.
Variable partialSign : Signer -> Transaction -> Answer Transaction.
Variable serialize : Transaction -> Answer Buffer.
Variable sign :
  list (option Signer) -> VersionedTransaction -> Answer VersionedTransaction.
Variable serializeVersioned : VersionedTransaction -> Answer Buffer.
Variable compileToV0Message :
  PublicKey -> Blockhash -> list TransactionInstruction ->
  list AddressLookupTableAccount -> Answer MessageV0.
Variable sendRawTransaction : Buffer -> ConfirmOptions -> M TxSigAndSlot.

Lemma partialSignEach_keepsThis (kps : list Signer) (tx : Transaction) :
  keepsThis (partialSignEach partialSign kps tx).
Proof. revert tx. induction kps; intros tx; cbn; auto 10 with sender. Qed.

Lemma signEach_keepsThis (kps : list Signer) (tx : VersionedTransaction) :
  keepsThis (signEach sign kps tx).
Proof. revert tx. induction kps; intros tx; cbn; auto 10 with sender. Qed.

Lemma prepareTx_keepsThis (tx : Transaction) (signers : list (option Signer))
    (o : ConfirmOptions) :
  keepsThis (prepareTx partialSign tx signers o).
Proof.
  unfold prepareTx. pose proof partialSignEach_keepsThis.
  auto 20 with sender.
Qed.

Lemma getVersionedTransaction_keepsThis (ixs : list TransactionInstruction)
    (tables : list AddressLookupTableAccount)
    (signers : option (list (option Signer))) (o : option ConfirmOptions) :
  keepsThis (getVersionedTransaction compileToV0Message ixs tables signers o).
Proof. unfold getVersionedTransaction. auto 20 with sender. Qed.

Lemma promiseTimeout_keepsThis (js : list (list Step)) (fr : Frame)
    (ms : Z) :
  keepsThis (promiseTimeout js fr ms).
Proof.
  unfold promiseTimeout. apply keepsThis_bind; [auto with sender |].
  intros _. destruct (race (promises fr)); [| auto 10 with sender ..].
  destruct (eventLoop js fr) as [fr' timer]. auto 10 with sender.
Qed.

Lemma addAdditionalConnection_timeoutCount (conn : Connection.t)
    (s : BaseTxSender) :
  timeoutCount (thisOf (addAdditionalConnection conn s)) = timeoutCount s.
Proof.
  unfold addAdditionalConnection, bind, getThis, setThis.
  now destruct (0 <? _)%nat.
Qed.

Hypothesis subclass_nondecreasing :
  forall raw o, nondecreasing (sendRawTransaction raw o).

Lemma send_nondecreasing (tx : Transaction)
    (signers : option (list (option Signer))) (o : option ConfirmOptions)
    (preSigned : option bool) :
  nondecreasing (send partialSign serialize sendRawTransaction
                   tx signers o preSigned).
Proof.
  unfold send. apply nondecreasing_bind;
    [apply keepsThis_nondecreasing; auto with sender |].
  intros this. apply nondecreasing_bind.
  - apply keepsThis_nondecreasing. apply keepsThis_if; [auto with sender |].
    apply prepareTx_keepsThis.
  - intros signedTx. apply nondecreasing_bind;
      [apply keepsThis_nondecreasing; auto with sender |].
    intros raw. apply subclass_nondecreasing.
Qed.

Lemma sendVersionedTransaction_nondecreasing (tx : VersionedTransaction)
    (signers : option (list (option Signer))) (o : option ConfirmOptions)
    (preSigned : option bool) :
  nondecreasing (sendVersionedTransaction sign serializeVersioned
                   sendRawTransaction tx signers o preSigned).
Proof.
  unfold sendVersionedTransaction. apply nondecreasing_bind;
    [apply keepsThis_nondecreasing; auto with sender |].
  intros this. apply nondecreasing_bind.
  - apply keepsThis_nondecreasing. apply keepsThis_if; [auto with sender |].
    destruct (Wallet.payer (wallet this)); [auto 10 with sender |].
    apply keepsThis_bind; [| auto 10 with sender].
    destruct signers; [apply signEach_keepsThis | auto with sender].
  - intros signedTx. apply nondecreasing_bind;
      [apply keepsThis_nondecreasing; auto with sender |].
    intros raw. apply subclass_nondecreasing.
Qed.

Lemma perform_exact (s : BaseTxSender) (call : Call) :
  reachesSubclass call = false ->
  timeoutCount ((perform bs58_decode partialSign serialize sign serializeVersioned
     compileToV0Message sendRawTransaction) s call)
  = timeoutCount s + (if timesOut bs58_decode s call then 1 else 0).
Proof.
  intros Hc. destruct call; try discriminate Hc; cbn [perform timesOut].
  - rewrite prepareTx_keepsThis. lia.
  - rewrite getVersionedTransaction_keepsThis. lia.
  - rewrite confirmTransaction_this.
    destruct (resultOf _) as [r|[]]; cbn; lia.
  - cbn. lia.
  - rewrite promiseTimeout_keepsThis. lia.
  - cbn. lia.
  - rewrite addAdditionalConnection_timeoutCount. lia.
  - cbn. lia.
Qed.

Lemma perform_nondecreasing (s : BaseTxSender) (call : Call) :
  timeoutCount s <= timeoutCount ((perform bs58_decode partialSign serialize sign serializeVersioned
     compileToV0Message sendRawTransaction) s call).
Proof.
  destruct (reachesSubclass call) eqn:Hc.
  - destruct call; try discriminate Hc; cbn [perform].
    + apply send_nondecreasing.
    + apply sendVersionedTransaction_nondecreasing.
    + apply subclass_nondecreasing.
  - rewrite perform_exact by exact Hc.
    destruct (timesOut bs58_decode s call); lia.
Qed.

(** C9: over any sequence of calls on a sender, [getTimeoutCount] never
    reads less than before, given that the [sendRawTransaction] of the
    subclass does not decrease the counter; and a call that does not end
    in the subclass adds one to the counter when it is a
    [confirmTransaction] that times out, and nothing otherwise. *)
Theorem timeoutCount_monotone (s : BaseTxSender) (calls : list Call) :
  let s' := performAll bs58_decode partialSign serialize sign
              serializeVersioned compileToV0Message sendRawTransaction
              s calls in
  resultOf (getTimeoutCount s) = Ok (timeoutCount s)
  /\ resultOf (getTimeoutCount s') = Ok (timeoutCount s')
  /\ timeoutCount s <= timeoutCount s'
  /\ (forall call, reachesSubclass call = false ->
        timeoutCount (perform bs58_decode partialSign serialize sign
                        serializeVersioned compileToV0Message
                        sendRawTransaction s' call)
        = timeoutCount s' + (if timesOut bs58_decode s' call then 1 else 0)).
Proof.
  intros s'. split; [reflexivity |]. split; [reflexivity |]. split.
  - unfold s', performAll. clear s'. revert s.
    induction calls as [|call calls IH]; intros s; cbn.
    + lia.
    + etransitivity; [apply (perform_nondecreasing s call) | apply IH].
  - intros call. apply perform_exact.
Qed.

End Counter.

(** ** The theorems at concrete senders *)

Lemma confirmTransaction_teardown_witness :
  subscribed (traceOf (confirmTransaction Base58.decode Fixtures.secondFires
                         Fixtures.signature None Fixtures.threeEndpoints))
  = [0; 1; 2]%nat
  /\ removals (traceOf (confirmTransaction Base58.decode Fixtures.secondFires
                          Fixtures.signature None Fixtures.threeEndpoints))
     = [(0%nat, 1); (2%nat, 3)]
  /\ (forall e,
        resultOf (confirmTransaction Base58.decode Fixtures.secondFires
                    Fixtures.signature None Fixtures.threeEndpoints) = Err e ->
        removals (traceOf (confirmTransaction Base58.decode Fixtures.secondFires
                             Fixtures.signature None Fixtures.threeEndpoints))
        = [(0%nat, 1); (1%nat, 2); (2%nat, 3)])
  /\ Forall (fun e => onOwnConnection (connectionsOf Fixtures.threeEndpoints) e
                      = true)
       (traceOf (confirmTransaction Base58.decode Fixtures.secondFires
                   Fixtures.signature None Fixtures.threeEndpoints)).
Proof.
  exact (confirmTransaction_teardown Base58.decode Fixtures.secondFires
           Fixtures.signature None Fixtures.threeEndpoints eq_refl eq_refl).
Defined.

(** C1 as stated, with as many teardowns as registrations on every path,
    fails when a callback resolves the call: the slot of the notified
    endpoint is cleared by its callback, and its subscription is not
    removed. *)
Lemma teardown_count_counterexample :
  decodesTo64 Base58.decode Fixtures.signature = true
  /\ resultOf (confirmTransaction Base58.decode Fixtures.secondFires
                 Fixtures.signature None Fixtures.twoEndpoints)
     = Ok {| context := {| slot := 42 |}; value := {| err := None |} |}
  /\ registrations Fixtures.signature (Some processed)
       (connectionsOf Fixtures.twoEndpoints)
     = [(0%nat, 1); (1%nat, 2)]
  /\ removals (traceOf (confirmTransaction Base58.decode Fixtures.secondFires
                          Fixtures.signature None Fixtures.twoEndpoints))
     = [(0%nat, 1)]
  /\ length (removals (traceOf (confirmTransaction Base58.decode
                                  Fixtures.secondFires Fixtures.signature None
                                  Fixtures.twoEndpoints)))
     <> length (registrations Fixtures.signature (Some processed)
                  (connectionsOf Fixtures.twoEndpoints)).
Proof. vm_compute. repeat split. discriminate. Qed.

(** A subscription whose id is 0 is skipped by [if (subscriptionId)]: on
    the timeout path it stays registered. *)
Example teardown_skips_id_zero :
  registrations Fixtures.signature (Some processed)
    (connectionsOf Fixtures.firstId) = [(0%nat, 0)]
  /\ removals (traceOf (confirmTransaction Base58.decode Fixtures.silence
                          Fixtures.signature None Fixtures.firstId)) = [].
Proof. vm_compute. split; reflexivity. Qed.

Lemma confirmTransaction_registration_failure_witness :
  resultOf (confirmTransaction Base58.decode Fixtures.lastFires
              Fixtures.signature None Fixtures.oneDown)
  = Err (Thrown "socket closed")
  /\ thisOf (confirmTransaction Base58.decode Fixtures.lastFires
               Fixtures.signature None Fixtures.oneDown)
     = Fixtures.oneDown
  /\ subscribed (traceOf (confirmTransaction Base58.decode Fixtures.lastFires
                            Fixtures.signature None Fixtures.oneDown))
     = [0; 1; 2]%nat
  /\ (forall p,
        p ∈ removals (traceOf (confirmTransaction Base58.decode
                                 Fixtures.lastFires Fixtures.signature None
                                 Fixtures.oneDown)) ->
        p ∈ registrations Fixtures.signature (Some processed)
              (connectionsOf Fixtures.oneDown))
  /\ (forall p,
        p ∈ registrations Fixtures.signature (Some processed)
              (connectionsOf Fixtures.oneDown) ->
        (p.2 <> 0) ->
        p ∈ removals (traceOf (confirmTransaction Base58.decode
                                 Fixtures.lastFires Fixtures.signature None
                                 Fixtures.oneDown)))
  /\ (nonzeroHandles Fixtures.signature (Some processed)
        (connectionsOf Fixtures.oneDown) = true ->
      removals (traceOf (confirmTransaction Base58.decode Fixtures.lastFires
                           Fixtures.signature None Fixtures.oneDown))
      = [(0%nat, 1); (2%nat, 2)])
  /\ (TimerFired ∉ traceOf (confirmTransaction Base58.decode Fixtures.lastFires
                              Fixtures.signature None Fixtures.oneDown))
  /\ (forall sched',
        confirmTransaction Base58.decode sched' Fixtures.signature None
          Fixtures.oneDown
        = confirmTransaction Base58.decode Fixtures.lastFires
            Fixtures.signature None Fixtures.oneDown).
Proof.
  exact (confirmTransaction_registration_failure Base58.decode
           Fixtures.lastFires Fixtures.signature None Fixtures.oneDown
           "socket closed" eq_refl eq_refl).
Defined.

(** C2 as stated, where a failing registration does not fail the call,
    fails with one endpoint down and another that notifies: the call ends
    with the registration error, not with the notified result and not
    with the timeout. *)
Lemma registration_failure_counterexample :
  decodesTo64 Base58.decode Fixtures.signature = true
  /\ Connection.onSignature (Fixtures.unreachableAt "https://rpc.down")
       Fixtures.signature (Some processed) = Throws "socket closed"
  /\ resultOf (confirmTransaction Base58.decode Fixtures.lastFires
                 Fixtures.signature None Fixtures.oneDown)
     = Err (Thrown "socket closed")
  /\ resultOf (confirmTransaction Base58.decode Fixtures.lastFires
                 Fixtures.signature None Fixtures.oneDown)
     <> Ok (payload (Fixtures.success 42 2))
  /\ resultOf (confirmTransaction Base58.decode Fixtures.lastFires
                 Fixtures.signature None Fixtures.oneDown)
     <> Err (NotConfirmed (endTime Fixtures.lastFires
                           - startTime Fixtures.lastFires) Fixtures.signature).
Proof. vm_compute. repeat split; discriminate. Qed.

Lemma confirmTransaction_result_witness :
  resultOf (confirmTransaction Base58.decode Fixtures.threeReactionsApart
              Fixtures.signature None Fixtures.twoEndpoints)
  = Ok {| context := {| slot := 42 |}; value := {| err := None |} |}
  /\ thisOf (confirmTransaction Base58.decode Fixtures.threeReactionsApart
               Fixtures.signature None Fixtures.twoEndpoints)
     = Fixtures.twoEndpoints
  /\ (forall later,
        confirmTransaction Base58.decode
          (withLaterJobs Fixtures.threeReactionsApart later)
          Fixtures.signature None Fixtures.twoEndpoints
        = confirmTransaction Base58.decode Fixtures.threeReactionsApart
            Fixtures.signature None Fixtures.twoEndpoints)
  /\ (forall before turn rest after later,
        jobs Fixtures.threeReactionsApart = before ++ turn :: after ->
        resumedWithin 2 turn = true ->
        confirmTransaction Base58.decode
          (withJobs Fixtures.threeReactionsApart
             (before ++ (turn ++ rest) :: later))
          Fixtures.signature None Fixtures.twoEndpoints
        = confirmTransaction Base58.decode Fixtures.threeReactionsApart
            Fixtures.signature None Fixtures.twoEndpoints).
Proof.
  exact (confirmTransaction_result Base58.decode Fixtures.threeReactionsApart
           Fixtures.signature None Fixtures.twoEndpoints
           (Fixtures.success 42 1) eq_refl eq_refl eq_refl).
Defined.

(** C3 as stated, where the first callback to fire decides the result,
    fails when the second endpoint fires first, with slot 42, and the
    first endpoint fires right after it, with slot 43, before the
    reactions of the call have run: the later callback overwrites the
    response and the call returns slot 43. *)
Lemma first_callback_counterexample :
  decodesTo64 Base58.decode Fixtures.signature = true
  /\ jobs Fixtures.bothFire
     = [[Invoke (Fixtures.success 42 1); Invoke (Fixtures.success 43 0)]]
  /\ resultOf (confirmTransaction Base58.decode Fixtures.bothFire
                 Fixtures.signature None Fixtures.twoEndpoints)
     = Ok {| context := {| slot := 43 |}; value := {| err := None |} |}
  /\ resultOf (confirmTransaction Base58.decode Fixtures.bothFire
                 Fixtures.signature None Fixtures.twoEndpoints)
     <> Ok (payload (Fixtures.success 42 1)).
Proof. vm_compute. repeat split. discriminate. Qed.

(** The resumption of the call, three reactions after the first
    callback.  A callback invoked two reactions after the first one
    still overwrites the response, and its subscription is not removed; a
    callback invoked three reactions after it comes after the call has
    returned, and after its subscription was removed. *)
Example confirmTransaction_resumes_after_three_reactions :
  resultOf (confirmTransaction Base58.decode Fixtures.twoReactionsApart
              Fixtures.signature None Fixtures.twoEndpoints)
  = Ok {| context := {| slot := 43 |}; value := {| err := None |} |}
  /\ removals (traceOf (confirmTransaction Base58.decode
                          Fixtures.twoReactionsApart Fixtures.signature None
                          Fixtures.twoEndpoints)) = []
  /\ resultOf (confirmTransaction Base58.decode Fixtures.threeReactionsApart
                 Fixtures.signature None Fixtures.twoEndpoints)
     = Ok {| context := {| slot := 42 |}; value := {| err := None |} |}
  /\ removals (traceOf (confirmTransaction Base58.decode
                          Fixtures.threeReactionsApart Fixtures.signature None
                          Fixtures.twoEndpoints)) = [(0%nat, 1)].
Proof. vm_compute. repeat split. Qed.

Lemma confirmTransaction_timeout_witness :
  (resultOf (confirmTransaction Base58.decode Fixtures.silence
               Fixtures.signature None Fixtures.twoEndpoints)
   = Err (NotConfirmed 35000 Fixtures.signature)
   /\ thisOf (confirmTransaction Base58.decode Fixtures.silence
                Fixtures.signature None Fixtures.twoEndpoints)
      = withTimeoutCount Fixtures.twoEndpoints 1
   /\ timeoutCount (thisOf (confirmTransaction Base58.decode Fixtures.silence
                              Fixtures.signature None Fixtures.twoEndpoints))
      = 1)
  /\ timeoutCount (confirmEach Base58.decode Fixtures.twoEndpoints
                     Fixtures.unansweredCalls)
     = 0 + 3.
Proof.
  split.
  - apply (proj1 (confirmTransaction_timeout Base58.decode
                    Fixtures.twoEndpoints)
             Fixtures.silence Fixtures.signature None).
    split; [reflexivity | split; [reflexivity | repeat constructor]].
  - apply (proj1 (proj2 (confirmTransaction_timeout Base58.decode
                           Fixtures.twoEndpoints))
             Fixtures.unansweredCalls).
    repeat constructor.
Defined.

(** C5 as stated, for every call in which no callback fires before the
    timeout, fails when the registration on an endpoint throws: no
    callback fires, yet the call ends with the error of the registration,
    not with the not-confirmed error, and the counter stays where it
    was. *)
Lemma timeout_counterexample :
  decodesTo64 Base58.decode Fixtures.signature = true
  /\ quiet Fixtures.silence
  /\ resultOf (confirmTransaction Base58.decode Fixtures.silence
                 Fixtures.signature None Fixtures.oneDown)
     = Err (Thrown "socket closed")
  /\ (forall elapsed,
        resultOf (confirmTransaction Base58.decode Fixtures.silence
                    Fixtures.signature None Fixtures.oneDown)
        <> Err (NotConfirmed elapsed Fixtures.signature))
  /\ timeoutCount (thisOf (confirmTransaction Base58.decode Fixtures.silence
                             Fixtures.signature None Fixtures.oneDown))
     = timeoutCount Fixtures.oneDown
  /\ timeoutCount (thisOf (confirmTransaction Base58.decode Fixtures.silence
                             Fixtures.signature None Fixtures.oneDown))
     <> timeoutCount Fixtures.oneDown + 1.
Proof.
  split; [vm_compute; reflexivity |]. split; [repeat constructor |].
  split; [vm_compute; reflexivity |].
  split; [intros elapsed; vm_compute; discriminate |].
  split; [vm_compute; reflexivity | vm_compute; discriminate].
Qed.

(** The scenario of the 100 ms sender: one endpoint that never calls
    back; the counter goes from 0 to 1, and to 3 after three such calls. *)
Example confirmTransaction_timeout_scenario :
  resultOf (confirmTransaction Base58.decode Scenarios.shortSilence
              Fixtures.signature None
              (new_BaseTxSender Fixtures.primary Fixtures.wallet None
                 (Some 100) None))
  = Err (NotConfirmed 100 Fixtures.signature)
  /\ timeoutCount
       (thisOf (confirmTransaction Base58.decode Scenarios.shortSilence
                  Fixtures.signature None
                  (new_BaseTxSender Fixtures.primary Fixtures.wallet None
                     (Some 100) None))) = 1
  /\ timeoutCount
       (confirmEach Base58.decode
          (new_BaseTxSender Fixtures.primary Fixtures.wallet None
             (Some 100) None)
          [(Scenarios.shortSilence, Fixtures.signature, None);
           (Scenarios.shortSilence, Fixtures.zeroSignature, None);
           (Scenarios.shortSilence, Fixtures.signature, Some finalized)])
     = 3.
Proof. vm_compute. repeat split. Qed.

Lemma timeoutCount_monotone_witness :
  resultOf (getTimeoutCount Fixtures.twoEndpoints) = Ok 0
  /\ resultOf (getTimeoutCount
                 (performAll Base58.decode Fixtures.partialSign
                    Fixtures.serialize Fixtures.sign Fixtures.serializeVersioned
                    Fixtures.compileToV0Message BaseTxSender_sendRawTransaction
                    Fixtures.twoEndpoints Fixtures.session))
     = Ok 2
  /\ 0 <= 2
  /\ (forall call, reachesSubclass call = false ->
        timeoutCount
          (perform Base58.decode Fixtures.partialSign Fixtures.serialize
             Fixtures.sign Fixtures.serializeVersioned
             Fixtures.compileToV0Message BaseTxSender_sendRawTransaction
             (performAll Base58.decode Fixtures.partialSign
                Fixtures.serialize Fixtures.sign Fixtures.serializeVersioned
                Fixtures.compileToV0Message BaseTxSender_sendRawTransaction
                Fixtures.twoEndpoints Fixtures.session)
             call)
        = 2 + (if timesOut Base58.decode
                    (performAll Base58.decode Fixtures.partialSign
                       Fixtures.serialize Fixtures.sign
                       Fixtures.serializeVersioned Fixtures.compileToV0Message
                       BaseTxSender_sendRawTransaction
                       Fixtures.twoEndpoints Fixtures.session)
                    call
               then 1 else 0)).
Proof.
  exact (timeoutCount_monotone Base58.decode Fixtures.partialSign
           Fixtures.serialize Fixtures.sign Fixtures.serializeVersioned
           Fixtures.compileToV0Message BaseTxSender_sendRawTransaction
           (fun raw o s => Z.le_refl (timeoutCount s))
           Fixtures.twoEndpoints Fixtures.session).
Defined.

(** * Further properties *)

(** ** Preparing a transaction *)

Section Preparing.

Variable partialSign : Signer -> Transaction -> Answer Transaction.

Lemma partialSignEach_all (kps : list Signer) (tx tx' : Transaction)
    (s : BaseTxSender) :
  partialSignAll partialSign kps tx = Returns tx' ->
  partialSignEach partialSign kps tx s = (Ok tx', s, PartialSign <$> kps).
Proof.
  revert tx. induction kps as [|kp rest IH]; intros tx H; cbn in H.
  - injection H as ->. reflexivity.
  - cbn [partialSignEach].
    rewrite (bind_ok _ _ s s tt [PartialSign kp]) by reflexivity.
    destruct (partialSign kp tx) as [tx1|what]; [| discriminate].
    rewrite (bind_ok _ _ s s tx1 []) by reflexivity.
    now rewrite (IH tx1 H).
Qed.

Lemma partialSignEach_stops (before after : list Signer) (kp : Signer)
    (tx tx' : Transaction) (what : string) (s : BaseTxSender) :
  partialSignAll partialSign before tx = Returns tx' ->
  partialSign kp tx' = Throws what ->
  partialSignEach partialSign (before ++ kp :: after) tx s
  = (Err (Thrown what), s, PartialSign <$> (before ++ [kp])).
Proof.
  revert tx. induction before as [|k rest IH]; intros tx H Hkp; cbn in H.
  - injection H as ->. cbn [app partialSignEach].
    rewrite (bind_ok _ _ s s tt [PartialSign kp]) by reflexivity.
    rewrite Hkp. reflexivity.
  - cbn [app partialSignEach].
    rewrite (bind_ok _ _ s s tt [PartialSign k]) by reflexivity.
    destruct (partialSign k tx) as [tx1|w]; [| discriminate].
    rewrite (bind_ok _ _ s s tx1 []) by reflexivity.
    now rewrite (IH tx1 H Hkp).
Qed.

Lemma prepareTx_stamped (tx : Transaction) (signers : list (option Signer))
    (o : ConfirmOptions) (s : BaseTxSender) (h : Blockhash) :
  Connection.getLatestBlockhash (connection s) (preflightCommitment o)
  = Returns h ->
  let rest :=
    (let* tx3 := partialSignEach partialSign (omap id signers)
                   (stamped s h tx) in
     emit WalletSignTransaction ;;
     let* signedTx := liftR (Wallet.signTransaction (wallet s) tx3) in
     ret signedTx) s in
  prepareTx partialSign tx signers o s
  = (resultOf rest, thisOf rest, stamping s o h ++ traceOf rest).
Proof.
  intros Hh rest. unfold prepareTx.
  rewrite (bind_ok getThis _ s s s []) by reflexivity.
  rewrite (bind_ok _ _ s s tt [WriteFeePayer (Wallet.publicKey (wallet s))])
    by reflexivity.
  rewrite (bind_ok _ _ s s tt
             [GetLatestBlockhash (Connection.rpcEndpoint (connection s))
                (preflightCommitment o)]) by reflexivity.
  rewrite Hh. rewrite (bind_ok _ _ s s h []) by reflexivity.
  rewrite (bind_ok _ _ s s tt [WriteRecentBlockhash h]) by reflexivity.
  cbv beta zeta.
  match goal with
  | |- context [bind ?m ?k s] => change (bind m k s) with rest
  end.
  clearbody rest. now destruct rest as [[r s'] t].
Qed.

(** X1: when the fetch answers a blockhash and no signer throws,
    [prepareTx] writes the wallet's key as fee payer and the fetched
    blockhash over whatever the transaction held, applies [partialSign]
    for every defined signer in the order given, skipping the undefined
    entries, and ends with the wallet's [signTransaction], whose answer,
    value or error, is the outcome of the call. *)
Theorem prepareTx_signs_in_order (tx tx3 : Transaction)
    (signers : list (option Signer)) (o : ConfirmOptions)
    (s : BaseTxSender) (h : Blockhash) :
  Connection.getLatestBlockhash (connection s) (preflightCommitment o)
  = Returns h ->
  partialSignAll partialSign (omap id signers) (stamped s h tx) = Returns tx3 ->
  prepareTx partialSign tx signers o s
  = (match Wallet.signTransaction (wallet s) tx3 with
     | Returns signedTx => Ok signedTx
     | Throws what => Err (Thrown what)
     end,
     s,
     stamping s o h ++ (PartialSign <$> omap id signers)
     ++ [WalletSignTransaction]).
Proof.
  intros Hh Hall. rewrite (prepareTx_stamped tx signers o s h Hh).
  cbv zeta.
  rewrite (bind_ok _ _ _ _ _ _ (partialSignEach_all _ _ _ s Hall)).
  rewrite (bind_ok _ _ s s tt [WalletSignTransaction]) by reflexivity.
  unfold resultOf, thisOf, traceOf, bind, liftR, ret, throw; cbn [fst snd].
  destruct (Wallet.signTransaction (wallet s) tx3); cbn;
    rewrite ?app_nil_r; reflexivity.
Qed.

(** X2: when [partialSign] throws for one of the defined signers,
    [prepareTx] fails with that error: the signers after it are not asked
    and the wallet's [signTransaction] is not invoked. *)
Theorem prepareTx_signer_failure (tx tx' : Transaction)
    (signers : list (option Signer)) (before after : list Signer)
    (kp : Signer) (o : ConfirmOptions) (s : BaseTxSender) (h : Blockhash)
    (what : string) :
  Connection.getLatestBlockhash (connection s) (preflightCommitment o)
  = Returns h ->
  omap id signers = before ++ kp :: after ->
  partialSignAll partialSign before (stamped s h tx) = Returns tx' ->
  partialSign kp tx' = Throws what ->
  prepareTx partialSign tx signers o s
  = (Err (Thrown what), s,
     stamping s o h ++ (PartialSign <$> (before ++ [kp])))
  /\ (WalletSignTransaction ∉ traceOf (prepareTx partialSign tx signers o s))
  /\ (forall k, k ∈ after -> k ∉ before ++ [kp] ->
      PartialSign k ∉ traceOf (prepareTx partialSign tx signers o s)).
Proof.
  intros Hh Hsplit Hbefore Hkp.
  assert (E : prepareTx partialSign tx signers o s
              = (Err (Thrown what), s,
                 stamping s o h ++ (PartialSign <$> (before ++ [kp])))).
  { rewrite (prepareTx_stamped tx signers o s h Hh), Hsplit. cbv zeta.
    rewrite (bind_err _ _ _ _ _ _
               (partialSignEach_stops before after kp _ _ what s Hbefore Hkp)).
    reflexivity. }
  split; [exact E |]. rewrite E. unfold traceOf; cbn [snd].
  split.
  - intros Hin. apply elem_of_app in Hin as [Hin | Hin].
    + unfold stamping in Hin.
      repeat (apply elem_of_cons in Hin as [Hin | Hin]; [discriminate |]).
      now apply elem_of_nil in Hin.
    + apply list_elem_of_fmap in Hin as (k & Hk & _). discriminate.
  - intros k _ Hk Hin. apply elem_of_app in Hin as [Hin | Hin].
    + unfold stamping in Hin.
      repeat (apply elem_of_cons in Hin as [Hin | Hin]; [discriminate |]).
      now apply elem_of_nil in Hin.
    + apply list_elem_of_fmap in Hin as (k' & Hk' & Hin').
      injection Hk' as ->. contradiction.
Qed.

End Preparing.

Lemma prepareTx_signs_in_order_witness :
  prepareTx Fixtures.partialSign Fixtures.transaction
    [Some Scenarios.other; None; Some Fixtures.keypair]
    AnchorProvider_defaultOptions Fixtures.twoEndpoints
  = (Ok {| feePayer := Some Fixtures.walletKey;
           recentBlockhash :=
             Some "EkSnNWid2cvwEVnVx9aBqawnmiCNiDgp3gUdkDPTKN1N";
           instructions := ["transfer"];
           signatures := [signerPublicKey Scenarios.other;
                          signerPublicKey Fixtures.keypair;
                          Fixtures.walletKey] |},
     Fixtures.twoEndpoints,
     stamping Fixtures.twoEndpoints AnchorProvider_defaultOptions
       "EkSnNWid2cvwEVnVx9aBqawnmiCNiDgp3gUdkDPTKN1N"
     ++ [PartialSign Scenarios.other; PartialSign Fixtures.keypair]
     ++ [WalletSignTransaction]).
Proof.
  exact (prepareTx_signs_in_order Fixtures.partialSign Fixtures.transaction _
           [Some Scenarios.other; None; Some Fixtures.keypair]
           AnchorProvider_defaultOptions Fixtures.twoEndpoints
           "EkSnNWid2cvwEVnVx9aBqawnmiCNiDgp3gUdkDPTKN1N" eq_refl eq_refl).
Defined.

Lemma prepareTx_signer_failure_witness :
  prepareTx Scenarios.partialSign Fixtures.transaction
    [Some Scenarios.other; Some Scenarios.stranger; Some Fixtures.keypair]
    AnchorProvider_defaultOptions Fixtures.twoEndpoints
  = (Err (Thrown "unknown signer"), Fixtures.twoEndpoints,
     stamping Fixtures.twoEndpoints AnchorProvider_defaultOptions
       "EkSnNWid2cvwEVnVx9aBqawnmiCNiDgp3gUdkDPTKN1N"
     ++ [PartialSign Scenarios.other; PartialSign Scenarios.stranger])
  /\ (WalletSignTransaction
      ∉ traceOf (prepareTx Scenarios.partialSign Fixtures.transaction
                   [Some Scenarios.other; Some Scenarios.stranger;
                    Some Fixtures.keypair]
                   AnchorProvider_defaultOptions Fixtures.twoEndpoints))
  /\ (forall k, k ∈ [Fixtures.keypair] ->
      k ∉ [Scenarios.other] ++ [Scenarios.stranger] ->
      PartialSign k
      ∉ traceOf (prepareTx Scenarios.partialSign Fixtures.transaction
                   [Some Scenarios.other; Some Scenarios.stranger;
                    Some Fixtures.keypair]
                   AnchorProvider_defaultOptions Fixtures.twoEndpoints)).
Proof.
  exact (prepareTx_signer_failure Scenarios.partialSign Fixtures.transaction _
           [Some Scenarios.other; Some Scenarios.stranger; Some Fixtures.keypair]
           [Scenarios.other] [Fixtures.keypair] Scenarios.stranger
           AnchorProvider_defaultOptions Fixtures.twoEndpoints
           "EkSnNWid2cvwEVnVx9aBqawnmiCNiDgp3gUdkDPTKN1N" "unknown signer"
           eq_refl eq_refl eq_refl eq_refl).
Defined.

(** ** Sending *)

Section Pipeline.

Variable partialSign : Signer -> Transaction -> Answer Transaction.
Variable serialize : Transaction -> Answer Buffer.
Variable sign :
  list (option Signer) -> VersionedTransaction -> Answer VersionedTransaction.
Variable serializeVersioned : VersionedTransaction -> Answer Buffer.

Lemma send_unsigned (hook : Buffer -> ConfirmOptions -> M TxSigAndSlot)
    (tx : Transaction) (signers : option (list (option Signer)))
    (o : option ConfirmOptions) (preSigned : option bool) (s : BaseTxSender) :
  isSet preSigned = false ->
  send partialSign serialize hook tx signers o preSigned s
  = (let* signedTx := prepareTx partialSign tx (default [] signers)
                        (default (opts s) o) in
     let* raw := liftR (serialize signedTx) in
     hook raw (default (opts s) o)) s.
Proof.
  intros Hp. unfold send.
  rewrite (bind_ok getThis _ s s s []) by reflexivity. rewrite Hp.
  match goal with |- (?a, ?b, [] ++ ?t) = ?o => change (a, b, t) with
    (resultOf o, thisOf o, traceOf o) end.
  now destruct (bind _ _ s) as [[r s'] t].
Qed.

(** X3: when [prepareTx] fails, or [serialize] throws on the signed
    transaction, [send] fails with that error and its outcome is the same
    whatever the [sendRawTransaction] of the subclass is: nothing is
    submitted, the sender is unchanged, and the trace is the one of
    [prepareTx]. *)
Theorem send_failure_before_submission
    (hook1 hook2 : Buffer -> ConfirmOptions -> M TxSigAndSlot)
    (tx : Transaction) (signers : option (list (option Signer)))
    (o : option ConfirmOptions) (preSigned : option bool) (s : BaseTxSender)
    (e : Error) :
  isSet preSigned = false ->
  (resultOf (prepareTx partialSign tx (default [] signers)
               (default (opts s) o) s) = Err e
   \/ exists signedTx what,
        resultOf (prepareTx partialSign tx (default [] signers)
                    (default (opts s) o) s) = Ok signedTx
        /\ serialize signedTx = Throws what /\ e = Thrown what) ->
  send partialSign serialize hook1 tx signers o preSigned s
  = (Err e, s,
     traceOf (prepareTx partialSign tx (default [] signers)
                (default (opts s) o) s))
  /\ send partialSign serialize hook2 tx signers o preSigned s
     = send partialSign serialize hook1 tx signers o preSigned s.
Proof.
  intros Hp Hfail.
  enough (G : forall hook,
    send partialSign serialize hook tx signers o preSigned s
    = (Err e, s,
       traceOf (prepareTx partialSign tx (default [] signers)
                  (default (opts s) o) s))).
  { split; [apply G | now rewrite !G]. }
  intros hook. rewrite (send_unsigned hook tx signers o preSigned s Hp).
  pose proof (prepareTx_keepsThis partialSign tx (default [] signers)
                (default (opts s) o) s) as Hs.
  destruct (prepareTx partialSign tx (default [] signers)
              (default (opts s) o) s) as [[r s'] t] eqn:E.
  cbn in Hs. subst s'. unfold resultOf, traceOf in *; cbn [fst snd] in *.
  destruct Hfail as [-> | (signedTx & what & -> & Hser & ->)].
  - now rewrite (bind_err _ _ _ _ _ _ E).
  - rewrite (bind_ok _ _ _ _ _ _ E), Hser.
    unfold resultOf, thisOf, traceOf, bind, liftR, throw; cbn.
    now rewrite app_nil_r.
Qed.

(** X4: when [prepareTx] returns a signed transaction and [serialize]
    returns its bytes, [send] hands exactly these bytes to
    [sendRawTransaction], with the options of the call or, when it has
    none, those of the instance; the outcome of [send] is that of
    [sendRawTransaction], after the events of [prepareTx]. *)
Theorem send_submits_signed_bytes
    (hook : Buffer -> ConfirmOptions -> M TxSigAndSlot)
    (tx signedTx : Transaction) (signers : option (list (option Signer)))
    (o : option ConfirmOptions) (preSigned : option bool) (s : BaseTxSender)
    (raw : Buffer) :
  isSet preSigned = false ->
  resultOf (prepareTx partialSign tx (default [] signers)
              (default (opts s) o) s) = Ok signedTx ->
  serialize signedTx = Returns raw ->
  send partialSign serialize hook tx signers o preSigned s
  = (resultOf (hook raw (default (opts s) o) s),
     thisOf (hook raw (default (opts s) o) s),
     traceOf (prepareTx partialSign tx (default [] signers)
                (default (opts s) o) s)
     ++ traceOf (hook raw (default (opts s) o) s)).
Proof.
  intros Hp Hprep Hser.
  rewrite (send_unsigned hook tx signers o preSigned s Hp).
  pose proof (prepareTx_keepsThis partialSign tx (default [] signers)
                (default (opts s) o) s) as Hs.
  destruct (prepareTx partialSign tx (default [] signers)
              (default (opts s) o) s) as [[r s'] t] eqn:E.
  cbn in Hs, Hprep. subst s' r.
  rewrite (bind_ok _ _ _ _ _ _ E), Hser.
  rewrite (bind_ok _ _ s s raw []) by reflexivity.
  reflexivity.
Qed.

Lemma signEach_all (kps : list Signer) (tx tx' : VersionedTransaction)
    (s : BaseTxSender) :
  signAll sign kps tx = Returns tx' ->
  signEach sign kps tx s = (Ok tx', s, (fun kp => Sign [Some kp]) <$> kps).
Proof.
  revert tx. induction kps as [|kp rest IH]; intros tx H; cbn in H.
  - injection H as ->. reflexivity.
  - cbn [signEach].
    rewrite (bind_ok _ _ s s tt [Sign [Some kp]]) by reflexivity.
    destruct (sign [Some kp] tx) as [tx1|what]; [| discriminate].
    rewrite (bind_ok _ _ s s tx1 []) by reflexivity.
    now rewrite (IH tx1 H).
Qed.

(** X5: when the wallet exposes a local keypair, [sendVersionedTransaction]
    of a transaction that is not pre-signed makes one call of [tx.sign]
    with the additional signers as given, undefined entries included,
    followed by the keypair; the wallet's [signTransaction] plays no part,
    and nothing is submitted when [sign] or [serialize] throws. *)
Theorem sendVersionedTransaction_local_payer
    (hook : Buffer -> ConfirmOptions -> M TxSigAndSlot)
    (tx : VersionedTransaction) (signers : option (list (option Signer)))
    (o : option ConfirmOptions) (preSigned : option bool) (s : BaseTxSender)
    (payer : Signer) :
  isSet preSigned = false ->
  Wallet.payer (wallet s) = Some payer ->
  let kps := default [] signers ++ [Some payer] in
  sendVersionedTransaction sign serializeVersioned hook tx signers o
    preSigned s
  = match sign kps tx with
    | Throws what => (Err (Thrown what), s, [Sign kps])
    | Returns signedTx =>
        match serializeVersioned signedTx with
        | Throws what => (Err (Thrown what), s, [Sign kps])
        | Returns raw =>
            (resultOf (hook raw (default (opts s) o) s),
             thisOf (hook raw (default (opts s) o) s),
             [Sign kps] ++ traceOf (hook raw (default (opts s) o) s))
        end
    end.
Proof.
  intros Hp Hpayer kps. unfold sendVersionedTransaction.
  rewrite (bind_ok getThis _ s s s []) by reflexivity.
  rewrite Hp, Hpayer. cbv zeta. subst kps.
  set (kps := default [] signers ++ [Some payer]).
  destruct (sign kps tx) as [signedTx|what] eqn:Hsign.
  - rewrite (bind_ok _ _ s s signedTx [Sign kps])
      by reflexivity.
    destruct (serializeVersioned signedTx) as [raw|what].
    + rewrite (bind_ok _ _ s s raw []) by reflexivity. reflexivity.
    + reflexivity.
  - rewrite (bind_err _ _ s s (Thrown what) [Sign kps])
      by reflexivity.
    reflexivity.
Qed.

Lemma signEach_stops (before after : list Signer) (kp : Signer)
    (tx tx' : VersionedTransaction) (what : string) (s : BaseTxSender) :
  signAll sign before tx = Returns tx' ->
  sign [Some kp] tx' = Throws what ->
  signEach sign (before ++ kp :: after) tx s
  = (Err (Thrown what), s, (fun k => Sign [Some k]) <$> (before ++ [kp])).
Proof.
  revert tx. induction before as [|k rest IH]; intros tx H Hkp; cbn in H.
  - injection H as ->. cbn [app signEach].
    rewrite (bind_ok _ _ s s tt [Sign [Some kp]]) by reflexivity.
    rewrite Hkp. reflexivity.
  - cbn [app signEach].
    rewrite (bind_ok _ _ s s tt [Sign [Some k]]) by reflexivity.
    destruct (sign [Some k] tx) as [tx1|w]; [| discriminate].
    rewrite (bind_ok _ _ s s tx1 []) by reflexivity.
    now rewrite (IH tx1 H Hkp).
Qed.

(** X6: when the wallet has no local keypair, [sendVersionedTransaction]
    of a transaction that is not pre-signed calls [tx.sign] for the
    defined additional signers, one at a time and in the order given.
    When none of these calls throws, the transaction goes to the wallet's
    [signTransaction]; the wallet's error, or the error of [serialize],
    ends the call before anything is submitted.  When one of them throws,
    the call fails with that error: the signers after it and the wallet
    are not asked, and nothing is submitted. *)
Theorem sendVersionedTransaction_wallet
    (hook : Buffer -> ConfirmOptions -> M TxSigAndSlot)
    (tx : VersionedTransaction) (signers : option (list (option Signer)))
    (o : option ConfirmOptions) (preSigned : option bool) (s : BaseTxSender) :
  isSet preSigned = false ->
  Wallet.payer (wallet s) = None ->
  let kps := omap id (default [] signers) in
  let out := sendVersionedTransaction sign serializeVersioned hook tx signers
               o preSigned s in
  (forall tx', signAll sign kps tx = Returns tx' ->
     let signed := ((fun kp => Sign [Some kp]) <$> kps)
                   ++ [WalletSignTransaction] in
     out = match Wallet.signVersionedTransaction (wallet s) tx' with
           | Throws what => (Err (Thrown what), s, signed)
           | Returns signedTx =>
               match serializeVersioned signedTx with
               | Throws what => (Err (Thrown what), s, signed)
               | Returns raw =>
                   (resultOf (hook raw (default (opts s) o) s),
                    thisOf (hook raw (default (opts s) o) s),
                    signed ++ traceOf (hook raw (default (opts s) o) s))
               end
           end)
  /\ (forall before kp after tx1 what,
        kps = before ++ kp :: after ->
        signAll sign before tx = Returns tx1 ->
        sign [Some kp] tx1 = Throws what ->
        out = (Err (Thrown what), s,
               (fun k => Sign [Some k]) <$> (before ++ [kp]))
        /\ (WalletSignTransaction ∉ traceOf out)
        /\ (forall k, k ∈ after -> k ∉ before ++ [kp] ->
            Sign [Some k] ∉ traceOf out)
        /\ (forall url raw o', SendRawTransaction url raw o' ∉ traceOf out)).
Proof.
  intros Hp Hpayer kps out. split.
  - intros tx' Hall signed. unfold out, sendVersionedTransaction.
    rewrite (bind_ok getThis _ s s s []) by reflexivity.
    rewrite Hp, Hpayer.
    assert (Hfirst :
      match signers with
      | Some kps => signEach sign (omap id kps) tx
      | None => ret tx
      end s
      = (Ok tx', s, (fun kp => Sign [Some kp]) <$> kps)).
    { unfold kps in *. destruct signers as [l|]; cbn in *.
      - now apply signEach_all.
      - injection Hall as ->. reflexivity. }
    destruct (Wallet.signVersionedTransaction (wallet s) tx')
      as [signedTx|what] eqn:Hw.
    + rewrite (bind_ok _ _ s s signedTx signed).
      * destruct (serializeVersioned signedTx) as [raw|what].
        -- rewrite (bind_ok _ _ s s raw []) by reflexivity. reflexivity.
        -- unfold resultOf, thisOf, traceOf, bind, liftR, throw; cbn.
           now rewrite app_nil_r.
      * rewrite (bind_ok _ _ _ _ _ _ Hfirst).
        unfold resultOf, thisOf, traceOf, bind, emit, liftR; cbn.
        now rewrite Hw.
    + rewrite (bind_err _ _ s s (Thrown what) signed); [reflexivity |].
      rewrite (bind_ok _ _ _ _ _ _ Hfirst).
      unfold resultOf, thisOf, traceOf, bind, emit, liftR; cbn.
      now rewrite Hw.
  - intros before kp after tx1 what Hsplit Hbefore Hkp.
    unfold out, sendVersionedTransaction.
    rewrite (bind_ok getThis _ s s s []) by reflexivity.
    rewrite Hp, Hpayer.
    assert (Hfirst :
      match signers with
      | Some kps => signEach sign (omap id kps) tx
      | None => ret tx
      end s
      = (Err (Thrown what), s, (fun k => Sign [Some k]) <$> (before ++ [kp]))).
    { unfold kps in Hsplit. destruct signers as [l|]; cbn in Hsplit.
      - rewrite Hsplit. now apply signEach_stops with (tx' := tx1).
      - now destruct before. }
    rewrite (bind_err _ _ s s (Thrown what)
               ((fun k => Sign [Some k]) <$> (before ++ [kp])));
      [| now rewrite (bind_err _ _ _ _ _ _ Hfirst)].
    split; [reflexivity |]. unfold traceOf; cbn [snd].
    split; [| split].
    + intros Hin. apply list_elem_of_fmap in Hin as (k & Hk & _). discriminate.
    + intros k _ Hk Hin. apply list_elem_of_fmap in Hin as (k' & Hk' & Hin').
      injection Hk' as ->. contradiction.
    + intros url raw o' Hin.
      apply list_elem_of_fmap in Hin as (k & Hk & _). discriminate.
Qed.

End Pipeline.

Lemma send_failure_before_submission_witness :
  send Scenarios.partialSign Fixtures.serialize BaseTxSender_sendRawTransaction
    Fixtures.transaction (Some [Some Scenarios.stranger]) None None
    Fixtures.twoEndpoints
  = (Err (Thrown "unknown signer"), Fixtures.twoEndpoints,
     traceOf (prepareTx Scenarios.partialSign Fixtures.transaction
                [Some Scenarios.stranger] AnchorProvider_defaultOptions
                Fixtures.twoEndpoints))
  /\ send Scenarios.partialSign Fixtures.serialize Scenarios.sendOnPrimary
       Fixtures.transaction (Some [Some Scenarios.stranger]) None None
       Fixtures.twoEndpoints
     = send Scenarios.partialSign Fixtures.serialize
         BaseTxSender_sendRawTransaction
         Fixtures.transaction (Some [Some Scenarios.stranger]) None None
         Fixtures.twoEndpoints.
Proof.
  exact (send_failure_before_submission Scenarios.partialSign
           Fixtures.serialize BaseTxSender_sendRawTransaction
           Scenarios.sendOnPrimary Fixtures.transaction
           (Some [Some Scenarios.stranger]) None None Fixtures.twoEndpoints
           (Thrown "unknown signer") eq_refl (or_introl eq_refl)).
Defined.

Lemma send_submits_signed_bytes_witness :
  send Fixtures.partialSign Fixtures.serialize Scenarios.sendOnPrimary
    Fixtures.transaction None None None Fixtures.twoEndpoints
  = (Ok {| txSig := Fixtures.signature; txSlot := 7 |},
     Fixtures.twoEndpoints,
     traceOf (prepareTx Fixtures.partialSign Fixtures.transaction []
                AnchorProvider_defaultOptions Fixtures.twoEndpoints)
     ++ [SendRawTransaction "https://rpc.one" [x01; x00; x2a]
           AnchorProvider_defaultOptions]).
Proof.
  exact (send_submits_signed_bytes Fixtures.partialSign Fixtures.serialize
           Scenarios.sendOnPrimary Fixtures.transaction
           {| feePayer := Some Fixtures.walletKey;
              recentBlockhash :=
                Some "EkSnNWid2cvwEVnVx9aBqawnmiCNiDgp3gUdkDPTKN1N";
              instructions := ["transfer"];
              signatures := [Fixtures.walletKey] |}
           None None None Fixtures.twoEndpoints [x01; x00; x2a]
           eq_refl eq_refl eq_refl).
Defined.

Lemma sendVersionedTransaction_local_payer_witness :
  sendVersionedTransaction Fixtures.sign Fixtures.serializeVersioned
    Scenarios.sendOnPrimary Scenarios.versioned
    (Some [None; Some Scenarios.other]) None None Scenarios.localSender
  = (Ok {| txSig := Fixtures.signature; txSlot := 7 |},
     Scenarios.localSender,
     [Sign [None; Some Scenarios.other; Some Fixtures.keypair];
      SendRawTransaction "https://rpc.one" [x80; x01; x00]
        AnchorProvider_defaultOptions]).
Proof.
  exact (sendVersionedTransaction_local_payer Fixtures.sign
           Fixtures.serializeVersioned Scenarios.sendOnPrimary
           Scenarios.versioned (Some [None; Some Scenarios.other]) None None
           Scenarios.localSender Fixtures.keypair eq_refl eq_refl).
Defined.

Lemma sendVersionedTransaction_wallet_witness :
  sendVersionedTransaction Fixtures.sign Fixtures.serializeVersioned
    Scenarios.sendOnPrimary Scenarios.versioned
    (Some [None; Some Scenarios.other; Some Fixtures.keypair]) None None
    Fixtures.twoEndpoints
  = (Ok {| txSig := Fixtures.signature; txSlot := 7 |},
     Fixtures.twoEndpoints,
     ([Sign [Some Scenarios.other]; Sign [Some Fixtures.keypair]]
      ++ [WalletSignTransaction])
     ++ [SendRawTransaction "https://rpc.one" [x80; x01; x00]
           AnchorProvider_defaultOptions])
  /\ sendVersionedTransaction Scenarios.sign Fixtures.serializeVersioned
       Scenarios.sendOnPrimary Scenarios.versioned
       (Some [Some Scenarios.other; Some Scenarios.stranger;
              Some Fixtures.keypair]) None None Fixtures.twoEndpoints
     = (Err (Thrown "Cannot sign with non signer key"), Fixtures.twoEndpoints,
        [Sign [Some Scenarios.other]; Sign [Some Scenarios.stranger]]).
Proof.
  split.
  - exact (proj1 (sendVersionedTransaction_wallet Fixtures.sign
             Fixtures.serializeVersioned Scenarios.sendOnPrimary
             Scenarios.versioned
             (Some [None; Some Scenarios.other; Some Fixtures.keypair])
             None None Fixtures.twoEndpoints eq_refl eq_refl)
           {| message := message Scenarios.versioned;
              versionedSignatures :=
                [signerPublicKey Scenarios.other;
                 signerPublicKey Fixtures.keypair] |} eq_refl).
  - exact (proj1 (proj2 (sendVersionedTransaction_wallet Scenarios.sign
             Fixtures.serializeVersioned Scenarios.sendOnPrimary
             Scenarios.versioned
             (Some [Some Scenarios.other; Some Scenarios.stranger;
                    Some Fixtures.keypair])
             None None Fixtures.twoEndpoints eq_refl eq_refl)
           [Scenarios.other] Scenarios.stranger [Fixtures.keypair]
           {| message := message Scenarios.versioned;
              versionedSignatures := [signerPublicKey Scenarios.other] |}
           "Cannot sign with non signer key" eq_refl eq_refl eq_refl)).
Defined.

Lemma bind_fails {A B} (m : M A) (k : A -> M B) :
  (forall a s, exists e, resultOf (k a s) = Err e) ->
  forall s, exists e, resultOf (bind m k s) = Err e.
Proof.
  intros Hk s. unfold bind.
  destruct (m s) as [[[a|e] s1] t1]; [| now exists e].
  destruct (Hk a s1) as [e He]. exists e.
  now destruct (k a s1) as [[r s2] t2].
Qed.

(** X7: the [sendRawTransaction] of [BaseTxSender] itself always throws
    and touches nothing; hence, on an instance that does not override
    it, [send] and [sendVersionedTransaction] never return a signature,
    pre-signed or not, and leave the sender unchanged. *)
Theorem base_class_never_submits
    (partialSign : Signer -> Transaction -> Answer Transaction)
    (serialize : Transaction -> Answer Buffer)
    (sign : list (option Signer) -> VersionedTransaction ->
            Answer VersionedTransaction)
    (serializeVersioned : VersionedTransaction -> Answer Buffer)
    (tx : Transaction) (vtx : VersionedTransaction)
    (signers : option (list (option Signer))) (o : option ConfirmOptions)
    (preSigned : option bool) (raw : Buffer) (o' : ConfirmOptions)
    (s : BaseTxSender) :
  BaseTxSender_sendRawTransaction raw o' s
  = (Err MustBeImplementedBySubclass, s, [])
  /\ (exists e,
        resultOf (send partialSign serialize BaseTxSender_sendRawTransaction
                    tx signers o preSigned s) = Err e)
  /\ thisOf (send partialSign serialize BaseTxSender_sendRawTransaction
               tx signers o preSigned s) = s
  /\ (exists e,
        resultOf (sendVersionedTransaction sign serializeVersioned
                    BaseTxSender_sendRawTransaction vtx signers o preSigned s)
        = Err e)
  /\ thisOf (sendVersionedTransaction sign serializeVersioned
               BaseTxSender_sendRawTransaction vtx signers o preSigned s) = s.
Proof.
  split; [reflexivity |].
  assert (Hbase : forall r o0 s0, exists e,
            resultOf (BaseTxSender_sendRawTransaction r o0 s0) = Err e)
    by (intros; now exists MustBeImplementedBySubclass).
  split; [| split; [| split]].
  - unfold send. apply bind_fails. intros this s0.
    apply bind_fails. intros signedTx s1.
    apply bind_fails. intros r s2. apply Hbase.
  - unfold send. apply keepsThis_bind; [auto with sender |]. intros this.
    apply keepsThis_bind.
    + apply keepsThis_if; [auto with sender | apply prepareTx_keepsThis].
    + intros signedTx. apply keepsThis_bind; [auto with sender |].
      intros r. apply keepsThis_throw.
  - unfold sendVersionedTransaction. apply bind_fails. intros this s0.
    apply bind_fails. intros signedTx s1.
    apply bind_fails. intros r s2. apply Hbase.
  - unfold sendVersionedTransaction.
    apply keepsThis_bind; [auto with sender |]. intros this.
    apply keepsThis_bind.
    + apply keepsThis_if; [auto with sender |].
      destruct (Wallet.payer (wallet this)); [auto 10 with sender |].
      apply keepsThis_bind; [| auto 10 with sender].
      destruct signers; [apply signEach_keepsThis | auto with sender].
    + intros signedTx. apply keepsThis_bind; [auto with sender |].
      intros r. apply keepsThis_throw.
Qed.

(** X8: [getVersionedTransaction] fetches the latest blockhash once, with
    the preflight commitment of the call's options or else of the
    instance's, compiles the message with the wallet's key as payer, and
    returns the transaction without any signature: the additional signers
    it is given have no effect; a failed fetch or a failed compilation is
    the error of the call. *)
Theorem getVersionedTransaction_unsigned
    (compileToV0Message :
       PublicKey -> Blockhash -> list TransactionInstruction ->
       list AddressLookupTableAccount -> Answer MessageV0)
    (ixs : list TransactionInstruction)
    (tables : list AddressLookupTableAccount)
    (signers : option (list (option Signer))) (o : option ConfirmOptions)
    (s : BaseTxSender) :
  getVersionedTransaction compileToV0Message ixs tables signers o s
  = (match Connection.getLatestBlockhash (connection s)
             (preflightCommitment (default (opts s) o)) with
     | Throws what => Err (Thrown what)
     | Returns h =>
         match compileToV0Message (Wallet.publicKey (wallet s)) h ixs tables
         with
         | Throws what => Err (Thrown what)
         | Returns m => Ok {| message := m; versionedSignatures := [] |}
         end
     end,
     s,
     [GetLatestBlockhash (Connection.rpcEndpoint (connection s))
        (preflightCommitment (default (opts s) o))])
  /\ getVersionedTransaction compileToV0Message ixs tables signers o s
     = getVersionedTransaction compileToV0Message ixs tables None o s
  /\ Forall (fun e => signing e = false)
       (traceOf (getVersionedTransaction compileToV0Message ixs tables
                   signers o s)).
Proof.
  assert (E : getVersionedTransaction compileToV0Message ixs tables signers o s
    = (match Connection.getLatestBlockhash (connection s)
               (preflightCommitment (default (opts s) o)) with
       | Throws what => Err (Thrown what)
       | Returns h =>
           match compileToV0Message (Wallet.publicKey (wallet s)) h ixs tables
           with
           | Throws what => Err (Thrown what)
           | Returns m => Ok {| message := m; versionedSignatures := [] |}
           end
       end,
       s,
       [GetLatestBlockhash (Connection.rpcEndpoint (connection s))
          (preflightCommitment (default (opts s) o))])).
  { unfold getVersionedTransaction, bind, getThis, emit, liftR, ret, throw.
    destruct (Connection.getLatestBlockhash _ _) as [h|what]; [| reflexivity].
    now destruct (compileToV0Message _ h ixs tables). }
  split; [exact E |]. split; [reflexivity |].
  rewrite E. unfold traceOf; cbn. repeat constructor.
Qed.

(** ** More on the confirmation race *)

Lemma filter_none {A} (P : A -> Prop) `{forall x, Decision (P x)} (l : list A) :
  Forall (fun x => ~ P x) l -> filter P l = [].
Proof.
  induction 1 as [|x l Hx _ IH]; [reflexivity |].
  now rewrite filter_cons_False.
Qed.

Lemma filter_Forall {A} (P : A -> Prop) `{forall x, Decision (P x)} (l : list A) :
  Forall P l -> filter P l = l.
Proof.
  intros Hall. apply filter_all. now apply Forall_forall.
Qed.

Lemma registering_phase (signature : TransactionSignature)
    (cmt : option Commitment) (conns : list Connection.t) :
  Forall (fun e => isOnSignature e = true /\ isTimer e = false
                   /\ isRemoval e = false)
         (registering signature cmt conns).
Proof.
  apply Forall_forall. intros e He. unfold registering in He.
  apply elem_of_lookup_imap in He as (i & conn & -> & _). now repeat split.
Qed.

Lemma teardown_phase (conns : list Connection.t) (ids : list (option Z))
    (i : nat) :
  Forall (fun e => isOnSignature e = false /\ isTimer e = false
                   /\ isRemoval e = true)
         (teardown conns i ids).
Proof.
  revert i. induction ids as [|o ids IH]; intros i; [constructor |].
  cbn [teardown]. apply Forall_app. split; [| apply IH].
  destruct o as [id|]; [| constructor].
  destruct (conns !! i); [| constructor].
  destruct (id =? 0); repeat constructor.
Qed.

(** A trace made of a registration, timer events and a teardown, in this
    order, is the concatenation of its three phases. *)
Lemma phases (signature : TransactionSignature) (cmt : option Commitment)
    (conns : list Connection.t) (mid : list Event) (ids : list (option Z)) :
  Forall (fun e => isTimer e = true) mid ->
  let t := registering signature cmt conns ++ mid ++ teardown conns 0 ids in
  filter (fun e => isOnSignature e = true) t = registering signature cmt conns
  /\ filter (fun e => isTimer e = true) t = mid
  /\ filter (fun e => isRemoval e = true) t = teardown conns 0 ids.
Proof.
  intros Hmid t. unfold t. rewrite !filter_app.
  pose proof (registering_phase signature cmt conns) as HR.
  pose proof (teardown_phase conns ids 0) as HD.
  assert (HM : Forall (fun e => isOnSignature e = false /\ isTimer e = true
                                /\ isRemoval e = false) mid).
  { eapply Forall_impl; [exact Hmid |]. intros e He. now destruct e. }
  repeat split.
  - rewrite (filter_Forall _ (registering signature cmt conns)),
      (filter_none _ mid), (filter_none _ (teardown conns 0 ids)).
    + now rewrite !app_nil_r.
    + eapply Forall_impl; [exact HD |]. intros e (-> & _). discriminate.
    + eapply Forall_impl; [exact HM |]. intros e (-> & _). discriminate.
    + eapply Forall_impl; [exact HR |]. now intros e (? & _).
  - rewrite (filter_none _ (registering signature cmt conns)),
      (filter_Forall _ mid), (filter_none _ (teardown conns 0 ids)).
    + now rewrite app_nil_r.
    + eapply Forall_impl; [exact HD |]. intros e (_ & -> & _). discriminate.
    + exact Hmid.
    + eapply Forall_impl; [exact HR |]. intros e (_ & -> & _). discriminate.
  - rewrite (filter_none _ (registering signature cmt conns)),
      (filter_none _ mid), (filter_Forall _ (teardown conns 0 ids)).
    + reflexivity.
    + eapply Forall_impl; [exact HD |]. now intros e (_ & _ & ?).
    + eapply Forall_impl; [exact HM |]. intros e (_ & _ & ->). discriminate.
    + eapply Forall_impl; [exact HR |]. intros e (_ & _ & ->). discriminate.
Qed.

Lemma subscribedAt_registering (signature : TransactionSignature)
    (cmt : option Commitment) (conns : list Connection.t) :
  subscribedAt (registering signature cmt conns)
  = Connection.rpcEndpoint <$> conns.
Proof.
  unfold registering.
  enough (G : forall (f : nat -> nat),
    subscribedAt (imap (fun i conn =>
                    OnSignature (f i) (Connection.rpcEndpoint conn)
                      signature cmt) conns)
    = Connection.rpcEndpoint <$> conns) by exact (G (fun i => i)).
  induction conns as [|conn rest IH]; intros f; [reflexivity |].
  cbn. f_equal. exact (IH (fun i => f (S i))).
Qed.

Lemma subscribedAt_filter (t : list Event) :
  subscribedAt (filter (fun e => isOnSignature e = true) t) = subscribedAt t.
Proof.
  induction t as [|e t IH]; [reflexivity |].
  destruct e; try (rewrite filter_cons_False by discriminate; exact IH).
  rewrite filter_cons_True by reflexivity. cbn. now f_equal.
Qed.

Lemma invokedBefore_elem (reactions : nat) (steps : list Step)
    (x : Notification) :
  x ∈ invokedBefore reactions steps -> Invoke x ∈ steps.
Proof.
  revert reactions.
  induction steps as [|[y|] steps IH]; intros [|k] Hx;
    try (now apply elem_of_nil in Hx).
  - cbn in Hx. apply elem_of_cons in Hx as [-> | Hx];
      [now left | right; now apply (IH (S k))].
  - right. now apply (IH k).
Qed.

Lemma settlingTurn_elem (n : nat) (steps : list Step) (x : Notification) :
  x ∈ settlingTurn n steps -> Invoke x ∈ steps /\ (endpoint x < n)%nat.
Proof.
  induction steps as [|[y|] steps IH]; intros Hx.
  - now apply elem_of_nil in Hx.
  - cbn in Hx. destruct (decide (endpoint y < n)%nat) as [Hy|Hy].
    + apply elem_of_cons in Hx as [-> | Hx]; [split; [now left | exact Hy] |].
      apply list_elem_of_filter in Hx as (Hlt & Hin).
      split; [right; now apply invokedBefore_elem in Hin | exact Hlt].
    + destruct (IH Hx) as (Hin & Hlt). split; [now right | exact Hlt].
  - destruct (IH Hx) as (Hin & Hlt). split; [now right | exact Hlt].
Qed.

Lemma settlingJob_elem (n : nat) (js : list (list Step))
    (x : Notification) :
  x ∈ settlingJob n js ->
  exists job, job ∈ js /\ Invoke x ∈ job /\ (endpoint x < n)%nat.
Proof.
  induction js as [|job js IH]; intros Hx; [now apply elem_of_nil in Hx |].
  cbn in Hx.
  destruct (settlingTurn n job) as [|y d] eqn:E.
  - destruct (IH Hx) as (job' & Hj & Hin & Hlt).
    exists job'. split; [apply elem_of_cons; now right | now split].
  - rewrite <- E in Hx. apply settlingTurn_elem in Hx as (Hin & Hlt).
    exists job. split; [apply elem_of_cons; now left | now split].
Qed.

(** The trace of a call with a well-formed signature, in its phases. *)
Lemma confirmTransaction_trace (bs58_decode : string -> option Buffer)
    (sched : Schedule) (signature : TransactionSignature)
    (c : option Commitment) (s : BaseTxSender) :
  decodesTo64 bs58_decode signature = true ->
  let out := confirmTransaction bs58_decode sched signature c s in
  exists (mid : list Event) (ids : list (option Z)),
    traceOf out
    = registering signature (subscriptionCommitmentOf s c) (connectionsOf s)
      ++ mid ++ teardown (connectionsOf s) 0 ids
    /\ mid = match resultOf out with
             | Ok _ => [SetTimeout (timeout s); ClearTimeout]
             | Err (NotConfirmed _ _) =>
                 [SetTimeout (timeout s); TimerFired; ClearTimeout]
             | Err _ => [SetTimeout (timeout s)]
             end.
Proof.
  intros Hv out.
  pose proof (confirmTransaction_valid bs58_decode sched signature c s Hv) as E.
  cbv zeta in E. fold out in E.
  destruct (firstFailure _ _ _) as [what|].
  - rewrite E. exists [SetTimeout (timeout s)]. eexists.
    split; reflexivity.
  - destruct (last _) as [x|] eqn:Hl; rewrite E.
    + destruct (settlingJob _ _) as [|y d] eqn:Hd; [discriminate |].
      exists [SetTimeout (timeout s); ClearTimeout]. eexists.
      split; reflexivity.
    + apply last_None in Hl. rewrite Hl.
      exists [SetTimeout (timeout s); TimerFired; ClearTimeout]. eexists.
      split; reflexivity.
Qed.

Section MoreConfirm.

Variable bs58_decode : string -> option Buffer.

Lemma subscriptions_of_call (sched : Schedule)
    (signature : TransactionSignature) (c : option Commitment)
    (s : BaseTxSender) :
  decodesTo64 bs58_decode signature = true ->
  let out := confirmTransaction bs58_decode sched signature c s in
  filter (fun e => isOnSignature e = true) (traceOf out)
  = registering signature (subscriptionCommitmentOf s c) (connectionsOf s)
  /\ subscribedAt (traceOf out)
     = Connection.rpcEndpoint (connection s) :: additionalEndpoints s.
Proof.
  intros Hv out.
  destruct (confirmTransaction_trace bs58_decode sched signature c s Hv)
    as (mid & ids & Ht & Hmid).
  fold out in Ht, Hmid.
  assert (Htimer : Forall (fun e => isTimer e = true) mid).
  { rewrite Hmid. destruct (resultOf out) as [r|[]]; repeat constructor. }
  destruct (phases signature (subscriptionCommitmentOf s c) (connectionsOf s)
              mid ids Htimer) as (Hreg & _ & _).
  cbv zeta in Hreg. rewrite <- Ht in Hreg.
  split; [exact Hreg |].
  rewrite <- subscribedAt_filter, Hreg. apply subscribedAt_registering.
Qed.

(** X9: for a well-formed signature, [confirmTransaction] opens its
    subscriptions on the primary connection first and then on the
    additional connections in their order, one on each, all for the same
    signature and the same commitment: the argument of the call when it
    has one, else the commitment of the instance's options. *)
Theorem confirmTransaction_subscribes_in_order (sched : Schedule)
    (signature : TransactionSignature) (c : option Commitment)
    (s : BaseTxSender) :
  decodesTo64 bs58_decode signature = true ->
  let out := confirmTransaction bs58_decode sched signature c s in
  filter (fun e => isOnSignature e = true) (traceOf out)
  = imap (fun i conn =>
            OnSignature i (Connection.rpcEndpoint conn) signature
              (match c with Some x => Some x | None => commitment (opts s) end))
         (connection s :: additionalConnections s)
  /\ subscribedAt (traceOf out)
     = Connection.rpcEndpoint (connection s) :: additionalEndpoints s.
Proof.
  intros Hv out.
  destruct (confirmTransaction_trace bs58_decode sched signature c s Hv)
    as (mid & ids & Ht & Hmid).
  fold out in Ht, Hmid.
  assert (Htimer : Forall (fun e => isTimer e = true) mid).
  { rewrite Hmid. destruct (resultOf out) as [r|[]]; repeat constructor. }
  destruct (phases signature (subscriptionCommitmentOf s c) (connectionsOf s)
              mid ids Htimer) as (Hreg & _ & _).
  cbv zeta in Hreg. rewrite <- Ht in Hreg.
  split; [exact Hreg |].
  rewrite <- subscribedAt_filter, Hreg.
  apply (subscribedAt_registering signature (subscriptionCommitmentOf s c)
           (connectionsOf s)).
Qed.

(** X10: for a well-formed signature, the timer is set once, with the
    timeout of the instance; it fires exactly when the call fails with
    the not-confirmed error; it is cleared when the race is fulfilled, by
    a callback or by the timer itself, and it is left pending when a
    registration error ends the call. *)
Theorem confirmTransaction_timer (sched : Schedule)
    (signature : TransactionSignature) (c : option Commitment)
    (s : BaseTxSender) :
  decodesTo64 bs58_decode signature = true ->
  let out := confirmTransaction bs58_decode sched signature c s in
  filter (fun e => isTimer e = true) (traceOf out)
  = match resultOf out with
    | Ok _ => [SetTimeout (timeout s); ClearTimeout]
    | Err (NotConfirmed _ _) =>
        [SetTimeout (timeout s); TimerFired; ClearTimeout]
    | Err _ => [SetTimeout (timeout s)]
    end.
Proof.
  intros Hv out.
  destruct (confirmTransaction_trace bs58_decode sched signature c s Hv)
    as (mid & ids & Ht & Hmid).
  fold out in Ht, Hmid.
  assert (Htimer : Forall (fun e => isTimer e = true) mid).
  { rewrite Hmid. destruct (resultOf out) as [r|[]]; repeat constructor. }
  destruct (phases signature (subscriptionCommitmentOf s c) (connectionsOf s)
              mid ids Htimer) as (_ & Hm & _).
  cbv zeta in Hm. rewrite <- Ht in Hm. now rewrite Hm.
Qed.

(** X11: for a well-formed signature, the effects of [confirmTransaction]
    come in three phases: every call of [onSignature], then the timer
    events of the race, then every call of [removeSignatureListener]; no
    subscription is removed before all are opened and the race is over,
    and none is opened after a removal. *)
Theorem confirmTransaction_phases (sched : Schedule)
    (signature : TransactionSignature) (c : option Commitment)
    (s : BaseTxSender) :
  decodesTo64 bs58_decode signature = true ->
  let t := traceOf (confirmTransaction bs58_decode sched signature c s) in
  t = filter (fun e => isOnSignature e = true) t
      ++ filter (fun e => isTimer e = true) t
      ++ filter (fun e => isRemoval e = true) t.
Proof.
  intros Hv t.
  destruct (confirmTransaction_trace bs58_decode sched signature c s Hv)
    as (mid & ids & Ht & Hmid).
  fold t in Ht.
  assert (Htimer : Forall (fun e => isTimer e = true) mid).
  { rewrite Hmid. destruct (resultOf _) as [r|[]]; repeat constructor. }
  destruct (phases signature (subscriptionCommitmentOf s c) (connectionsOf s)
              mid ids Htimer) as (Hr & Hm & Hd).
  cbv zeta in Hr, Hm, Hd. rewrite <- Ht in Hr, Hm, Hd.
  now rewrite Hr, Hm, Hd.
Qed.

(** X12: whatever the signature, a result that [confirmTransaction]
    returns is the result and context that some endpoint of the call
    passed to its callback during the call; the call inspects neither, so
    that a transaction that failed on chain is returned like a successful
    one. *)
Theorem confirmTransaction_returns_a_notification (sched : Schedule)
    (signature : TransactionSignature) (c : option Commitment)
    (s : BaseTxSender) (r : RpcResponseAndContext) :
  resultOf (confirmTransaction bs58_decode sched signature c s) = Ok r ->
  exists job x,
    job ∈ jobs sched /\ Invoke x ∈ job
    /\ (endpoint x < length (connectionsOf s))%nat
    /\ r = {| context := notifiedContext x; value := result x |}.
Proof.
  intros Hr. destruct (decodesTo64 bs58_decode signature) eqn:Hv.
  - pose proof (confirmTransaction_valid bs58_decode sched signature c s Hv) as E.
    cbv zeta in E. rewrite E in Hr.
    destruct (firstFailure _ _ _); [discriminate |].
    destruct (last _) as [x|] eqn:Hl; [| discriminate].
    injection Hr as <-.
    apply last_Some_elem_of in Hl.
    destruct (settlingJob_elem _ _ _ Hl) as (job & Hj & Hx & Hlt).
    now exists job, x.
  - rewrite (confirmTransaction_malformed bs58_decode sched signature c s Hv)
      in Hr.
    discriminate.
Qed.

End MoreConfirm.

Lemma confirmTransaction_subscribes_in_order_witness :
  filter (fun e => isOnSignature e = true)
    (traceOf (confirmTransaction Base58.decode Fixtures.silence
                Fixtures.signature (Some finalized) Fixtures.threeEndpoints))
  = imap (fun i conn =>
            OnSignature i (Connection.rpcEndpoint conn) Fixtures.signature
              (Some finalized))
         (connection Fixtures.threeEndpoints
          :: additionalConnections Fixtures.threeEndpoints)
  /\ subscribedAt
       (traceOf (confirmTransaction Base58.decode Fixtures.silence
                   Fixtures.signature (Some finalized)
                   Fixtures.threeEndpoints))
     = Connection.rpcEndpoint (connection Fixtures.threeEndpoints)
       :: additionalEndpoints Fixtures.threeEndpoints.
Proof.
  exact (confirmTransaction_subscribes_in_order Base58.decode Fixtures.silence
           Fixtures.signature (Some finalized) Fixtures.threeEndpoints
           eq_refl).
Defined.

Lemma confirmTransaction_timer_witness :
  filter (fun e => isTimer e = true)
    (traceOf (confirmTransaction Base58.decode Fixtures.lastFires
                Fixtures.signature None Fixtures.oneDown))
  = match resultOf (confirmTransaction Base58.decode Fixtures.lastFires
                      Fixtures.signature None Fixtures.oneDown) with
    | Ok _ => [SetTimeout (timeout Fixtures.oneDown); ClearTimeout]
    | Err (NotConfirmed _ _) =>
        [SetTimeout (timeout Fixtures.oneDown); TimerFired; ClearTimeout]
    | Err _ => [SetTimeout (timeout Fixtures.oneDown)]
    end.
Proof.
  exact (confirmTransaction_timer Base58.decode Fixtures.lastFires
           Fixtures.signature None Fixtures.oneDown eq_refl).
Defined.

(** With one endpoint down the timer is set to the default 35000 ms and
    never cleared. *)
Example confirmTransaction_timer_left_pending :
  filter (fun e => isTimer e = true)
    (traceOf (confirmTransaction Base58.decode Fixtures.lastFires
                Fixtures.signature None Fixtures.oneDown))
  = [SetTimeout 35000].
Proof. vm_compute. reflexivity. Qed.

Lemma confirmTransaction_phases_witness :
  traceOf (confirmTransaction Base58.decode Fixtures.secondFires
             Fixtures.signature None Fixtures.threeEndpoints)
  = filter (fun e => isOnSignature e = true)
      (traceOf (confirmTransaction Base58.decode Fixtures.secondFires
                  Fixtures.signature None Fixtures.threeEndpoints))
    ++ filter (fun e => isTimer e = true)
         (traceOf (confirmTransaction Base58.decode Fixtures.secondFires
                     Fixtures.signature None Fixtures.threeEndpoints))
    ++ filter (fun e => isRemoval e = true)
         (traceOf (confirmTransaction Base58.decode Fixtures.secondFires
                     Fixtures.signature None Fixtures.threeEndpoints)).
Proof.
  exact (confirmTransaction_phases Base58.decode Fixtures.secondFires
           Fixtures.signature None Fixtures.threeEndpoints eq_refl).
Defined.

Lemma confirmTransaction_returns_a_notification_witness :
  exists job x,
    job ∈ jobs Scenarios.failsOnChain /\ Invoke x ∈ job
    /\ (endpoint x < length (connectionsOf Fixtures.twoEndpoints))%nat
    /\ {| context := {| slot := 50 |};
          value := {| err := Some "InstructionError" |} |}
       = {| context := notifiedContext x; value := result x |}.
Proof.
  exact (confirmTransaction_returns_a_notification Base58.decode
           Scenarios.failsOnChain Fixtures.signature None
           Fixtures.twoEndpoints
           {| context := {| slot := 50 |};
              value := {| err := Some "InstructionError" |} |} eq_refl).
Defined.

(** ** The endpoint registry, further *)

Lemma known_address (c : Connection.t) (s : BaseTxSender) :
  existsb (String.eqb (Connection.rpcEndpoint c)) (additionalEndpoints s)
  = (0 <? registeredAt (Connection.rpcEndpoint c) s)%nat.
Proof.
  unfold additionalEndpoints, registeredAt.
  induction (additionalConnections s) as [|c0 l IH]; [reflexivity |].
  cbn [fmap list_fmap existsb]. rewrite IH.
  rewrite (String.eqb_sym (Connection.rpcEndpoint c)).
  destruct (String.eqb (Connection.rpcEndpoint c0) (Connection.rpcEndpoint c))
    eqn:E.
  - rewrite filter_cons_True by exact E. reflexivity.
  - rewrite filter_cons_False by (rewrite E; discriminate). reflexivity.
Qed.

Lemma addAdditionalConnection_list (c : Connection.t) (s : BaseTxSender) :
  additionalConnections (thisOf (addAdditionalConnection c s))
  = if existsb (String.eqb (Connection.rpcEndpoint c)) (additionalEndpoints s)
    then additionalConnections s
    else additionalConnections s ++ [c].
Proof.
  rewrite known_address.
  destruct (Nat.ltb_spec 0 (registeredAt (Connection.rpcEndpoint c) s)) as [H|H].
  - now rewrite addAdditionalConnection_known.
  - apply addAdditionalConnection_fresh. lia.
Qed.

(** X14: [addAdditionalConnection] appends the connection at the end of
    the additional connections when none of them has its address, and
    changes nothing otherwise; the primary connection is not consulted,
    so that its own address can be registered again; the other endpoints
    keep their order, and addresses that were pairwise distinct stay
    so. *)
Theorem addAdditionalConnection_appends_fresh (c : Connection.t)
    (s : BaseTxSender) :
  additionalEndpoints (thisOf (addAdditionalConnection c s))
  = (if existsb (String.eqb (Connection.rpcEndpoint c)) (additionalEndpoints s)
     then additionalEndpoints s
     else additionalEndpoints s ++ [Connection.rpcEndpoint c])
  /\ (forall s', additionalConnections s' = additionalConnections s ->
      additionalConnections (thisOf (addAdditionalConnection c s'))
      = additionalConnections (thisOf (addAdditionalConnection c s)))
  /\ (NoDup (additionalEndpoints s) ->
      NoDup (additionalEndpoints (thisOf (addAdditionalConnection c s)))).
Proof.
  assert (E : additionalEndpoints (thisOf (addAdditionalConnection c s))
    = (if existsb (String.eqb (Connection.rpcEndpoint c)) (additionalEndpoints s)
       then additionalEndpoints s
       else additionalEndpoints s ++ [Connection.rpcEndpoint c])).
  { unfold additionalEndpoints at 1. rewrite addAdditionalConnection_list.
    destruct (existsb _ _); [reflexivity |].
    unfold additionalEndpoints. now rewrite fmap_app. }
  split; [exact E |]. split.
  - intros s' Hs'. rewrite !addAdditionalConnection_list.
    unfold additionalEndpoints. now rewrite Hs'.
  - intros Hnd. rewrite E.
    destruct (existsb _ _) eqn:Hex; [exact Hnd |].
    apply NoDup_app. split; [exact Hnd |]. split; [| apply NoDup_singleton].
    intros url Hin Hurl. apply list_elem_of_singleton in Hurl. subst url.
    assert (Hex' : existsb (String.eqb (Connection.rpcEndpoint c))
                     (additionalEndpoints s) = true).
    { apply existsb_exists. exists (Connection.rpcEndpoint c).
      split; [now apply list_elem_of_In | apply String.eqb_refl]. }
    congruence.
Qed.

Lemma addAdditionalConnection_appends_fresh_witness :
  additionalEndpoints
    (thisOf (addAdditionalConnection Fixtures.primary Fixtures.twoEndpoints))
  = ["https://rpc.two"; "https://rpc.one"]
  /\ NoDup (additionalEndpoints
              (thisOf (addAdditionalConnection Fixtures.primary
                         Fixtures.twoEndpoints))).
Proof.
  split.
  - exact (proj1 (addAdditionalConnection_appends_fresh Fixtures.primary
                    Fixtures.twoEndpoints)).
  - exact (proj2 (proj2 (addAdditionalConnection_appends_fresh
                           Fixtures.primary Fixtures.twoEndpoints))
             (NoDup_singleton "https://rpc.two")).
Defined.

(** ** What the calls leave in place *)

Section Frame.

Variable bs58_decode : string -> option Buffer.
Variable partialSign : Signer -> Transaction -> Answer Transaction.
Variable serialize : Transaction -> Answer Buffer.
Variable sign :
  list (option Signer) -> VersionedTransaction -> Answer VersionedTransaction.
Variable serializeVersioned : VersionedTransaction -> Answer Buffer.
Variable compileToV0Message :
  PublicKey -> Blockhash -> list TransactionInstruction ->
  list AddressLookupTableAccount -> Answer MessageV0.
Variable sendRawTransaction : Buffer -> ConfirmOptions -> M TxSigAndSlot.

Lemma perform_frame (s : BaseTxSender) (call : Call) :
  reachesSubclass call = false ->
  sameConfiguration s
    (perform bs58_decode partialSign serialize sign serializeVersioned
       compileToV0Message sendRawTransaction s call)
  /\ additionalConnections s
     `prefix_of` additionalConnections
       (perform bs58_decode partialSign serialize sign serializeVersioned
          compileToV0Message sendRawTransaction s call).
Proof.
  assert (Hsame : sameConfiguration s s /\
                  additionalConnections s `prefix_of` additionalConnections s)
    by (now repeat split).
  intros Hc. destruct call; try discriminate Hc; cbn [perform].
  - now rewrite prepareTx_keepsThis.
  - now rewrite getVersionedTransaction_keepsThis.
  - rewrite confirmTransaction_this.
    destruct (resultOf _) as [r|[]]; exact Hsame.
  - exact Hsame.
  - now rewrite promiseTimeout_keepsThis.
  - exact Hsame.
  - split.
    + unfold addAdditionalConnection, bind, getThis, setThis.
      destruct (0 <? _)%nat; now repeat split.
    + rewrite addAdditionalConnection_list.
      destruct (existsb _ _); [reflexivity | now apply prefix_app_r].
  - exact Hsame.
Qed.

(** X15: over any sequence of calls that do not end in the subclass, the
    primary connection, the wallet, the options and the timeout of the
    sender stay what the constructor set, and the additional connections
    only grow at the end: no call removes or reorders a registered
    endpoint. *)
Theorem configuration_is_kept (s : BaseTxSender) (calls : list Call) :
  Forall (fun call => reachesSubclass call = false) calls ->
  sameConfiguration s
    (performAll bs58_decode partialSign serialize sign serializeVersioned
       compileToV0Message sendRawTransaction s calls)
  /\ additionalConnections s
     `prefix_of` additionalConnections
       (performAll bs58_decode partialSign serialize sign serializeVersioned
          compileToV0Message sendRawTransaction s calls).
Proof.
  intros Hall. revert s. unfold performAll.
  induction Hall as [|call calls Hc _ IH]; intros s; [now repeat split |].
  cbn [foldl].
  destruct (perform_frame s call Hc) as ((H1 & H2 & H3 & H4) & Hp).
  destruct (IH (perform bs58_decode partialSign serialize sign
                  serializeVersioned compileToV0Message sendRawTransaction
                  s call)) as ((G1 & G2 & G3 & G4) & Gp).
  split.
  - repeat split; congruence.
  - etransitivity; [exact Hp | exact Gp].
Qed.

(** X13: over any sequence of calls that do not end in the subclass, the
    timeout counter grows by the number of calls of [confirmTransaction]
    that fail with the not-confirmed error, whatever the signatures, the
    commitments and the endpoints of the calls and whatever is called in
    between: a returned result, a malformed signature, a registration
    error and the other methods are not counted. *)
Theorem timeoutCount_counts_timeouts (s : BaseTxSender) (calls : list Call) :
  Forall (fun call => reachesSubclass call = false) calls ->
  timeoutCount
    (performAll bs58_decode partialSign serialize sign serializeVersioned
       compileToV0Message sendRawTransaction s calls)
  = timeoutCount s
    + Z.of_nat (timeouts bs58_decode partialSign serialize sign
                  serializeVersioned compileToV0Message sendRawTransaction
                  s calls).
Proof.
  intros Hall. revert s. unfold performAll.
  induction Hall as [|call calls Hc _ IH]; intros s; [cbn; lia |].
  cbn [foldl timeouts]. rewrite IH.
  rewrite (perform_exact bs58_decode partialSign serialize sign
             serializeVersioned compileToV0Message sendRawTransaction
             s call Hc).
  destruct (timesOut bs58_decode s call); lia.
Qed.

End Frame.

Lemma configuration_is_kept_witness :
  sameConfiguration Fixtures.twoEndpoints
    (performAll Base58.decode Fixtures.partialSign Fixtures.serialize
       Fixtures.sign Fixtures.serializeVersioned Fixtures.compileToV0Message
       BaseTxSender_sendRawTransaction Fixtures.twoEndpoints
       [CallConfirmTransaction Fixtures.silence Fixtures.signature None;
        CallAddAdditionalConnection Fixtures.third;
        CallPrepareTx Fixtures.transaction [] AnchorProvider_defaultOptions])
  /\ additionalConnections Fixtures.twoEndpoints
     `prefix_of` additionalConnections
       (performAll Base58.decode Fixtures.partialSign Fixtures.serialize
          Fixtures.sign Fixtures.serializeVersioned
          Fixtures.compileToV0Message BaseTxSender_sendRawTransaction
          Fixtures.twoEndpoints
          [CallConfirmTransaction Fixtures.silence Fixtures.signature None;
           CallAddAdditionalConnection Fixtures.third;
           CallPrepareTx Fixtures.transaction []
             AnchorProvider_defaultOptions]).
Proof.
  exact (configuration_is_kept Base58.decode Fixtures.partialSign
           Fixtures.serialize Fixtures.sign Fixtures.serializeVersioned
           Fixtures.compileToV0Message BaseTxSender_sendRawTransaction
           Fixtures.twoEndpoints
           [CallConfirmTransaction Fixtures.silence Fixtures.signature None;
            CallAddAdditionalConnection Fixtures.third;
            CallPrepareTx Fixtures.transaction [] AnchorProvider_defaultOptions]
           ltac:(repeat constructor)).
Defined.

Lemma timeoutCount_counts_timeouts_witness :
  timeoutCount
    (performAll Base58.decode Fixtures.partialSign Fixtures.serialize
       Fixtures.sign Fixtures.serializeVersioned Fixtures.compileToV0Message
       BaseTxSender_sendRawTransaction Fixtures.twoEndpoints
       Scenarios.outcomes)
  = timeoutCount Fixtures.twoEndpoints
    + Z.of_nat (timeouts Base58.decode Fixtures.partialSign Fixtures.serialize
                  Fixtures.sign Fixtures.serializeVersioned
                  Fixtures.compileToV0Message BaseTxSender_sendRawTransaction
                  Fixtures.twoEndpoints Scenarios.outcomes).
Proof.
  exact (timeoutCount_counts_timeouts Base58.decode Fixtures.partialSign
           Fixtures.serialize Fixtures.sign Fixtures.serializeVersioned
           Fixtures.compileToV0Message BaseTxSender_sendRawTransaction
           Fixtures.twoEndpoints Scenarios.outcomes
           ltac:(repeat constructor)).
Defined.

(** Five calls of [confirmTransaction], of which the first and the fourth
    time out. *)
Example timeoutCount_counts_timeouts_scenario :
  timeouts Base58.decode Fixtures.partialSign Fixtures.serialize
    Fixtures.sign Fixtures.serializeVersioned Fixtures.compileToV0Message
    BaseTxSender_sendRawTransaction Fixtures.twoEndpoints Scenarios.outcomes
  = 2%nat
  /\ timeoutCount
       (performAll Base58.decode Fixtures.partialSign Fixtures.serialize
          Fixtures.sign Fixtures.serializeVersioned
          Fixtures.compileToV0Message BaseTxSender_sendRawTransaction
          Fixtures.twoEndpoints Scenarios.outcomes)
     = 2.
Proof. vm_compute. split; reflexivity. Qed.

(** ** Calls after a registration *)

Lemma dispatchedTo_sends (raw : Buffer) (o : ConfirmOptions)
    (conns : list Connection.t) :
  dispatchedTo (map (fun conn =>
                  SendRawTransaction (Connection.rpcEndpoint conn) raw o) conns)
  = Connection.rpcEndpoint <$> conns.
Proof. induction conns as [|c l IH]; [reflexivity |]. cbn. now f_equal. Qed.

(** X16: an endpoint registered by [addAdditionalConnection] under an
    address that no additional connection had takes part in the calls
    that follow: the next [confirmTransaction] opens a subscription on it,
    after those on the endpoints that were there, and the next
    [sendToAdditionalConnections] dispatches to it last. *)
Theorem added_endpoint_takes_part (bs58_decode : string -> option Buffer)
    (sched : Schedule) (signature : TransactionSignature)
    (c : option Commitment) (raw : Buffer) (o : ConfirmOptions)
    (conn : Connection.t) (s : BaseTxSender) :
  decodesTo64 bs58_decode signature = true ->
  registeredAt (Connection.rpcEndpoint conn) s = 0%nat ->
  subscribedAt
    (traceOf (confirmTransaction bs58_decode sched signature c
                (thisOf (addAdditionalConnection conn s))))
  = subscribedAt (traceOf (confirmTransaction bs58_decode sched signature c s))
    ++ [Connection.rpcEndpoint conn]
  /\ dispatchedTo
       (traceOf (sendToAdditionalConnections raw o
                   (thisOf (addAdditionalConnection conn s))))
     = dispatchedTo (traceOf (sendToAdditionalConnections raw o s))
       ++ [Connection.rpcEndpoint conn].
Proof.
  intros Hv Hfresh.
  pose proof (addAdditionalConnection_fresh conn s Hfresh) as Hl.
  assert (Hconn : connection (thisOf (addAdditionalConnection conn s))
                  = connection s).
  { unfold addAdditionalConnection, bind, getThis, setThis.
    now destruct (0 <? _)%nat. }
  split.
  - destruct (subscriptions_of_call bs58_decode sched signature c s Hv)
      as (_ & ->).
    destruct (subscriptions_of_call bs58_decode sched signature c
                (thisOf (addAdditionalConnection conn s)) Hv) as (_ & ->).
    unfold additionalEndpoints. rewrite Hconn, Hl, fmap_app. reflexivity.
  - unfold sendToAdditionalConnections, bind, getThis, emitAll, traceOf.
    cbn [fst snd app]. rewrite !dispatchedTo_sends, Hl, fmap_app. reflexivity.
Qed.

Lemma added_endpoint_takes_part_witness :
  subscribedAt
    (traceOf (confirmTransaction Base58.decode Fixtures.silence
                Fixtures.signature None
                (thisOf (addAdditionalConnection Fixtures.third
                           Fixtures.twoEndpoints))))
  = subscribedAt
      (traceOf (confirmTransaction Base58.decode Fixtures.silence
                  Fixtures.signature None Fixtures.twoEndpoints))
    ++ ["https://rpc.three"]
  /\ dispatchedTo
       (traceOf (sendToAdditionalConnections [x01]
                   AnchorProvider_defaultOptions
                   (thisOf (addAdditionalConnection Fixtures.third
                              Fixtures.twoEndpoints))))
     = dispatchedTo
         (traceOf (sendToAdditionalConnections [x01]
                     AnchorProvider_defaultOptions Fixtures.twoEndpoints))
       ++ ["https://rpc.three"].
Proof.
  exact (added_endpoint_takes_part Base58.decode Fixtures.silence
           Fixtures.signature None [x01] AnchorProvider_defaultOptions
           Fixtures.third Fixtures.twoEndpoints eq_refl eq_refl).
Defined.

(** ** The handlers of the fan-out *)

Lemma settledConnections_all (conns : list Connection.t) :
  settledConnections conns (seq 0 (length conns)) = conns.
Proof.
  unfold settledConnections.
  enough (G : forall front,
    omap (fun i => (front ++ conns) !! i) (seq (length front) (length conns))
    = conns) by exact (G []).
  induction conns as [|c conns IH]; intros front; [reflexivity |].
  cbn [length seq omap list_omap].
  rewrite list_lookup_middle by reflexivity. f_equal.
  specialize (IH (front ++ [c])).
  rewrite length_app, Nat.add_1_r, <- app_assoc in IH. exact IH.
Qed.

(** X17: whatever the order in which the dispatched sends settle, the
    [catch] handlers of [sendToAdditionalConnections] print, for each
    send that is rejected and for no other, the line that names the
    address of its connection and then its error, one send after the
    other in the order in which they settle; they return normally and
    leave the sender unchanged.  Once every send has settled the lines
    printed are, up to their order, those of the connections whose send
    is rejected. *)
Theorem dispatchReactions_logs_failures (raw : Buffer) (o : ConfirmOptions)
    (conns : list Connection.t) (settled : list nat) (s : BaseTxSender) :
  dispatchReactions raw o conns settled s
  = (Ok tt, s, sendErrors raw o (settledConnections conns settled))
  /\ length (sendErrors raw o (settledConnections conns settled))
     = (2 * length (filter (fun conn => sendIsRejected raw o conn = true)
                             (settledConnections conns settled)))%nat
  /\ (settled ≡ₚ seq 0 (length conns) ->
      traceOf (dispatchReactions raw o conns settled s)
      ≡ₚ sendErrors raw o conns).
Proof.
  assert (E : dispatchReactions raw o conns settled s
              = (Ok tt, s, sendErrors raw o (settledConnections conns settled))).
  { induction settled as [|i rest IH]; [reflexivity |].
    cbn [dispatchReactions].
    assert (Hc : match conns !! i with
                 | Some c => catch (Connection.sendRawTransaction c raw o)
                                   (logSendError c)
                 | None => ret tt
                 end s
                 = (Ok tt, s, sendErrors raw o (settledConnections conns [i]))).
    { unfold settledConnections, catch, sendErrors. cbn.
      destruct (conns !! i) as [c|]; [| reflexivity]. cbn.
      now destruct (Connection.sendRawTransaction c raw o). }
    rewrite (bind_ok _ _ _ _ _ _ Hc), IH.
    unfold resultOf, thisOf, traceOf; cbn [fst snd].
    unfold sendErrors, settledConnections. cbn [omap list_omap].
    destruct (conns !! i) as [c|]; cbn; [| reflexivity].
    now rewrite app_nil_r. }
  split; [exact E |]. split.
  - generalize (settledConnections conns settled) as l.
    induction l as [|conn rest IH]; [reflexivity |].
    unfold sendErrors in *. cbn [mbind list_bind]. rewrite length_app, IH.
    destruct (Connection.sendRawTransaction conn raw o) as [sig|what] eqn:Hs.
    + rewrite filter_cons_False; [reflexivity |].
      unfold sendIsRejected. rewrite Hs. discriminate.
    + rewrite filter_cons_True by (unfold sendIsRejected; now rewrite Hs).
      cbn [length]. lia.
  - intros Hperm. rewrite E. unfold traceOf; cbn [snd].
    unfold sendErrors. apply bind_Permutation.
    rewrite <- (settledConnections_all conns) at 2.
    unfold settledConnections. now apply omap_Permutation.
Qed.

Lemma dispatchReactions_logs_failures_witness :
  dispatchReactions [x01] AnchorProvider_defaultOptions
    (additionalConnections Scenarios.mixed) [1; 0]%nat Scenarios.mixed
  = (Ok tt, Scenarios.mixed,
     [ConsoleError "error sending tx to additional connection https://rpc.down";
      ConsoleError "fetch failed"])
  /\ traceOf (dispatchReactions [x01] AnchorProvider_defaultOptions
                (additionalConnections Scenarios.mixed) [1; 0]%nat
                Scenarios.mixed)
     ≡ₚ sendErrors [x01] AnchorProvider_defaultOptions
          (additionalConnections Scenarios.mixed).
Proof.
  split.
  - exact (proj1 (dispatchReactions_logs_failures [x01]
                    AnchorProvider_defaultOptions
                    (additionalConnections Scenarios.mixed) [1; 0]%nat
                    Scenarios.mixed)).
  - exact (proj2 (proj2 (dispatchReactions_logs_failures [x01]
                           AnchorProvider_defaultOptions
                           (additionalConnections Scenarios.mixed) [1; 0]%nat
                           Scenarios.mixed))
             (perm_swap 0%nat 1%nat [])).
Defined.

(** ** promiseTimeout on its own *)

Lemma runTurn_no_promises (steps : list Step) (fr : Frame) :
  promises fr = [] -> runTurn steps fr = (fr, false).
Proof.
  intros Hp. induction steps as [|[x|] steps IH]; [reflexivity | | exact IH].
  cbn [runTurn].
  assert (E : notify fr x = fr) by (unfold notify; now rewrite Hp).
  rewrite E, Hp. exact IH.
Qed.

Lemma eventLoop_no_promises (js : list (list Step)) (fr : Frame) :
  promises fr = [] -> eventLoop js fr = (fr, true).
Proof.
  intros Hp. induction js as [|job js IH]; [reflexivity |].
  cbn [eventLoop]. rewrite (runTurn_no_promises job fr Hp). exact IH.
Qed.

Lemma race_first (before after : list Promise) (p : Promise) :
  Forall (fun q => q = Pending) before -> p <> Pending ->
  race (before ++ p :: after) = p.
Proof.
  intros Hb Hp. induction Hb as [|q before -> _ IH]; [| exact IH].
  cbn. now destruct p.
Qed.

(** X18: [promiseTimeout] sets its timer first, with the delay it is
    given, and leaves the sender unchanged.  Among promises that are
    settled already, the first one in the order of the list decides: when
    it is rejected, the returned promise is rejected with its error
    before any callback of the turns that follow, and the timer is not
    cleared; when it is fulfilled, the returned promise is fulfilled and
    the timer is cleared without having fired, even with a rejected
    promise further down the list.  With an empty list of promises the
    timer wins, whatever the endpoints do, and is cleared after it
    fired. *)
Theorem promiseTimeout_settles (js : list (list Step)) (fr : Frame)
    (ms : Z) (s : BaseTxSender) :
  (exists t, traceOf (promiseTimeout js fr ms s) = SetTimeout ms :: t)
  /\ thisOf (promiseTimeout js fr ms s) = s
  /\ (forall before e after,
        promises fr = before ++ Rejected e :: after ->
        Forall (fun p => p = Pending) before ->
        promiseTimeout js fr ms s = (Ok (fr, Rejected e), s, [SetTimeout ms]))
  /\ (forall before after,
        promises fr = before ++ Fulfilled :: after ->
        Forall (fun p => p = Pending) before ->
        promiseTimeout js fr ms s
        = (Ok (fr, Fulfilled), s, [SetTimeout ms; ClearTimeout]))
  /\ (promises fr = [] ->
      promiseTimeout js fr ms s
      = (Ok (fr, Fulfilled), s, [SetTimeout ms; TimerFired; ClearTimeout])).
Proof.
  split; [| split; [apply promiseTimeout_keepsThis | split; [| split]]].
  - unfold promiseTimeout.
    rewrite (bind_ok _ _ s s tt [SetTimeout ms]) by reflexivity.
    eexists. reflexivity.
  - intros before e after Hp Hb. unfold promiseTimeout.
    rewrite (bind_ok _ _ s s tt [SetTimeout ms]) by reflexivity.
    now rewrite Hp, (race_first before after (Rejected e) Hb).
  - intros before after Hp Hb. unfold promiseTimeout.
    rewrite (bind_ok _ _ s s tt [SetTimeout ms]) by reflexivity.
    now rewrite Hp, (race_first before after Fulfilled Hb).
  - intros Hp. unfold promiseTimeout.
    rewrite (bind_ok _ _ s s tt [SetTimeout ms]) by reflexivity.
    now rewrite (eventLoop_no_promises js fr Hp), Hp.
Qed.

Lemma promiseTimeout_settles_witness :
  promiseTimeout [[Invoke (Fixtures.success 42 0)]] Scenarios.halfRejected 100
    Fixtures.twoEndpoints
  = (Ok (Scenarios.halfRejected, Rejected (Thrown "socket closed")),
     Fixtures.twoEndpoints, [SetTimeout 100])
  /\ promiseTimeout [[Invoke (Fixtures.success 42 0)]]
       Scenarios.fulfilledFirst 100 Fixtures.twoEndpoints
     = (Ok (Scenarios.fulfilledFirst, Fulfilled), Fixtures.twoEndpoints,
        [SetTimeout 100; ClearTimeout])
  /\ promiseTimeout [[Invoke (Fixtures.success 42 0)]] Scenarios.noPromises
       100 Fixtures.twoEndpoints
     = (Ok (Scenarios.noPromises, Fulfilled), Fixtures.twoEndpoints,
        [SetTimeout 100; TimerFired; ClearTimeout]).
Proof.
  split; [| split].
  - exact (proj1 (proj2 (proj2 (promiseTimeout_settles
             [[Invoke (Fixtures.success 42 0)]] Scenarios.halfRejected 100
             Fixtures.twoEndpoints)))
           [Pending] (Thrown "socket closed") [] eq_refl
           ltac:(repeat constructor)).
  - exact (proj1 (proj2 (proj2 (proj2 (promiseTimeout_settles
             [[Invoke (Fixtures.success 42 0)]] Scenarios.fulfilledFirst 100
             Fixtures.twoEndpoints))))
           [] [Rejected (Thrown "socket closed")] eq_refl
           ltac:(constructor)).
  - exact (proj2 (proj2 (proj2 (proj2 (promiseTimeout_settles
             [[Invoke (Fixtures.success 42 0)]] Scenarios.noPromises 100
             Fixtures.twoEndpoints)))) eq_refl).
Defined.

(** ** A sender as the constructor leaves it *)

(** X19: a sender built by the constructor reads a timeout count of 0;
    for a well-formed signature its [confirmTransaction] sets the timer to
    the timeout given to the constructor, or to 35000 ms when none was
    given, and subscribes on the primary connection and then on the
    additional connections given to the constructor, none when they were
    left out. *)
Theorem constructed_sender (bs58_decode : string -> option Buffer)
    (conn : Connection.t) (w : Wallet.t) (o : option ConfirmOptions)
    (ms : option Z) (additional : option (list Connection.t))
    (sched : Schedule) (signature : TransactionSignature)
    (c : option Commitment) :
  decodesTo64 bs58_decode signature = true ->
  let s := new_BaseTxSender conn w o ms additional in
  let t := traceOf (confirmTransaction bs58_decode sched signature c s) in
  resultOf (getTimeoutCount s) = Ok 0
  /\ head (filter (fun e => isTimer e = true) t)
     = Some (SetTimeout (default 35000 ms))
  /\ subscribedAt t
     = Connection.rpcEndpoint conn
       :: (Connection.rpcEndpoint <$> default [] additional).
Proof.
  intros Hv s t. split; [reflexivity |]. split.
  - destruct (confirmTransaction_trace bs58_decode sched signature c s Hv)
      as (mid & ids & Ht & Hmid).
    fold t in Ht.
    assert (Htimer : Forall (fun e => isTimer e = true) mid).
    { rewrite Hmid. destruct (resultOf _) as [r|[]]; repeat constructor. }
    destruct (phases signature (subscriptionCommitmentOf s c) (connectionsOf s)
                mid ids Htimer) as (_ & Hm & _).
    cbv zeta in Hm. rewrite <- Ht in Hm. rewrite Hm, Hmid.
    now destruct (resultOf _) as [r|[]].
  - unfold t.
    now destruct (subscriptions_of_call bs58_decode sched signature c s Hv)
      as (_ & ->).
Qed.

Lemma constructed_sender_witness :
  resultOf (getTimeoutCount
              (new_BaseTxSender Fixtures.primary Fixtures.wallet None
                 (Some 100) None)) = Ok 0
  /\ head (filter (fun e => isTimer e = true)
             (traceOf (confirmTransaction Base58.decode Fixtures.silence
                         Fixtures.signature None
                         (new_BaseTxSender Fixtures.primary Fixtures.wallet
                            None (Some 100) None))))
     = Some (SetTimeout 100)
  /\ subscribedAt
       (traceOf (confirmTransaction Base58.decode Fixtures.silence
                   Fixtures.signature None
                   (new_BaseTxSender Fixtures.primary Fixtures.wallet
                      None (Some 100) None)))
     = ["https://rpc.one"].
Proof.
  exact (constructed_sender Base58.decode Fixtures.primary Fixtures.wallet
           None (Some 100) None Fixtures.silence Fixtures.signature None
           eq_refl).
Defined.

(** ** The errors of confirmTransaction *)

(** X20: whatever its arguments and whatever the endpoints do, an error
    of [confirmTransaction] is one of four: the error of a text that is
    not base58, the assertion on the length, the error that the first
    failing [onSignature] threw, or the not-confirmed error with the
    elapsed time and the signature; the teardown itself never throws. *)
Theorem confirmTransaction_errors (bs58_decode : string -> option Buffer)
    (sched : Schedule) (signature : TransactionSignature)
    (c : option Commitment) (s : BaseTxSender) (e : Error) :
  resultOf (confirmTransaction bs58_decode sched signature c s) = Err e ->
  (bs58_decode signature = None /\ e = SignatureNotBase58 signature)
  \/ (decodesTo64 bs58_decode signature = false
      /\ e = AssertionError "signature has invalid length")
  \/ (exists what,
        firstFailure signature (subscriptionCommitmentOf s c) (connectionsOf s)
        = Some what
        /\ e = Thrown what)
  \/ (settlingJob (length (connectionsOf s)) (jobs sched) = []
      /\ e = NotConfirmed (endTime sched - startTime sched) signature).
Proof.
  intros He. destruct (decodesTo64 bs58_decode signature) eqn:Hv.
  - pose proof (confirmTransaction_valid bs58_decode sched signature c s Hv) as E.
    cbv zeta in E. rewrite E in He.
    destruct (firstFailure _ _ _) as [what|].
    + injection He as <-. right. right. left. now exists what.
    + destruct (last _) as [x|] eqn:Hl; [discriminate |].
      injection He as <-. apply last_None in Hl. right. right. right.
      now split.
  - rewrite (confirmTransaction_malformed bs58_decode sched signature c s Hv)
      in He.
    injection He as <-.
    destruct (bs58_decode signature); [right; left | left]; now split.
Qed.

Lemma confirmTransaction_errors_witness :
  (Base58.decode Fixtures.signature = None
   /\ NotConfirmed 35000 Fixtures.signature
      = SignatureNotBase58 Fixtures.signature)
  \/ (decodesTo64 Base58.decode Fixtures.signature = false
      /\ NotConfirmed 35000 Fixtures.signature
         = AssertionError "signature has invalid length")
  \/ (exists what,
        firstFailure Fixtures.signature
          (subscriptionCommitmentOf Fixtures.twoEndpoints None)
          (connectionsOf Fixtures.twoEndpoints) = Some what
        /\ NotConfirmed 35000 Fixtures.signature = Thrown what)
  \/ (settlingJob (length (connectionsOf Fixtures.twoEndpoints))
        (jobs Fixtures.silence) = []
      /\ NotConfirmed 35000 Fixtures.signature
         = NotConfirmed (endTime Fixtures.silence - startTime Fixtures.silence)
             Fixtures.signature).
Proof.
  exact (confirmTransaction_errors Base58.decode Fixtures.silence
           Fixtures.signature None Fixtures.twoEndpoints
           (NotConfirmed 35000 Fixtures.signature) eq_refl).
Defined.
